(** * Notebooks and CI workflows of azureml-examples: a verified model

    The repository consists of two Jupyter notebooks (the fine-tuning
    notebook [text_generation_with_model_as_a_platform.ipynb] and the
    "Working with Data" notebook) and two GitHub workflow files.  The
    notebooks are Python scripts cut into cells; every operation is a call
    into an external library.  The development below embeds

    - the Python fragment the cells are written in (expressions,
      statements, cells), with an executable interpreter that threads the
      notebook namespace and the state of the external platform and
      records every external call, print and sleep in a trace;
    - the cells themselves, statement by statement;
    - the workflow files as records.

    External calls are answered by a parameter [ext] of the interpreter:
    theorems that hold for every [ext] hold for every behaviour of the
    external platform. *)

From Stdlib Require Import ZArith String Ascii List Bool Lia.
From stdpp Require Import base option list strings gmap pretty sorting.

Set Warnings "-register-all".

Open Scope string_scope.
Open Scope list_scope.

(** ** Values and exceptions *)

(** Exceptions.  [LibError cls] is an exception raised by an external
    library (class name [cls], a subclass of [Exception]);
    [KeyboardInterrupt] derives from [BaseException] only. *)
Inductive exn : Type :=
| NameError (x : string)
| SyntaxError (msg : string)
| TypeError (msg : string)
| KeyError (k : string)
| LibError (cls : string)
| KeyboardInterrupt.

Definition exn_class (e : exn) : string :=
  match e with
  | NameError _ => "NameError"
  | SyntaxError _ => "SyntaxError"
  | TypeError _ => "TypeError"
  | KeyError _ => "KeyError"
  | LibError cls => cls
  | KeyboardInterrupt => "KeyboardInterrupt"
  end.

Definition is_Exception (e : exn) : bool :=
  match e with
  | KeyboardInterrupt => false
  | _ => true
  end.

Definition exn_eqb (a b : exn) : bool :=
  match a, b with
  | NameError x, NameError y => String.eqb x y
  | SyntaxError x, SyntaxError y => String.eqb x y
  | TypeError x, TypeError y => String.eqb x y
  | KeyError x, KeyError y => String.eqb x y
  | LibError x, LibError y => String.eqb x y
  | KeyboardInterrupt, KeyboardInterrupt => true
  | _, _ => false
  end.

(** Python values as far as the notebooks handle them.  [VExt p] is an
    imported module, class, function or constant with dotted path [p];
    [VObj cls fields] an object with known attributes; [VProj b a] the
    attribute or item [a] of an external object [b] about which nothing
    more is known (calling it is an external call). *)
Inductive value : Type :=
| VNone
| VBool (b : bool)
| VInt (n : Z)
| VStr (s : string)
| VList (vs : list value)
| VDict (kvs : list (string * value))
| VObj (cls : string) (fields : list (string * value))
| VExt (path : string)
| VProj (base : value) (sel : string)
| VExc (e : exn).

Fixpoint assoc {A : Type} (k : string) (l : list (string * A)) : option A :=
  match l with
  | [] => None
  | (k', a) :: l' => if String.eqb k k' then Some a else assoc k l'
  end.

Fixpoint assoc_set {A : Type} (k : string) (a : A) (l : list (string * A))
  : list (string * A) :=
  match l with
  | [] => [(k, a)]
  | (k', a') :: l' =>
      if String.eqb k k' then (k, a) :: l' else (k', a') :: assoc_set k a l'
  end.

Fixpoint value_eqb (a b : value) {struct a} : bool :=
  let fields_eqb :=
    fix go (xs ys : list (string * value)) {struct xs} : bool :=
      match xs, ys with
      | [], [] => true
      | (k, x) :: xs', (k', y) :: ys' =>
          String.eqb k k' && value_eqb x y && go xs' ys'
      | _, _ => false
      end in
  match a, b with
  | VNone, VNone => true
  | VBool x, VBool y => Bool.eqb x y
  | VInt x, VInt y => Z.eqb x y
  | VStr x, VStr y => String.eqb x y
  | VList xs, VList ys =>
      (fix go (xs ys : list value) {struct xs} : bool :=
         match xs, ys with
         | [], [] => true
         | x :: xs', y :: ys' => value_eqb x y && go xs' ys'
         | _, _ => false
         end) xs ys
  | VDict xs, VDict ys => fields_eqb xs ys
  | VObj c xs, VObj c' ys => String.eqb c c' && fields_eqb xs ys
  | VExt p, VExt q => String.eqb p q
  | VProj x s, VProj y s' => value_eqb x y && String.eqb s s'
  | VExc e, VExc e' => exn_eqb e e'
  | _, _ => false
  end.

(** [str(v)]: the text of a value.  Objects of external libraries print
    as their class name. *)
Fixpoint to_str (v : value) : string :=
  match v with
  | VNone => "None"
  | VBool true => "True"
  | VBool false => "False"
  | VInt n => pretty n
  | VStr s => s
  | VList _ => "[...]"
  | VDict _ => "{...}"
  | VObj cls _ => "<" +:+ cls +:+ ">"
  | VExt p => "<" +:+ p +:+ ">"
  | VProj b a => to_str b +:+ "." +:+ a
  | VExc e => exn_class e
  end.

Definition truthy (v : value) : bool :=
  match v with
  | VNone => false
  | VBool b => b
  | VInt n => negb (Z.eqb n 0)
  | VStr s => negb (String.eqb s "")
  | VList [] => false
  | VDict [] => false
  | _ => true
  end.

Fixpoint join_str (sep : string) (l : list string) : string :=
  match l with
  | [] => ""
  | [x] => x
  | x :: l' => x +:+ sep +:+ join_str sep l'
  end.

Definition is_digit (c : ascii) : bool :=
  (48 <=? nat_of_ascii c)%nat && (nat_of_ascii c <=? 57)%nat.

(** [s.format(a0, a1, ...)] for the replacement fields the notebooks use:
    [{0}] ... [{9}]. *)
Fixpoint format (s : string) (items : list string) : string :=
  match s with
  | EmptyString => EmptyString
  | String c s' =>
      match s' with
      | String d (String c' rest) =>
          if Ascii.eqb c "{" && is_digit d && Ascii.eqb c' "}"
          then nth (nat_of_ascii d - 48) items "" +:+ format rest items
          else String c (format s' items)
      | _ => String c (format s' items)
      end
  end.

(** Attribute access.  A module or class member extends the dotted path;
    an unknown attribute of an object stays symbolic. *)
Definition get_attr (v : value) (a : string) : value :=
  match v with
  | VExt p => VExt (p +:+ "." +:+ a)
  | VObj cls fs =>
      match assoc a fs with
      | Some x => x
      | None => VProj v a
      end
  | _ => VProj v a
  end.

(** Objects of external libraries, of which only the origin is known. *)
Definition opaque (v : value) : bool :=
  match v with
  | VObj _ _ | VExt _ | VProj _ _ => true
  | _ => false
  end.

(** [o.a1.a2... = v] as a functional update of the object. *)
Fixpoint set_attr (o : value) (path : list string) (v : value) : value :=
  match path with
  | [] => v
  | a :: path' =>
      match o with
      | VObj cls fs => VObj cls (assoc_set a (set_attr (get_attr o a) path' v) fs)
      | _ => o
      end
  end.

(** ** Syntax *)

Inductive expr : Type :=
| ENone
| EBool (b : bool)
| ENum (n : Z)
| EStr (s : string)
| EName (x : string)
| EAttr (e : expr) (a : string)
| EIndex (e : expr) (k : expr)
| ESlice (e : expr) (lo : nat) (hi : option nat)
| ECall (f : expr) (a : args)
| EFStr (parts : args)
| EList (items : args)
| EDict (items : args)
| EIn (e : expr) (l : expr)
| EAdd (e1 e2 : expr)
| EComp (elt : expr) (x : string) (iter : expr)
with args : Type :=
| ANil
| APos (e : expr) (rest : args)
| AKw (k : string) (e : expr) (rest : args).

Inductive handler : Type :=
| HBare
| HExcept (cls : string) (name : option string).

Inductive stmt : Type :=
| SPass
| SExpr (e : expr)
| SAssign (x : string) (e : expr)
| SSetAttr (x : string) (path : list string) (e : expr)
| SImport (mods : list string)
| SFromImport (module : string) (names : list string)
| SMagic (line : string)
| SSeq (s1 s2 : stmt)
| SIf (c : expr) (s1 s2 : stmt)
| SWhile (c : expr) (body : stmt)
| STry (body : stmt) (h : handler) (hbody : stmt)
| SBreak.

(** A cell is the list of its top-level statements. *)
Definition cell := list stmt.

(** The text of a callee as the notebook writes it, e.g.
    [workspace_ml_client.data.get]. *)
Fixpoint site_of (e : expr) : string :=
  match e with
  | EName x => x
  | EAttr e' a => site_of e' +:+ "." +:+ a
  | ECall f _ => site_of f +:+ "()"
  | EStr _ => "<str>"
  | _ => "<expr>"
  end.

(** ** Traces *)

Inductive reply : Type :=
| Ret (v : value)
| Raise (cls : string).

Inductive event : Type :=
| EvCall (site : string) (callee : value) (pos : list value)
         (kw : list (string * value)) (r : reply)
| EvPrint (s : string)
| EvSleep (secs : Z)
| EvShell (line : string).

Inductive signal : Type :=
| Normal
| Break
| Exc (e : exn)
| Diverge.

Definition catches (h : handler) (e : exn) : bool :=
  match h with
  | HBare => true
  | HExcept cls _ =>
      String.eqb cls "BaseException"
      || (String.eqb cls "Exception" && is_Exception e)
      || String.eqb cls (exn_class e)
  end.

(** Classes of [azure.ai.ml.entities] are plain configuration objects:
    constructing one stores the keyword arguments and calls nothing. *)
Definition is_entity (p : string) : bool :=
  String.prefix "azure.ai.ml.entities." p.

(** ['break' outside loop]: what the Python compiler rejects. *)
Fixpoint break_outside_loop (s : stmt) : bool :=
  match s with
  | SBreak => true
  | SSeq a b => break_outside_loop a || break_outside_loop b
  | SIf _ a b => break_outside_loop a || break_outside_loop b
  | STry a _ b => break_outside_loop a || break_outside_loop b
  | SWhile _ _ => false
  | _ => false
  end.

(** ** The interpreter *)

Section Interp.

Context {W : Type}.
(** The external world: given its state, the callee and the arguments,
    the reply and the next state. *)
Variable ext : W -> value -> list value -> list (string * value) -> reply * W.

Definition M (A : Type) : Type := W -> list event * W * (A + exn).

Definition ret {A : Type} (a : A) (w : W) : list event * W * (A + exn) :=
  ([], w, inl a).
Definition raise {A : Type} (e : exn) (w : W) : list event * W * (A + exn) :=
  ([], w, inr e).
Definition emit (ev : event) (w : W) : list event * W * (value + exn) :=
  ([ev], w, inl VNone).

Definition bind {A B : Type} (m : M A) (k : A -> M B) (w : W)
  : list event * W * (B + exn) :=
  match m w with
  | (t1, w1, inl a) =>
      match k a w1 with
      | (t2, w2, r) => (t1 ++ t2, w2, r)
      end
  | (t1, w1, inr e) => (t1, w1, inr e)
  end.

Definition external (site : string) (f : value) (pos : list value)
    (kw : list (string * value)) (w : W) : list event * W * (value + exn) :=
  match ext w f pos kw with
  | (Ret v, w') => ([EvCall site f pos kw (Ret v)], w', inl v)
  | (Raise cls, w') =>
      ([EvCall site f pos kw (Raise cls)], w', inr (LibError cls))
  end.

Definition call (site : string) (f : value) (pos : list value)
    (kw : list (string * value)) : M value :=
  match f with
  | VExt p =>
      if String.eqb p "print" then emit (EvPrint (join_str " " (map to_str pos)))
      else if String.eqb p "str" then
        match pos with
        | [] => ret (VStr "")
        | v :: _ => ret (VStr (to_str v))
        end
      else if String.eqb p "time.sleep" then
        match pos with
        | [VInt n] => emit (EvSleep n)
        | _ => raise (TypeError "sleep")
        end
      else if is_entity p then ret (VObj p kw)
      else external site f pos kw
  | VProj (VStr s) m =>
      if String.eqb m "format" then ret (VStr (format s (map to_str pos)))
      else external site f pos kw
  | _ => external site f pos kw
  end.

Definition index (v k : value) : M value :=
  match v, k with
  | VDict kvs, VStr key =>
      match assoc key kvs with
      | Some x => ret x
      | None => raise (KeyError key)
      end
  | _, _ => ret (VProj v ("[" +:+ to_str k +:+ "]"))
  end.

Definition slice (v : value) (lo : nat) (hi : option nat) : M value :=
  match v with
  | VStr s =>
      let n := match hi with
               | Some h => Nat.min h (String.length s)
               | None => String.length s
               end in
      ret (VStr (String.substring lo (n - lo) s))
  | _ => raise (TypeError "slice")
  end.

Definition contains (x l : value) : M value :=
  match l with
  | VList vs => ret (VBool (existsb (value_eqb x) vs))
  | _ => raise (TypeError "in")
  end.

Definition add (a b : value) : M value :=
  match a, b with
  | VStr x, VStr y => ret (VStr (x +:+ y))
  | VInt x, VInt y => ret (VInt (x + y))
  | _, _ =>
      if opaque a || opaque b then ret (VProj a "__add__")
      else raise (TypeError "+")
  end.

Fixpoint eval (e : expr) (env : gmap string value) {struct e} : M value :=
  match e with
  | ENone => ret VNone
  | EBool b => ret (VBool b)
  | ENum n => ret (VInt n)
  | EStr s => ret (VStr s)
  | EName x =>
      match env !! x with
      | Some v => ret v
      | None => raise (NameError x)
      end
  | EAttr e' a => bind (eval e' env) (fun v => ret (get_attr v a))
  | EIndex e' k =>
      bind (eval e' env) (fun v => bind (eval k env) (fun i => index v i))
  | ESlice e' lo hi => bind (eval e' env) (fun v => slice v lo hi)
  | ECall f a =>
      bind (eval f env) (fun fv =>
      bind (eval_args a env) (fun pk => call (site_of f) fv (fst pk) (snd pk)))
  | EFStr parts =>
      bind (eval_args parts env) (fun pk =>
        ret (VStr (join_str "" (map to_str (fst pk)))))
  | EList items => bind (eval_args items env) (fun pk => ret (VList (fst pk)))
  | EDict items => bind (eval_args items env) (fun pk => ret (VDict (snd pk)))
  | EIn x l =>
      bind (eval x env) (fun xv => bind (eval l env) (fun lv => contains xv lv))
  | EAdd e1 e2 =>
      bind (eval e1 env) (fun a => bind (eval e2 env) (fun b => add a b))
  | EComp elt x iter =>
      bind (eval iter env) (fun it =>
        match it with
        | VList vs =>
            bind
              ((fix each (vs : list value) : M (list value) :=
                  match vs with
                  | [] => ret []
                  | v :: vs' =>
                      bind (eval elt (<[x := v]> env)) (fun r =>
                      bind (each vs') (fun rs => ret (r :: rs)))
                  end) vs)
              (fun rs => ret (VList rs))
        | _ =>
            if opaque it then ret (VProj it "__iter__")
            else raise (TypeError "iter")
        end)
  end
with eval_args (a : args) (env : gmap string value) {struct a}
  : M (list value * list (string * value)) :=
  match a with
  | ANil => ret ([], [])
  | APos e rest =>
      bind (eval e env) (fun v =>
      bind (eval_args rest env) (fun pk => ret (v :: fst pk, snd pk)))
  | AKw k e rest =>
      bind (eval e env) (fun v =>
      bind (eval_args rest env) (fun pk => ret (fst pk, (k, v) :: snd pk)))
  end.

Definition result : Type := list event * gmap string value * W * signal.

Definition import_all (prefix : string) (names : list string)
    (env : gmap string value) : gmap string value :=
  fold_left (fun m n => <[n := VExt (prefix +:+ n)]> m) names env.

Definition unbind (h : handler) (env : gmap string value) : gmap string value :=
  match h with
  | HExcept _ (Some x) => delete x env
  | _ => env
  end.

Definition bind_exn (h : handler) (e : exn) (env : gmap string value)
  : gmap string value :=
  match h with
  | HExcept _ (Some x) => <[x := VExc e]> env
  | _ => env
  end.

(** One statement; [loop] is what re-entering a [while] does. *)
Fixpoint exec_stmt (loop : stmt -> gmap string value -> W -> result)
    (s : stmt) (env : gmap string value) (w : W) : result :=
  match s with
  | SPass => ([], env, w, Normal)
  | SExpr e =>
      match eval e env w with
      | (t, w1, inl _) => (t, env, w1, Normal)
      | (t, w1, inr x) => (t, env, w1, Exc x)
      end
  | SAssign x e =>
      match eval e env w with
      | (t, w1, inl v) => (t, <[x := v]> env, w1, Normal)
      | (t, w1, inr x) => (t, env, w1, Exc x)
      end
  | SSetAttr x path e =>
      match eval e env w with
      | (t, w1, inl v) =>
          match env !! x with
          | Some o => (t, <[x := set_attr o path v]> env, w1, Normal)
          | None => (t, env, w1, Exc (NameError x))
          end
      | (t, w1, inr x) => (t, env, w1, Exc x)
      end
  | SImport mods => ([], import_all "" mods env, w, Normal)
  | SFromImport module names =>
      ([], import_all (module +:+ ".") names env, w, Normal)
  | SMagic line => ([EvShell line], env, w, Normal)
  | SSeq s1 s2 =>
      match exec_stmt loop s1 env w with
      | (t1, env1, w1, Normal) =>
          match exec_stmt loop s2 env1 w1 with
          | (t2, env2, w2, g) => (t1 ++ t2, env2, w2, g)
          end
      | r => r
      end
  | SIf c s1 s2 =>
      match eval c env w with
      | (t, w1, inl v) =>
          match exec_stmt loop (if truthy v then s1 else s2) env w1 with
          | (t2, env2, w2, g) => (t ++ t2, env2, w2, g)
          end
      | (t, w1, inr x) => (t, env, w1, Exc x)
      end
  | SWhile c body =>
      match eval c env w with
      | (t, w1, inl v) =>
          if truthy v then
            match exec_stmt loop body env w1 with
            | (t2, env2, w2, Normal) =>
                match loop (SWhile c body) env2 w2 with
                | (t3, env3, w3, g) => (t ++ t2 ++ t3, env3, w3, g)
                end
            | (t2, env2, w2, Break) => (t ++ t2, env2, w2, Normal)
            | (t2, env2, w2, g) => (t ++ t2, env2, w2, g)
            end
          else (t, env, w1, Normal)
      | (t, w1, inr x) => (t, env, w1, Exc x)
      end
  | STry body h hbody =>
      match exec_stmt loop body env w with
      | (t1, env1, w1, Exc x) =>
          if catches h x then
            match exec_stmt loop hbody (bind_exn h x env1) w1 with
            | (t2, env2, w2, g) => (t1 ++ t2, unbind h env2, w2, g)
            end
          else (t1, env1, w1, Exc x)
      | r => r
      end
  | SBreak => ([], env, w, Break)
  end.

(** [fuel] bounds the number of times a loop is re-entered; a loop that
    is cut off yields [Diverge]. *)
Fixpoint reenter (fuel : nat) (s : stmt) (env : gmap string value) (w : W)
  : result :=
  match fuel with
  | O => ([], env, w, Diverge)
  | S f => exec_stmt (reenter f) s env w
  end.

Definition exec (fuel : nat) (s : stmt) (env : gmap string value) (w : W)
  : result :=
  exec_stmt (reenter fuel) s env w.

(** A cell is compiled and run one top-level statement at a time; a
    statement the compiler rejects raises before it runs. *)
Fixpoint run_cell (fuel : nat) (c : cell) (env : gmap string value) (w : W)
  : result :=
  match c with
  | [] => ([], env, w, Normal)
  | s :: c' =>
      if break_outside_loop s
      then ([], env, w, Exc (SyntaxError "'break' outside loop"))
      else
        match exec fuel s env w with
        | (t1, env1, w1, Normal) =>
            match run_cell fuel c' env1 w1 with
            | (t2, env2, w2, g) => (t1 ++ t2, env2, w2, g)
            end
        | r => r
        end
  end.

(** Cells in notebook order.  With [halt] the run stops at the first
    cell that raises (Run All, papermill); without it every cell is
    evaluated in turn, as when the reader steps through the notebook.
    A cell that does not return stops both. *)
Fixpoint run_cells (halt : bool) (fuel : nat) (cs : list cell)
    (env : gmap string value) (w : W) : result :=
  match cs with
  | [] => ([], env, w, Normal)
  | c :: cs' =>
      match run_cell fuel c env w with
      | (t1, env1, w1, Diverge) => (t1, env1, w1, Diverge)
      | (t1, env1, w1, Exc x) =>
          if halt then (t1, env1, w1, Exc x)
          else
            match run_cells halt fuel cs' env1 w1 with
            | (t2, env2, w2, g) => (t1 ++ t2, env2, w2, g)
            end
      | (t1, env1, w1, _) =>
          match run_cells halt fuel cs' env1 w1 with
          | (t2, env2, w2, g) => (t1 ++ t2, env2, w2, g)
          end
      end
  end.

End Interp.

Arguments ret {W A} a w /.
Arguments raise {W A} e w /.
Arguments emit {W} ev w /.
Arguments bind {W A B} m k w /.
Arguments external {W} ext site f pos kw w /.
Arguments call {W} ext site f pos kw /.
Arguments index {W} v k /.
Arguments slice {W} v lo hi /.
Arguments contains {W} x l /.
Arguments add {W} a b /.

(** The trace of an expression's evaluation, and the parts of a result. *)
Definition tr_of {W A : Type} (x : list event * W * (A + exn)) : list event :=
  x.1.1.
Definition trace_of {W : Type} (r : @result W) : list event := r.1.1.1.
Definition env_of {W : Type} (r : @result W) : gmap string value := r.1.1.2.
Definition world_of {W : Type} (r : @result W) : W := r.1.2.
Definition signal_of {W : Type} (r : @result W) : signal := r.2.

(** The namespace of a fresh kernel: the builtins the notebooks use. *)
Definition fresh_env : gmap string value :=
  <["print" := VExt "print"]> (<["str" := VExt "str"]> ∅).

(** ** Writing cells *)

Fixpoint kwargs (kw : list (string * expr)) : args :=
  match kw with
  | [] => ANil
  | (k, e) :: kw' => AKw k e (kwargs kw')
  end.

Fixpoint posargs (pos : list expr) (rest : args) : args :=
  match pos with
  | [] => rest
  | e :: pos' => APos e (posargs pos' rest)
  end.

(** [f(pos..., k=v...)] *)
Definition ecall (f : expr) (pos : list expr) (kw : list (string * expr)) : expr :=
  ECall f (posargs pos (kwargs kw)).
Definition fstr (parts : list expr) : expr := EFStr (posargs parts ANil).
Definition elist (items : list expr) : expr := EList (posargs items ANil).
Definition edict (items : list (string * expr)) : expr := EDict (kwargs items).

Coercion EStr : string >-> expr.
Notation "& x" := (EName x) (at level 1, x at level 0, format "& x").
Infix "@@" := EAttr (at level 25, left associativity).
Notation "x ::= e" := (SAssign x e) (at level 60, no associativity).

(** An indented block: its statements in sequence. *)
Fixpoint block (l : list stmt) : stmt :=
  match l with
  | [] => SPass
  | [s] => s
  | s :: l' => SSeq s (block l')
  end.

Definition nl : string := String "010"%char "".

(** ** The fine-tuning notebook
    [text_generation_with_model_as_a_platform.ipynb], code cells in order *)

Module FineTuning.

(** [%pip install ...] *)
Definition cell_install : cell :=
  [ SMagic "pip install azure-ai-ml";
    SMagic "pip install azure-identity";
    SMagic "pip install mlflow";
    SMagic "pip install azureml-mlflow" ].

(** Create AzureML Workspace connections *)
Definition cell_connect : cell :=
  [ SFromImport "azure.ai.ml" ["MLClient"];
    SFromImport "azure.identity"
      ["DefaultAzureCredential"; "InteractiveBrowserCredential"];
    STry
      (block
         [ "credential" ::= ecall &"DefaultAzureCredential" [] [];
           SExpr (ecall (&"credential" @@ "get_token")
                    [EStr "https://management.azure.com/.default"] []) ])
      (HExcept "Exception" (Some "ex"))
      ("credential" ::= ecall &"InteractiveBrowserCredential" [] []);
    STry
      ("workspace_ml_client" ::=
         ecall (&"MLClient" @@ "from_config") [] [("credential", &"credential")])
      HBare
      ("workspace_ml_client" ::=
         ecall &"MLClient" [&"credential"]
           [ ("subscription_id", EStr "<SUBSCRIPTION_ID>");
             ("resource_group_name", EStr "<RESOURCE_GROUP>");
             ("workspace_name", EStr "<WORKSPACE_NAME>") ]);
    "registry_ml_client" ::=
      ecall &"MLClient" [&"credential"] [("registry_name", EStr "azureml-meta")];
    "workspace" ::=
      ecall (&"workspace_ml_client" @@ "_workspaces" @@ "get")
        [&"workspace_ml_client" @@ "workspace_name"] [];
    SExpr (&"workspace" @@ "id") ].

(** 2. Pick a model to fine tune *)
Definition cell_pick_model : cell :=
  [ "model_name" ::= EStr "Meta-Llama-3-8B";
    "model_to_finetune" ::=
      ecall (&"registry_ml_client" @@ "models" @@ "get")
        [&"model_name"] [("label", EStr "latest")];
    SExpr (ecall &"print"
      [ ecall (EStr (nl +:+ nl +:+
                 "Using model name: {0}, version: {1}, id: {2} for fine tuning")
               @@ "format")
          [ &"model_to_finetune" @@ "name";
            &"model_to_finetune" @@ "version";
            &"model_to_finetune" @@ "id" ] [] ] []) ].

Definition cell_finetune_sku : cell :=
  [ SExpr (EIndex (&"model_to_finetune" @@ "properties")
             (EStr "finetune-recommended-sku")) ].

(** The body and the handler of the training-data existence check. *)
Definition train_get : stmt :=
  block
    [ "train_data_asset" ::=
        ecall (&"workspace_ml_client" @@ "data" @@ "get")
          [&"train_dataset_name"] [("version", &"dataset_version")];
      SExpr (ecall &"print"
        [fstr [EStr "Dataset "; &"train_dataset_name"; EStr " already exists"]] []) ].

Definition train_create : stmt :=
  block
    [ SExpr (ecall &"print" [EStr "creating dataset"] []);
      "train_data" ::=
        ecall &"Data" []
          [ ("path", fstr [EStr "./train.jsonl"]);
            ("type", &"AssetTypes" @@ "URI_FILE");
            ("description", EStr "Training dataset");
            ("name", &"train_dataset_name");
            ("version", EStr "1") ];
      "train_data_asset" ::=
        ecall (&"workspace_ml_client" @@ "data" @@ "create_or_update")
          [&"train_data"] [] ].

(** Create data inputs: the training dataset *)
Definition cell_train_data : cell :=
  [ SFromImport "azure.ai.ml.constants" ["AssetTypes"];
    SFromImport "azure.ai.ml.entities" ["Data"];
    "dataset_version" ::= EStr "1";
    "train_dataset_name" ::= EStr "text_generation_train_small";
    STry train_get HBare train_create ].

Definition cell_train_id : cell := [ SExpr (&"train_data_asset" @@ "id") ].

Definition validation_get : stmt :=
  block
    [ "validation_data_asset" ::=
        ecall (&"workspace_ml_client" @@ "data" @@ "get")
          [&"validation_dataset_name"] [("version", &"dataset_version")];
      SExpr (ecall &"print"
        [fstr [EStr "Dataset "; &"validation_dataset_name";
               EStr " already exists"]] []) ].

Definition validation_create : stmt :=
  block
    [ SExpr (ecall &"print" [EStr "creating dataset"] []);
      "validation_data" ::=
        ecall &"Data" []
          [ ("path", fstr [EStr "./validation.jsonl"]);
            ("type", &"AssetTypes" @@ "URI_FILE");
            ("description", EStr "Validation dataset");
            ("name", &"validation_dataset_name");
            ("version", EStr "1") ];
      "validation_data_asset" ::=
        ecall (&"workspace_ml_client" @@ "data" @@ "create_or_update")
          [&"validation_data"] [] ].

(** The validation dataset *)
Definition cell_validation_data : cell :=
  [ SFromImport "azure.ai.ml.entities" ["Data"];
    "dataset_version" ::= EStr "1";
    "validation_dataset_name" ::= fstr [EStr "text_generation_validation_small"];
    STry validation_get HBare validation_create ].

Definition cell_validation_id : cell :=
  [ SExpr (&"validation_data_asset" @@ "id") ].

(** Define finetune parameters and build the job *)
Definition cell_build_job : cell :=
  [ SFromImport "azure.ai.ml.finetuning"
      ["FineTuningTaskType"; "create_finetuning_job"];
    SImport ["uuid"];
    "guid" ::= ecall (&"uuid" @@ "uuid4") [] [];
    "short_guid" ::= ESlice (ecall &"str" [&"guid"] []) 0 (Some 8);
    "display_name" ::=
      fstr [&"model_name"; EStr "-display-name-"; &"short_guid"];
    "name" ::= fstr [EStr "finetuned-model-"; &"short_guid"];
    "output_model_name_prefix" ::= fstr [EStr "finetuned-model-"; &"short_guid"];
    "experiment_name" ::= fstr [EStr "finetuning-llm"];
    "compute" ::= EStr "nc96-lowpri-eastus";
    "finetuning_job" ::=
      ecall &"create_finetuning_job" []
        [ ("task", &"FineTuningTaskType" @@ "TEXT_COMPLETION");
          ("training_data", &"train_data_asset" @@ "id");
          ("validation_data", &"validation_data_asset" @@ "id");
          ("hyperparameters",
            edict [ ("per_device_train_batch_size", EStr "1");
                    ("learning_rate", EStr "0.00002");
                    ("num_train_epochs", EStr "1") ]);
          ("model", &"model_to_finetune" @@ "id");
          ("display_name", &"display_name");
          ("name", &"name");
          ("experiment_name", &"experiment_name");
          ("instance_types",
            elist [EStr "Standard_ND96amsr_A100_v4"; EStr "Standard_E4s_v3"]);
          ("tags", edict [("foo_tag", EStr "bar")]);
          ("properties", edict [("my_property", EStr "my_value")]);
          ("output_model_name_prefix", &"output_model_name_prefix") ] ].

(** Submit the job *)
Definition cell_submit : cell :=
  [ "created_job" ::=
      ecall (&"workspace_ml_client" @@ "jobs" @@ "create_or_update")
        [&"finetuning_job"] [];
    SExpr (ecall (&"workspace_ml_client" @@ "jobs" @@ "get")
             [&"created_job" @@ "name"] []) ].

(** [workspace_ml_client.jobs.get(created_job.name).status] *)
Definition query_status : expr :=
  ecall (&"workspace_ml_client" @@ "jobs" @@ "get")
    [&"created_job" @@ "name"] [] @@ "status".

Definition terminal_statuses : expr :=
  elist [EStr "Failed"; EStr "Completed"; EStr "Canceled"].

Definition poll_body : stmt :=
  block
    [ "status" ::= query_status;
      SExpr (ecall &"print" [fstr [EStr "Current job status: "; &"status"]] []);
      SIf (EIn &"status" terminal_statuses)
        (block
           [ SExpr (ecall &"print"
               [ecall (EStr "Job has finished with status: {0}" @@ "format")
                  [&"status"] []] []);
             SBreak ])
        (block
           [ SExpr (ecall &"print"
               [EStr "Job is still running. Checking again in 30 seconds."] []);
             SExpr (ecall (&"time" @@ "sleep") [ENum 30] []) ]) ].

Definition poll_loop : stmt := SWhile (EBool true) poll_body.

(** Wait for the above job to complete successfully *)
Definition cell_poll : cell :=
  [ "status" ::= query_status;
    SImport ["time"];
    poll_loop ].

(** The failure check that follows the poll cell. *)
Definition failure_check : stmt :=
  SIf (EIn &"status" (elist [EStr "Failed"; EStr "Canceled"]))
    (block
       [ SExpr (ecall &"print"
           [ecall (EStr "Job did not finish successfully. So no model to deploy. JobStatus: {0}"
                   @@ "format") [&"status"] []] []);
         SBreak ])
    SPass.

Definition cell_failure_check : cell := [ failure_check ].

Definition cell_registered_output : cell :=
  [ "registered_model_output" ::=
      EIndex (&"created_job" @@ "outputs") (EStr "registered_model");
    SExpr &"registered_model_output" ].

Definition cell_registered_model : cell :=
  [ "registered_model" ::=
      ecall (&"workspace_ml_client" @@ "models" @@ "get") []
        [ ("name", &"registered_model_output" @@ "name");
          ("version", EStr "1") ] ].

Definition cell_show_model : cell := [ SExpr &"registered_model" ].

(** Create OnlineEndpoint *)
Definition cell_endpoint : cell :=
  [ SImport ["time"; "sys"; "re"];
    SFromImport "azure.ai.ml.entities"
      [ "ManagedOnlineEndpoint"; "ManagedOnlineDeployment";
        "ProbeSettings"; "OnlineRequestSettings" ];
    "sanitized_model_name_for_deployment" ::=
      ecall (&"re" @@ "sub")
        [EStr "[^a-zA-Z0-9-]"; EStr "-"; &"model_name"] [];
    "online_endpoint_name" ::=
      EAdd (fstr [&"sanitized_model_name_for_deployment"]) &"short_guid";
    "endpoint" ::=
      ecall &"ManagedOnlineEndpoint" []
        [ ("name", &"online_endpoint_name");
          ("description",
            EAdd (EAdd (EStr "Online endpoint for ")
                       (&"registered_model_output" @@ "name"))
                 (EStr ", fine tuned model for samsum textgen"));
          ("auth_mode", EStr "key") ];
    SExpr (ecall
             (ecall (&"workspace_ml_client" @@ "begin_create_or_update")
                [&"endpoint"] [] @@ "wait") [] []) ].

Definition cell_inference_sku : cell :=
  [ SExpr (EIndex (&"model_to_finetune" @@ "properties")
             (EStr "inference-recommended-sku")) ].

(** Create a deployment *)
Definition cell_deployment : cell :=
  [ "demo_deployment" ::=
      ecall &"ManagedOnlineDeployment" []
        [ ("name", EStr "demo");
          ("endpoint_name", &"online_endpoint_name");
          ("model", &"registered_model" @@ "id");
          ("instance_type", EStr "Standard_NC24ads_A100_v4");
          ("instance_count", ENum 1);
          ("liveness_probe",
            ecall &"ProbeSettings" [] [("initial_delay", ENum 600)]);
          ("request_settings",
            ecall &"OnlineRequestSettings" [] [("request_timeout_ms", ENum 90000)]) ];
    SExpr (ecall
             (ecall (&"workspace_ml_client" @@ "online_deployments"
                       @@ "begin_create_or_update")
                [&"demo_deployment"] [] @@ "wait") [] []);
    SSetAttr "endpoint" ["traffic"] (edict [("demo", ENum 100)]);
    SExpr (ecall
             (ecall (&"workspace_ml_client" @@ "begin_create_or_update")
                [&"endpoint"] [] @@ "result") [] []) ].

(** The request to the deployed endpoint *)
Definition cell_inference : cell :=
  [ SImport ["requests"];
    "url" ::= fstr [&"endpoint" @@ "scoring_uri"; EStr "/v1/completions"];
    "payload" ::=
      edict [ ("max_tokens", ENum 512);
              ("temperature", ENum 0);
              ("model", EStr "llama-2");
              ("prompt", EStr "The Seattle Seahawks") ];
    "headers" ::=
      edict [ ("Content-Type", EStr "application/json");
              ("Authorization", fstr [&"auth_key"]) ];
    "response" ::=
      ecall (&"requests" @@ "post") [&"url"]
        [("json", &"payload"); ("headers", &"headers")];
    SExpr (ecall (&"response" @@ "json") [] []) ].

(** The cells before the inference request, top to bottom. *)
Definition cells_before_inference : list cell :=
  [ cell_install; cell_connect; cell_pick_model; cell_finetune_sku;
    cell_train_data; cell_train_id; cell_validation_data; cell_validation_id;
    cell_build_job; cell_submit; cell_poll; cell_failure_check;
    cell_registered_output; cell_registered_model; cell_show_model;
    cell_endpoint; cell_inference_sku; cell_deployment ].

Definition notebook : list cell := cells_before_inference ++ [cell_inference].

End FineTuning.

(** ** The "Working with Data" notebook, code cells in order *)

Module WorkingWithData.

Definition cell_connect : cell :=
  [ SFromImport "azure.ai.ml" ["MLClient"];
    SFromImport "azure.identity" ["DefaultAzureCredential"];
    "subscription_id" ::= EStr "<SUBSCRIPTION_ID>";
    "resource_group" ::= EStr "<RESOURCE_GROUP>";
    "workspace" ::= EStr "<AML_WORKSPACE_NAME>";
    "ml_client" ::=
      ecall &"MLClient"
        [ (ecall &"DefaultAzureCredential" [] []);
          &"subscription_id";
          &"resource_group";
          &"workspace" ]
        [] ].

Definition cell_read_job : cell :=
  [ SFromImport "azure.ai.ml" ["command"];
    SFromImport "azure.ai.ml.entities" ["Data"];
    SFromImport "azure.ai.ml" ["Input"];
    SFromImport "azure.ai.ml.constants" ["AssetTypes"];
    "inputs" ::=
      edict
        [ ("input_data",
            (ecall &"Input"
              []
              [ ("type", (&"AssetTypes" @@ "URI_FILE"));
                ("path", (EStr "./sample_data/titanic.csv")) ])) ];
    "job" ::=
      ecall &"command"
        []
        [ ("code", (EStr "./src"));
          ("command",
            (EStr "python read_data.py --input_data ${{inputs.input_data}}"));
          ("inputs", &"inputs");
          ("environment",
            (EStr
              "azureml://registries/azureml/environments/sklearn-1.5/labels/latest"));
          ("compute", (EStr "cpu-cluster")) ];
    "returned_job" ::=
      ecall ((&"ml_client" @@ "jobs") @@ "create_or_update") [&"job"] [];
    SExpr (&"returned_job" @@ "studio_url") ].

Definition cell_read_write_job : cell :=
  [ SFromImport "azure.ai.ml" ["command"];
    SFromImport "azure.ai.ml.entities" ["Data"];
    SFromImport "azure.ai.ml" ["Input"; "Output"];
    SFromImport "azure.ai.ml.constants" ["AssetTypes"];
    "inputs" ::=
      edict
        [ ("input_data",
            (ecall &"Input"
              []
              [ ("type", (&"AssetTypes" @@ "URI_FILE"));
                ("path", (EStr "./sample_data/titanic.csv")) ])) ];
    "outputs" ::=
      edict
        [ ("output_folder",
            (ecall &"Output"
              []
              [ ("type", (&"AssetTypes" @@ "URI_FOLDER"));
                ("path",
                  (fstr
                    [ EStr "azureml://subscriptions/";
                      &"subscription_id";
                      EStr "/resourcegroups/";
                      &"resource_group";
                      EStr "/workspaces/";
                      &"workspace";
                      EStr "/datastores/workspaceblobstore/paths/" ])) ])) ];
    "job" ::=
      ecall &"command"
        []
        [ ("code", (EStr "./src"));
          ("command",
            (EStr
              "python read_write_data.py --input_data ${{inputs.input_data}} --output_folder ${{outputs.output_folder}}"));
          ("inputs", &"inputs");
          ("outputs", &"outputs");
          ("environment",
            (EStr
              "azureml://registries/azureml/environments/sklearn-1.5/labels/latest"));
          ("compute", (EStr "cpu-cluster")) ];
    "returned_job" ::= ecall (&"ml_client" @@ "create_or_update") [&"job"] [];
    SExpr (&"returned_job" @@ "studio_url") ].

Definition titanic_get : stmt :=
  block
    [ "registered_data_asset" ::=
        ecall (&"ml_client" @@ "data" @@ "get") []
          [("name", EStr "titanic"); ("version", EStr "1")];
      SExpr (ecall &"print" [EStr "Found data asset. Will not create again"] []) ].

Definition titanic_create : stmt :=
  block
    [ "my_data" ::=
        ecall &"Data" []
          [ ("path", EStr "./sample_data/titanic.csv");
            ("type", &"AssetTypes" @@ "URI_FILE");
            ("description", EStr "Titanic Data");
            ("name", EStr "titanic");
            ("version", EStr "1") ];
      SExpr (ecall (&"ml_client" @@ "data" @@ "create_or_update") [&"my_data"] []);
      "registered_data_asset" ::=
        ecall (&"ml_client" @@ "data" @@ "get") []
          [("name", EStr "titanic"); ("version", EStr "1")];
      SExpr (ecall &"print" [EStr "Created data asset"] []) ].

(** Create Data Assets *)
Definition cell_titanic : cell :=
  [ SFromImport "azure.ai.ml.entities" ["Data"];
    SFromImport "azure.ai.ml.constants" ["AssetTypes"];
    STry titanic_get (HExcept "Exception" (Some "ex")) titanic_create ].

Definition cell_user_identity_job : cell :=
  [ SFromImport "azure.ai.ml" ["UserIdentityConfiguration"];
    "my_job_inputs" ::=
      edict
        [ ("input_data",
            (ecall &"Input"
              []
              [ ("type", (&"AssetTypes" @@ "MLTABLE"));
                ("path", (EStr "./sample_data")) ])) ];
    "job" ::=
      ecall &"command"
        []
        [ ("code", (EStr "./src"));
          ("command",
            (EStr "python read_data.py --input_data ${{inputs.input_data}}"));
          ("inputs", &"my_job_inputs");
          ("environment",
            (EStr
              "azureml://registries/azureml/environments/sklearn-1.5/labels/latest"));
          ("compute", (EStr "cpu-cluster"));
          ("identity", (ecall &"UserIdentityConfiguration" [] [])) ] ].

Definition cell_show_mltable : cell :=
  [SMagic "cat ./sample-mltable/MLTable"].

Definition cell_load_mltable : cell :=
  [ SImport ["mltable"];
    "tbl" ::= ecall (&"mltable" @@ "load") [] [("uri", (EStr "./sample-mltable"))];
    SExpr (ecall (&"tbl" @@ "to_pandas_dataframe") [] []) ].

Definition cell_snowflake_connection : cell :=
  [ SFromImport "azure.ai.ml" ["MLClient"];
    SFromImport "azure.ai.ml.entities" ["WorkspaceConnection"];
    SFromImport "azure.ai.ml.entities" ["UsernamePasswordConfiguration"];
    "name" ::= EStr "my_snowflakedb_connection";
    "target" ::=
      EStr
        "jdbc:snowflake://<myaccount>.snowflakecomputing.com/?db=<mydb>&warehouse=<mywarehouse>&role=<myrole>";
    "wps_connection" ::=
      ecall &"WorkspaceConnection"
        []
        [ ("name", &"name");
          ("type", (EStr "snowflake"));
          ("target", &"target");
          ("credentials",
            (ecall &"UsernamePasswordConfiguration"
              []
              [("username", (EStr "XXXXX")); ("password", (EStr "XXXXXX"))])) ];
    SExpr
      (ecall ((&"ml_client" @@ "connections") @@ "create_or_update")
        []
        [("workspace_connection", &"wps_connection")]) ].

Definition cell_sqldb_connection : cell :=
  [ SFromImport "azure.ai.ml" ["MLClient"];
    SFromImport "azure.ai.ml.entities" ["WorkspaceConnection"];
    SFromImport "azure.ai.ml.entities" ["UsernamePasswordConfiguration"];
    "name" ::= EStr "my_sqldb_connection";
    "target" ::=
      EStr
        "Server=tcp:<myservername>,<port>;Database=<mydatabase>;Trusted_Connection=False;Encrypt=True;Connection Timeout=30";
    "wps_connection" ::=
      ecall &"WorkspaceConnection"
        []
        [ ("name", &"name");
          ("type", (EStr "azure_sql_db"));
          ("target", &"target");
          ("credentials",
            (ecall &"UsernamePasswordConfiguration"
              []
              [("username", (EStr "XXXXX")); ("password", (EStr "XXXXXX"))])) ];
    SExpr
      (ecall ((&"ml_client" @@ "connections") @@ "create_or_update")
        []
        [("workspace_connection", &"wps_connection")]) ].

Definition cell_s3_connection : cell :=
  [ SFromImport "azure.ai.ml" ["MLClient"];
    SFromImport "azure.ai.ml.entities" ["WorkspaceConnection"];
    SFromImport "azure.ai.ml.entities" ["AccessKeyConfiguration"];
    "name" ::= EStr "my_s3_connection";
    "target" ::= EStr "<mybucket>";
    "wps_connection" ::=
      ecall &"WorkspaceConnection"
        []
        [ ("name", &"name");
          ("type", (EStr "s3"));
          ("target", &"target");
          ("credentials",
            (ecall &"AccessKeyConfiguration"
              []
              [ ("access_key_id", (EStr "XXXXXX"));
                ("secret_access_key", (EStr "XXXXXXXX")) ])) ];
    SExpr
      (ecall ((&"ml_client" @@ "connections") @@ "create_or_update")
        []
        [("workspace_connection", &"wps_connection")]) ].

Definition cell_import_snowflake : cell :=
  [ SFromImport "azure.ai.ml.entities" ["DataImport"];
    SFromImport "azure.ai.ml.data_transfer" ["Database"];
    SFromImport "azure.ai.ml" ["MLClient"];
    "data_import" ::=
      ecall &"DataImport"
        []
        [ ("name", (EStr "snowflake_sample"));
          ("source",
            (ecall &"Database"
              []
              [ ("connection", (EStr "azureml:my_snowflakedb_connection"));
                ("query", (EStr "select * from my_sample_table")) ]));
          ("path",
            (EStr
              "azureml://datastores/workspaceblobstore/paths/snowflake/${{name}}")) ];
    SExpr
      (ecall ((&"ml_client" @@ "data") @@ "import_data")
        []
        [("data_import", &"data_import")]) ].

Definition cell_import_sqldb : cell :=
  [ SFromImport "azure.ai.ml.entities" ["DataImport"];
    SFromImport "azure.ai.ml.data_transfer" ["Database"];
    SFromImport "azure.ai.ml" ["MLClient"];
    "data_import" ::=
      ecall &"DataImport"
        []
        [ ("name", (EStr "azuresql_sample"));
          ("source",
            (ecall &"Database"
              []
              [ ("connection", (EStr "azureml:my_sqldb_connection"));
                ("query", (EStr "select * from my_table")) ]));
          ("path",
            (EStr "azureml://datastores/workspaceblobstore/paths/azuresql/${{name}}")) ];
    SExpr
      (ecall ((&"ml_client" @@ "data") @@ "import_data")
        []
        [("data_import", &"data_import")]) ].

Definition cell_import_s3 : cell :=
  [ SFromImport "azure.ai.ml.entities" ["DataImport"];
    SFromImport "azure.ai.ml.data_transfer" ["FileSystem"];
    SFromImport "azure.ai.ml" ["MLClient"];
    "data_import" ::=
      ecall &"DataImport"
        []
        [ ("name", (EStr "s3_sample"));
          ("source",
            (ecall &"FileSystem"
              []
              [ ("connection", (EStr "azureml:my_s3_connection"));
                ("path", (EStr "myfiles/titanic.csv")) ]));
          ("path",
            (EStr "azureml://datastores/workspaceblobstore/paths/s3/${{name}}")) ];
    SExpr
      (ecall ((&"ml_client" @@ "data") @@ "import_data")
        []
        [("data_import", &"data_import")]) ].

Definition cell_schedule_recurrence : cell :=
  [ SFromImport "azure.ai.ml.data_transfer" ["Database"];
    SFromImport "azure.ai.ml.constants" ["TimeZone"];
    SFromImport "azure.ai.ml.entities"
      ["ImportDataSchedule"; "RecurrenceTrigger"; "RecurrencePattern"];
    SFromImport "datetime" ["datetime"; "timedelta"];
    "source" ::=
      ecall &"Database"
        []
        [ ("connection", (EStr "azureml:my_sf_connection"));
          ("query", (EStr "select * from my_table")) ];
    "path" ::=
      EStr
        "azureml://datastores/workspaceblobstore/paths/snowflake/schedule/${{name}}";
    "my_data" ::=
      ecall &"DataImport"
        []
        [ ("type", (EStr "mltable"));
          ("source", &"source");
          ("path", &"path");
          ("name", (EStr "my_schedule_sfds_test")) ];
    "schedule_name" ::= EStr "my_simple_sdk_create_schedule_recurrence";
    "schedule_start_time" ::= ecall (&"datetime" @@ "utcnow") [] [];
    "recurrence_trigger" ::=
      ecall &"RecurrenceTrigger"
        []
        [ ("frequency", (EStr "day"));
          ("interval", (ENum 1));
          ("schedule",
            (ecall &"RecurrencePattern"
              []
              [("hours", (ENum 1)); ("minutes", (elist [(ENum 0); (ENum 1)]))]));
          ("start_time", &"schedule_start_time");
          ("time_zone", (&"TimeZone" @@ "UTC")) ];
    "import_schedule" ::=
      ecall &"ImportDataSchedule"
        []
        [ ("name", &"schedule_name");
          ("trigger", &"recurrence_trigger");
          ("import_data", &"my_data") ];
    SExpr
      (ecall
        ((ecall ((&"ml_client" @@ "schedules") @@ "begin_create_or_update")
           [&"import_schedule"]
           []) @@
          "result")
        []
        []) ].

Definition cell_schedule_cron : cell :=
  [ SFromImport "azure.ai.ml.entities" ["CronTrigger"; "ImportDataSchedule"];
    "source" ::=
      ecall &"Database"
        []
        [ ("connection", (EStr "azureml:my_sf_connection"));
          ("query", (EStr "select * from my_table")) ];
    "path" ::=
      EStr
        "azureml://datastores/workspaceblobstore/paths/snowflake/schedule/${{name}}";
    "my_data" ::=
      ecall &"DataImport"
        []
        [ ("type", (EStr "mltable"));
          ("source", &"source");
          ("path", &"path");
          ("name", (EStr "my_schedule_sfds_test")) ];
    "schedule_name" ::= EStr "my_simple_sdk_create_schedule_cron";
    "start_time" ::= ecall (&"datetime" @@ "utcnow") [] [];
    "end_time" ::= EAdd &"start_time" (ecall &"timedelta" [] [("days", (ENum 7))]);
    "cron_trigger" ::=
      ecall &"CronTrigger"
        []
        [ ("expression", (EStr "15 10 * * 1"));
          ("start_time", &"start_time");
          ("end_time", &"end_time") ];
    "import_schedule" ::=
      ecall &"ImportDataSchedule"
        []
        [ ("name", &"schedule_name");
          ("trigger", &"cron_trigger");
          ("import_data", &"my_data") ];
    SExpr
      (ecall
        ((ecall ((&"ml_client" @@ "schedules") @@ "begin_create_or_update")
           [&"import_schedule"]
           []) @@
          "result")
        []
        []) ].

Definition cell_disable_schedule : cell :=
  [ SExpr
      (ecall
        ((ecall ((&"ml_client" @@ "schedules") @@ "begin_disable")
           []
           [("name", &"schedule_name")]) @@
          "result")
        []
        []) ].

Definition cell_get_schedule : cell :=
  [ "created_schedule" ::=
      ecall ((&"ml_client" @@ "schedules") @@ "get") [] [("name", &"schedule_name")];
    SExpr (elist [(&"created_schedule" @@ "name")]) ].

Definition cell_list_schedules : cell :=
  [ "schedules" ::= ecall ((&"ml_client" @@ "schedules") @@ "list") [] [];
    SExpr (EComp (&"s" @@ "name") "s" &"schedules") ].

Definition cell_enable_schedule : cell :=
  [ SExpr
      (ecall
        ((ecall ((&"ml_client" @@ "schedules") @@ "begin_enable")
           []
           [("name", &"schedule_name")]) @@
          "result")
        []
        []) ].

Definition cell_update_schedule : cell :=
  [ SSetAttr "import_schedule" ["trigger"; "expression"] (EStr "10 10 * * 1");
    "import_schedule" ::=
      ecall
        ((ecall ((&"ml_client" @@ "schedules") @@ "begin_create_or_update")
           []
           [("schedule", &"import_schedule")]) @@
          "result")
        []
        [];
    SExpr (ecall &"print" [&"import_schedule"] []) ].

Definition cell_delete_schedule : cell :=
  [ SExpr
      (ecall
        ((ecall ((&"ml_client" @@ "schedules") @@ "begin_disable")
           []
           [("name", &"schedule_name")]) @@
          "result")
        []
        []);
    SExpr
      (ecall
        ((ecall ((&"ml_client" @@ "schedules") @@ "begin_delete")
           []
           [("name", &"schedule_name")]) @@
          "result")
        []
        []) ].

Definition cell_import_managed : cell :=
  [ SFromImport "azure.ai.ml.entities" ["DataImport"];
    SFromImport "azure.ai.ml.data_transfer" ["Database"];
    SFromImport "azure.ai.ml" ["MLClient"];
    "data_import" ::=
      ecall &"DataImport"
        []
        [ ("name", (EStr "my_sf_managedasset"));
          ("source",
            (ecall &"Database"
              []
              [ ("connection", (EStr "azureml:my_snowflakedb_connection"));
                ("query", (EStr "select * from my_sample_table")) ]));
          ("path", (EStr "azureml://datastores/workspacemanageddatastore")) ];
    SExpr
      (ecall ((&"ml_client" @@ "data") @@ "import_data")
        []
        [("data_import", &"data_import")]) ].

Definition cell_asset_job : cell :=
  [ SFromImport "azure.ai.ml" ["command"; "Input"; "Output"];
    SFromImport "azure.ai.ml.entities" ["Data"];
    SFromImport "azure.ai.ml.constants" ["AssetTypes"];
    "registered_data_asset" ::=
      ecall ((&"ml_client" @@ "data") @@ "get")
        []
        [("name", (EStr "titanic")); ("version", (EStr "1"))];
    "my_job_inputs" ::=
      edict
        [ ("input_data",
            (ecall &"Input"
              []
              [ ("type", (&"AssetTypes" @@ "URI_FILE"));
                ("path", (&"registered_data_asset" @@ "id")) ])) ];
    "job" ::=
      ecall &"command"
        []
        [ ("code", (EStr "./src"));
          ("command",
            (EStr "python read_data.py --input_data ${{inputs.input_data}}"));
          ("inputs", &"my_job_inputs");
          ("environment",
            (EStr
              "azureml://registries/azureml/environments/sklearn-1.5/labels/latest"));
          ("compute", (EStr "cpu-cluster")) ];
    "returned_job" ::= ecall (&"ml_client" @@ "create_or_update") [&"job"] [];
    SExpr (&"returned_job" @@ "studio_url") ].

Definition cell_environment : cell :=
  [ SFromImport "azure.ai.ml.entities" ["Environment"];
    "env_docker_conda" ::=
      ecall &"Environment"
        []
        [ ("image", (EStr "mcr.microsoft.com/azureml/openmpi4.1.0-ubuntu20.04"));
          ("conda_file", (EStr "env-mltable.yml"));
          ("name", (EStr "mltable"));
          ("description", (EStr "Environment created for consuming MLTable.")) ];
    SExpr
      (ecall ((&"ml_client" @@ "environments") @@ "create_or_update")
        [&"env_docker_conda"]
        []) ].

Definition cell_mltable_job : cell :=
  [ SFromImport "azure.ai.ml" ["command"];
    SFromImport "azure.ai.ml.entities" ["Data"];
    SFromImport "azure.ai.ml" ["Input"];
    SFromImport "azure.ai.ml.constants" ["AssetTypes"];
    "inputs" ::=
      edict
        [ ("input_data",
            (ecall &"Input"
              []
              [ ("type", (&"AssetTypes" @@ "MLTABLE"));
                ("path", (EStr "./sample-mltable")) ])) ];
    "job" ::=
      ecall &"command"
        []
        [ ("code", (EStr "./src"));
          ("command",
            (EStr "python read_mltable.py --input_data ${{inputs.input_data}}"));
          ("inputs", &"inputs");
          ("environment", &"env_docker_conda");
          ("compute", (EStr "cpu-cluster")) ];
    "returned_job" ::=
      ecall ((&"ml_client" @@ "jobs") @@ "create_or_update") [&"job"] [];
    SExpr (&"returned_job" @@ "studio_url") ].

(** The code cells, top to bottom. *)
Definition notebook : list cell :=
  [ cell_connect;
    cell_read_job;
    cell_read_write_job;
    cell_titanic;
    cell_user_identity_job;
    cell_show_mltable;
    cell_load_mltable;
    cell_snowflake_connection;
    cell_sqldb_connection;
    cell_s3_connection;
    cell_import_snowflake;
    cell_import_sqldb;
    cell_import_s3;
    cell_schedule_recurrence;
    cell_schedule_cron;
    cell_disable_schedule;
    cell_get_schedule;
    cell_list_schedules;
    cell_enable_schedule;
    cell_update_schedule;
    cell_delete_schedule;
    cell_import_managed;
    cell_asset_job;
    cell_environment;
    cell_mltable_job ].

End WorkingWithData.

(** ** The external platform *)

Module Platform.

(** Modelled from the spec: the cloud platform behind the SDK, which is
    not part of the repository.  A data asset is "a named, versioned
    reference to a dataset stored by the external platform"; "get
    operations on a named asset raise when absent"; a job reports a
    status string at each query.  Beyond that any call may fail for
    reasons of its own (authentication, network): [faults] lists, for
    the successive external calls, the exception class to raise, if
    any. *)
Record state : Type := {
  assets : gmap (string * string) (list (string * value));
  faults : list (option string);
  job_status : nat -> string;
  polls : nat
}.

Definition asset (n v : string) (fs : list (string * value)) : value :=
  VObj "Data"
    (assoc_set "id" (VStr ("azureml:" +:+ n +:+ ":" +:+ v))
       (assoc_set "name" (VStr n) (assoc_set "version" (VStr v) fs))).

Definition arg (i : nat) (k : string) (pos : list value)
    (kw : list (string * value)) : option value :=
  match nth_error pos i with
  | Some v => Some v
  | None => assoc k kw
  end.

Definition data_get (p : state) (pos : list value) (kw : list (string * value))
  : reply * state :=
  match arg 0 "name" pos kw, arg 1 "version" pos kw with
  | Some (VStr n), Some (VStr v) =>
      match assets p !! (n, v) with
      | Some fs => (Ret (asset n v fs), p)
      | None => (Raise "ResourceNotFoundError", p)
      end
  | _, _ => (Raise "ValidationException", p)
  end.

Definition data_create_or_update (p : state) (pos : list value)
    (kw : list (string * value)) : reply * state :=
  match arg 0 "data" pos kw with
  | Some (VObj _ fs) =>
      match assoc "name" fs, assoc "version" fs with
      | Some (VStr n), Some (VStr v) =>
          (Ret (asset n v fs),
           {| assets := <[(n, v) := fs]> (assets p); faults := faults p;
              job_status := job_status p; polls := polls p |})
      | _, _ => (Raise "ValidationException", p)
      end
  | _ => (Raise "ValidationException", p)
  end.

(** The state after one more status query. *)
Definition tick (p : state) : state :=
  {| assets := assets p; faults := faults p;
     job_status := job_status p; polls := S (polls p) |}.

Definition job (status : string) : value := VObj "Job" [("status", VStr status)].

Definition jobs_get (p : state) : reply * state :=
  (Ret (job (job_status p (polls p))), tick p).

(** What every other call returns: an object of which nothing is known. *)
Definition handle : value := VObj "object" [].

Definition serve (p : state) (f : value) (pos : list value)
    (kw : list (string * value)) : reply * state :=
  match f with
  | VProj (VProj _ grp) op =>
      if String.eqb grp "data" && String.eqb op "get" then data_get p pos kw
      else if String.eqb grp "data" && String.eqb op "create_or_update"
      then data_create_or_update p pos kw
      else if String.eqb grp "jobs" && String.eqb op "get" then jobs_get p
      else (Ret handle, p)
  | _ => (Ret handle, p)
  end.

(** The fault, if any, that the next call runs into. *)
Definition pop (p : state) : option string * state :=
  match faults p with
  | [] => (None, p)
  | f :: fs =>
      (f, {| assets := assets p; faults := fs;
             job_status := job_status p; polls := polls p |})
  end.

Definition ext (p : state) (f : value) (pos : list value)
    (kw : list (string * value)) : reply * state :=
  match pop p with
  | (Some cls, p') => (Raise cls, p')
  | (None, p') => serve p' f pos kw
  end.

(** A platform with no assets on which no call fails. *)
Definition quiet (status : nat -> string) : state :=
  {| assets := ∅; faults := []; job_status := status; polls := 0 |}.

End Platform.


(** ** The status poll loop: what one expects to observe *)

Module Poll.

Definition is_terminal (s : string) : bool :=
  existsb (String.eqb s) ["Failed"; "Completed"; "Canceled"].

(** The namespace the poll cell needs: the client, the submitted job,
    and the two library names it calls. *)
Record ready (env : gmap string value) (job : value) : Prop := {
  ready_client : env !! "workspace_ml_client" = Some Platform.handle;
  ready_job : env !! "created_job" = Some job;
  ready_print : env !! "print" = Some (VExt "print");
  ready_time : env !! "time" = Some (VExt "time")
}.

(** One status query answered with [s]. *)
Definition query (job : value) (s : string) : event :=
  EvCall "workspace_ml_client.jobs.get"
    (VProj (VProj Platform.handle "jobs") "get")
    [get_attr job "name"] [] (Ret (Platform.job s)).

(** One status query that failed with an exception of class [cls]. *)
Definition failed_query (job : value) (cls : string) : event :=
  EvCall "workspace_ml_client.jobs.get"
    (VProj (VProj Platform.handle "jobs") "get")
    [get_attr job "name"] [] (Raise cls).

(** The events of an iteration that saw a non-terminal status ... *)
Definition running_iteration (job : value) (s : string) : list event :=
  [ query job s;
    EvPrint ("Current job status: " +:+ s);
    EvPrint "Job is still running. Checking again in 30 seconds.";
    EvSleep 30 ].

(** ... and of the one that saw a terminal status. *)
Definition final_iteration (job : value) (s : string) : list event :=
  [ query job s;
    EvPrint ("Current job status: " +:+ s);
    EvPrint ("Job has finished with status: " +:+ s) ].

(** [n] iterations on the statuses [status k], [status (k+1)], ... *)
Fixpoint running_iterations (job : value) (status : nat -> string)
    (k n : nat) : list event :=
  match n with
  | O => []
  | S n' => running_iteration job (status k)
              ++ running_iterations job status (S k) n'
  end.

(** The first terminal status among [status k .. status (k + fuel)], as
    an offset from [k]. *)
Fixpoint find_terminal (status : nat -> string) (k fuel : nat) : option nat :=
  if is_terminal (status k) then Some O
  else match fuel with
       | O => None
       | S f => S <$> find_terminal status (S k) f
       end.

Definition after (p : Platform.state) (n : nat) : Platform.state :=
  {| Platform.assets := Platform.assets p;
     Platform.faults := Platform.faults p;
     Platform.job_status := Platform.job_status p;
     Platform.polls := Platform.polls p + n |}.

(** The loop as a function of the statuses the platform will report. *)
Definition expected (fuel : nat) (env : gmap string value)
    (p : Platform.state) (job : value) : @result Platform.state :=
  let status := Platform.job_status p in
  let k := Platform.polls p in
  match find_terminal status k fuel with
  | Some n =>
      (running_iterations job status k n ++ final_iteration job (status (k + n)),
       <["status" := VStr (status (k + n))]> env,
       after p (S n), Normal)
  | None =>
      (running_iterations job status k (S fuel),
       <["status" := VStr (status (k + fuel))]> env,
       after p (S fuel), Diverge)
  end.

(** A namespace and a platform to run the loop in: the job reports
    "Running" twice and then "Completed". *)
Definition sample_env : gmap string value :=
  <["workspace_ml_client" := Platform.handle]>
    (<["created_job" := Platform.handle]>
       (<["time" := VExt "time"]> fresh_env)).

Definition sample_status (n : nat) : string :=
  if (n <? 2)%nat then "Running" else "Completed".

Definition never_done (n : nat) : string := "Running".

End Poll.

(** ** The data asset existence checks *)

Module Existence.

(** One "does this asset already exist?" cell: the client it asks, the
    variable it binds, and the asset it is about. *)
Record check : Type := {
  chk_cell : cell;
  chk_client : string;
  chk_var : string;
  chk_name : string;
  chk_version : string;
  chk_get_pos : list value;
  chk_get_kw : list (string * value);
  chk_uses : list string
}.

Definition titanic : check :=
  {| chk_cell := WorkingWithData.cell_titanic;
     chk_client := "ml_client";
     chk_var := "registered_data_asset";
     chk_name := "titanic";
     chk_version := "1";
     chk_get_pos := [];
     chk_get_kw := [("name", VStr "titanic"); ("version", VStr "1")];
     chk_uses := [] |}.

Definition train : check :=
  {| chk_cell := FineTuning.cell_train_data;
     chk_client := "workspace_ml_client";
     chk_var := "train_data_asset";
     chk_name := "text_generation_train_small";
     chk_version := "1";
     chk_get_pos := [VStr "text_generation_train_small"];
     chk_get_kw := [("version", VStr "1")];
     chk_uses := [] |}.

Definition validation : check :=
  {| chk_cell := FineTuning.cell_validation_data;
     chk_client := "workspace_ml_client";
     chk_var := "validation_data_asset";
     chk_name := "text_generation_validation_small";
     chk_version := "1";
     chk_get_pos := [VStr "text_generation_validation_small"];
     chk_get_kw := [("version", VStr "1")];
     chk_uses := ["AssetTypes"] |}.

Definition checks : list check := [titanic; train; validation].

(** What the cell needs in the namespace before it runs. *)
Definition prepared (c : check) (env : gmap string value) : Prop :=
  env !! chk_client c = Some Platform.handle /\
  env !! "print" = Some (VExt "print") /\
  forall x, In x (chk_uses c) -> is_Some (env !! x).

(** The get on the asset of the check, and a create of a data object. *)
Definition get_event (c : check) (r : reply) : event :=
  EvCall (chk_client c +:+ ".data.get")
    (VProj (VProj Platform.handle "data") "get")
    (chk_get_pos c) (chk_get_kw c) r.

Definition create_event (c : check) (d : value) (r : reply) : event :=
  EvCall (chk_client c +:+ ".data.create_or_update")
    (VProj (VProj Platform.handle "data") "create_or_update") [d] [] r.

Definition is_create (ev : event) : bool :=
  match ev with
  | EvCall _ (VProj _ op) _ _ _ => String.eqb op "create_or_update"
  | _ => false
  end.

(** [v] carries the name and version of the check. *)
Definition names (c : check) (v : value) : Prop :=
  get_attr v "name" = VStr (chk_name c) /\
  get_attr v "version" = VStr (chk_version c).

Definition sample_env : gmap string value :=
  <["ml_client" := Platform.handle]>
    (<["workspace_ml_client" := Platform.handle]>
       (<["AssetTypes" := VExt "azure.ai.ml.constants.AssetTypes"]> fresh_env)).

(** A platform that holds the training dataset already, and whose next
    call fails to authenticate. *)
Definition present_but_unreachable : Platform.state :=
  {| Platform.assets :=
       {[ ("text_generation_train_small", "1") := [("path", VStr "./train.jsonl")] ]};
     Platform.faults := [Some "ClientAuthenticationError"];
     Platform.job_status := fun _ => "NotStarted";
     Platform.polls := 0 |}.

(** The namespace of the training-data cell when its [try] starts. *)
Definition train_env : gmap string value :=
  <["train_dataset_name" := VStr "text_generation_train_small"]>
    (<["dataset_version" := VStr "1"]>
       (<["Data" := VExt "azure.ai.ml.entities.Data"]> sample_env)).

(** The [try] statement of a cell, if it has one at top level. *)
Fixpoint try_of (c : cell) : option (stmt * handler * stmt) :=
  match c with
  | [] => None
  | STry body h hbody :: _ => Some (body, h, hbody)
  | _ :: c' => try_of c'
  end.

End Existence.

(** ** Static views of the code *)

(** The names a statement can bind. *)
Fixpoint assigned (s : stmt) : list string :=
  match s with
  | SAssign x _ => [x]
  | SSetAttr x _ _ => [x]
  | SImport mods => mods
  | SFromImport _ names => names
  | SSeq a b => assigned a ++ assigned b
  | SIf _ a b => assigned a ++ assigned b
  | SWhile _ b => assigned b
  | STry a h b =>
      assigned a ++ assigned b ++
      match h with
      | HExcept _ (Some x) => [x]
      | _ => []
      end
  | _ => []
  end.

Definition assigned_cell (c : cell) : list string := flat_map assigned c.

(** An event that is a call to the site [site]. *)
Definition calls_site (site : string) (ev : event) : bool :=
  match ev with
  | EvCall s _ _ _ _ => String.eqb s site
  | _ => false
  end.

(** [loop] leaves the name [x] alone in every statement that does not
    assign it. *)
Definition keeps {W : Type} (x : string)
    (loop : stmt -> gmap string value -> W -> @result W) : Prop :=
  forall s env w, ~ In x (assigned s) -> env_of (loop s env w) !! x = env !! x.

(** No cell of [cs] can bind [x]. *)
Definition never_assigned (x : string) (cs : list cell) : bool :=
  forallb (fun c => negb (existsb (String.eqb x) (assigned_cell c))) cs.

(** ** Stages of the fine-tuning notebook *)

Module Stages.

Inductive stage : Type :=
| Connect        (* authenticate, obtain the clients *)
| Prepare        (* pick the model, register the datasets *)
| BuildSpec      (* build the fine-tuning job specification *)
| Submit         (* submit the job *)
| PollStatus     (* query the job status *)
| Deploy         (* retrieve the registered model, create endpoint and deployment *)
| Infer.         (* call the deployed endpoint *)

Definition rank (s : stage) : nat :=
  match s with
  | Connect => 0
  | Prepare => 1
  | BuildSpec => 2
  | Submit => 3
  | PollStatus => 4
  | Deploy => 5
  | Infer => 6
  end.

(** The stage of a call, by the callee as the notebook writes it. *)
Definition site_stages : list (string * stage) :=
  [ ("DefaultAzureCredential", Connect);
    ("credential.get_token", Connect);
    ("InteractiveBrowserCredential", Connect);
    ("MLClient.from_config", Connect);
    ("MLClient", Connect);
    ("workspace_ml_client._workspaces.get", Connect);
    ("registry_ml_client.models.get", Prepare);
    ("workspace_ml_client.data.get", Prepare);
    ("workspace_ml_client.data.create_or_update", Prepare);
    ("create_finetuning_job", BuildSpec);
    ("workspace_ml_client.jobs.create_or_update", Submit);
    ("workspace_ml_client.jobs.get", PollStatus);
    ("workspace_ml_client.models.get", Deploy);
    ("workspace_ml_client.begin_create_or_update", Deploy);
    ("workspace_ml_client.begin_create_or_update().wait", Deploy);
    ("workspace_ml_client.online_deployments.begin_create_or_update", Deploy);
    ("workspace_ml_client.online_deployments.begin_create_or_update().wait", Deploy);
    ("workspace_ml_client.begin_create_or_update().result", Deploy);
    ("requests.post", Infer);
    ("response.json", Infer) ].

Definition stage_of_site (site : string) : option stage := assoc site site_stages.

(** Callees that are no platform operation: builtins, string methods,
    standard-library helpers and the constructors of configuration
    objects. *)
Definition helpers : list string :=
  [ "print"; "str"; "<str>.format"; "time.sleep"; "uuid.uuid4"; "re.sub";
    "Data"; "ManagedOnlineEndpoint"; "ManagedOnlineDeployment";
    "ProbeSettings"; "OnlineRequestSettings" ].

Definition stage_of_event (ev : event) : option stage :=
  match ev with
  | EvCall site _ _ _ _ => stage_of_site site
  | _ => None
  end.

(** The ranks of the staged calls of a trace, in order. *)
Definition ranks (tr : list event) : list nat :=
  omap (fun ev => rank <$> stage_of_event ev) tr.

(** The callees of all calls written in an expression or statement. *)
Fixpoint sites_e (e : expr) : list string :=
  match e with
  | EAttr e' _ | ESlice e' _ _ => sites_e e'
  | EIndex a b | EIn a b | EAdd a b => sites_e a ++ sites_e b
  | ECall f a => sites_e f ++ sites_a a ++ [site_of f]
  | EFStr a | EList a | EDict a => sites_a a
  | EComp elt _ iter => sites_e iter ++ sites_e elt
  | _ => []
  end
with sites_a (a : args) : list string :=
  match a with
  | ANil => []
  | APos e rest | AKw _ e rest => sites_e e ++ sites_a rest
  end.

Fixpoint sites (s : stmt) : list string :=
  match s with
  | SExpr e | SAssign _ e | SSetAttr _ _ e => sites_e e
  | SSeq a b => sites a ++ sites b
  | SIf c a b => sites_e c ++ sites a ++ sites b
  | SWhile c b => sites_e c ++ sites b
  | STry a _ b => sites a ++ sites b
  | _ => []
  end.

Definition classified (site : string) : bool :=
  match stage_of_site site with
  | Some _ => true
  | None => existsb (String.eqb site) helpers
  end.

(** *** Which stages a piece of code can call, and in which order

    A span [Some (lo, hi)] says: the staged calls have ranks between
    [lo] and [hi] and every run makes them in non-decreasing order;
    [None] says: no staged call. *)
Definition span : Type := option (nat * nat).

(** [a] and afterwards [b]: fine unless [b] can call an earlier stage
    than [a]. *)
Definition then_ (a b : span) : option span :=
  match a, b with
  | None, _ => Some b
  | _, None => Some a
  | Some (l1, h1), Some (l2, h2) =>
      if (h1 <=? l2)%nat then Some (Some (Nat.min l1 l2, Nat.max h1 h2))
      else None
  end.

(** [a] or else [b]. *)
Definition either (a b : span) : span :=
  match a, b with
  | None, _ => b
  | _, None => a
  | Some (l1, h1), Some (l2, h2) => Some (Nat.min l1 l2, Nat.max h1 h2)
  end.

(** [a] over and over: fine if [a] stays within one stage. *)
Definition repeat_ (a : span) : option span :=
  match a with
  | None => Some None
  | Some (l, h) => if (h <=? l)%nat then Some a else None
  end.

Definition and_then (a : option span) (f : span -> option span) : option span :=
  match a with
  | Some x => f x
  | None => None
  end.

Definition site_span (site : string) : span :=
  match stage_of_site site with
  | Some s => Some (rank s, rank s)
  | None => None
  end.

Fixpoint flow_e (e : expr) : option span :=
  match e with
  | EAttr e' _ | ESlice e' _ _ => flow_e e'
  | EIndex a b | EIn a b | EAdd a b =>
      and_then (flow_e a) (fun x => and_then (flow_e b) (then_ x))
  | ECall f a =>
      and_then (flow_e f) (fun x =>
      and_then (flow_a a) (fun y =>
      and_then (then_ y (site_span (site_of f))) (then_ x)))
  | EFStr a | EList a | EDict a => flow_a a
  | EComp elt _ iter =>
      and_then (flow_e iter) (fun x =>
      and_then (flow_e elt) (fun y =>
      and_then (repeat_ y) (then_ x)))
  | _ => Some None
  end
with flow_a (a : args) : option span :=
  match a with
  | ANil => Some None
  | APos e rest | AKw _ e rest =>
      and_then (flow_e e) (fun x => and_then (flow_a rest) (then_ x))
  end.

Fixpoint flow (s : stmt) : option span :=
  match s with
  | SExpr e | SAssign _ e | SSetAttr _ _ e => flow_e e
  | SSeq a b => and_then (flow a) (fun x => and_then (flow b) (then_ x))
  | SIf c a b =>
      and_then (flow_e c) (fun x =>
      and_then (flow a) (fun y =>
      and_then (flow b) (fun z => then_ x (either y z))))
  | SWhile c b =>
      and_then (flow_e c) (fun x =>
      and_then (flow b) (fun y => and_then (then_ x y) repeat_))
  | STry a _ b => and_then (flow a) (fun x => and_then (flow b) (then_ x))
  | _ => Some None
  end.

Fixpoint flow_cell (c : cell) : option span :=
  match c with
  | [] => Some None
  | s :: c' => and_then (flow s) (fun x => and_then (flow_cell c') (then_ x))
  end.

Fixpoint flow_cells (cs : list cell) : option span :=
  match cs with
  | [] => Some None
  | c :: cs' => and_then (flow_cell c) (fun x => and_then (flow_cells cs') (then_ x))
  end.

(** A trace within a span. *)
Definition sat (sp : span) (tr : list event) : Prop :=
  match sp with
  | None => ranks tr = []
  | Some (lo, hi) =>
      StronglySorted le (ranks tr) /\
      Forall (fun k => lo <= k <= hi) (ranks tr)
  end.

(** [loop] respects the span of every statement. *)
Definition sound {W : Type}
    (loop : stmt -> gmap string value -> W -> @result W) : Prop :=
  forall s sp, flow s = Some sp -> forall env w, sat sp (trace_of (loop s env w)).

End Stages.

(** ** Failed calls and what follows them *)

Module Retry.

Definition failed (ev : event) : bool :=
  match ev with
  | EvCall _ _ _ _ (Raise _) => true
  | _ => false
  end.

Definition is_sleep (ev : event) : bool :=
  match ev with
  | EvSleep _ => true
  | _ => false
  end.

(** The same operation: the same callee text with the same arguments. *)
Definition same_call (a b : event) : bool :=
  match a, b with
  | EvCall s _ p k _, EvCall s' _ p' k' _ =>
      String.eqb s s' && value_eqb (VList p) (VList p')
      && value_eqb (VDict k) (VDict k')
  | _, _ => false
  end.

(** How often a call is made again after it has failed. *)
Fixpoint reinvocations (tr : list event) : nat :=
  match tr with
  | [] => 0
  | ev :: tr' =>
      (if failed ev then length (List.filter (same_call ev) tr') else 0)
      + reinvocations tr'
  end.

(** Is there a sleep after a failed call? *)
Fixpoint delayed_retry (tr : list event) : bool :=
  match tr with
  | [] => false
  | ev :: tr' => (failed ev && existsb is_sleep tr') || delayed_retry tr'
  end.

Fixpoint try_free (s : stmt) : bool :=
  match s with
  | STry _ _ _ => false
  | SSeq a b => try_free a && try_free b
  | SIf _ a b => try_free a && try_free b
  | SWhile _ b => try_free b
  | _ => true
  end.

Definition try_free_cell (c : cell) : bool := forallb try_free c.

Definition clean (tr : list event) : Prop :=
  Forall (fun ev => failed ev = false) tr.

(** No call of the trace failed, except possibly the last one when the
    code ended with an exception. *)
Definition tidy (exceptional : bool) (tr : list event) : Prop :=
  if exceptional then clean (removelast tr) else clean tr.

Definition is_exc (g : signal) : bool :=
  match g with
  | Exc _ => true
  | _ => false
  end.

Definition is_inr {A B : Type} (x : A + B) : bool :=
  match x with
  | inr _ => true
  | inl _ => false
  end.

Definition tidy_m {W A : Type} (x : list event * W * (A + exn)) : Prop :=
  tidy (is_inr x.2) x.1.1.

Definition tidy_result {W : Type} (r : @result W) : Prop :=
  tidy (is_exc (signal_of r)) (trace_of r).

Definition tidy_loop {W : Type}
    (loop : stmt -> gmap string value -> W -> @result W) : Prop :=
  forall s env w, try_free s = true -> tidy_result (loop s env w).

(** The cells of both notebooks. *)
Definition all_cells : list cell :=
  FineTuning.notebook ++ WorkingWithData.notebook.

(** A cell that is an existence check finds its namespace prepared. *)
Definition ready (c : cell) (env : gmap string value) : Prop :=
  forall k, In k Existence.checks -> Existence.chk_cell k = c ->
            Existence.prepared k env.

End Retry.

(** ** The CI workflows *)

Module Workflow.

Record step : Type := {
  step_name : string;
  uses : option string;
  run : option string;
  with_ : list (string * string);
  working_directory : option string
}.

Record pull_request : Type := {
  branches : list string;
  paths : list string
}.

Record triggers : Type := {
  schedule : list string;          (* the cron entries *)
  on_pull_request : option pull_request
}.

Record job : Type := {
  job_id : string;
  runs_on : string;
  steps : list step
}.

Record workflow : Type := {
  name : string;
  on : triggers;
  jobs : list job
}.

Definition uses_step (n u : string) (w : list (string * string)) : step :=
  {| step_name := n; uses := Some u; run := None; with_ := w;
     working_directory := None |}.

Definition run_step (n r : string) (wd : option string) : step :=
  {| step_name := n; uses := None; run := Some r; with_ := [];
     working_directory := wd |}.

(** [.github/workflows/train-fastai-mnist-mlproject-job.yml] *)
Definition train_fastai_mnist_mlproject_job : workflow :=
  {| name := "train-fastai-mnist-mlproject-job";
     on :=
       {| schedule := ["0 0/2 * * *"];
          on_pull_request :=
            Some {| branches := ["main"];
                    paths :=
                      [ "workflows/train/fastai/mnist-mlproject/job.py";
                        ".github/workflows/train-fastai-mnist-mlproject-job.yml" ] |} |};
     jobs :=
       [ {| job_id := "build";
            runs_on := "ubuntu-latest";
            steps :=
              [ uses_step "check out repo" "actions/checkout@v2" [];
                uses_step "setup python" "actions/setup-python@v2"
                  [("python-version", "3.8")];
                run_step "pip install" "pip install -r requirements.txt" None;
                uses_step "azure login" "azure/login@v1"
                  [("creds", "${{secrets.AZ_AE_CREDS}}")];
                run_step "install azmlcli"
                  "az extension add -n azure-cli-ml -y" None;
                run_step "attach to workspace"
                  "az ml folder attach -w default -g azureml-examples" None;
                run_step "run workflow"
                  "python workflows/train/fastai/mnist-mlproject/job.py" None ] |} ] |}.

(** [.github/workflows/tutorial-upl.yml] *)
Definition tutorial_upl : workflow :=
  {| name := "tutorial-upl";
     on :=
       {| schedule := ["0 */2 * * *"];
          on_pull_request :=
            Some {| branches := ["main"];
                    paths :=
                      [ "tutorials/using-pytorch-lightning/**";
                        ".github/workflows/tutorial-upl.yml" ] |} |};
     jobs :=
       [ {| job_id := "build";
            runs_on := "ubuntu-latest";
            steps :=
              [ uses_step "check out repo" "actions/checkout@v2" [];
                uses_step "setup python" "actions/setup-python@v2"
                  [("python-version", "3.8")];
                run_step "pip install" "pip install -r requirements.txt" None;
                uses_step "azure login" "azure/login@v1"
                  [("creds", "${{secrets.AZ_AE_CREDS}}")];
                run_step "install azmlcli"
                  "az extension add -s https://azurecliext.blob.core.windows.net/release/azure_cli_ml-1.15.0-py3-none-any.whl -y"
                  None;
                run_step "attach to workspace"
                  "az ml folder attach -w default -g azureml-examples" None;
                run_step "run 1.train-single-node.ipynb"
                  "papermill 1.train-single-node.ipynb - -k python"
                  (Some "tutorials/using-pytorch-lightning");
                run_step "run 2.log-with-tensorboard.ipynb"
                  "papermill 2.log-with-tensorboard.ipynb - -k python"
                  (Some "tutorials/using-pytorch-lightning");
                run_step "run 3.log-with-mlflow.ipynb"
                  "papermill 3.log-with-mlflow.ipynb - -k python"
                  (Some "tutorials/using-pytorch-lightning");
                run_step "run 4.train-multi-node-ddp.ipynb"
                  "papermill 4.train-multi-node-ddp.ipynb - -k python"
                  (Some "tutorials/using-pytorch-lightning") ] |} ] |}.

Definition workflows : list workflow :=
  [train_fastai_mnist_mlproject_job; tutorial_upl].

(** What a step does, read off its action or command. *)
Inductive kind : Type :=
| Checkout
| SetupPython
| PipInstall
| CloudLogin       (* with credentials taken from a secret *)
| CliInstall
| AttachWorkspace
| Execute          (* run a script or a notebook *)
| Other.

Definition from_secret (s : string) : bool := String.prefix "${{secrets." s.

Definition classify (s : step) : kind :=
  match uses s, run s with
  | Some u, None =>
      if String.prefix "actions/checkout@" u then Checkout
      else if String.prefix "actions/setup-python@" u then SetupPython
      else if String.prefix "azure/login@" u then
        match assoc "creds" (with_ s) with
        | Some c => if from_secret c then CloudLogin else Other
        | None => Other
        end
      else Other
  | None, Some r =>
      if String.prefix "pip install" r then PipInstall
      else if String.prefix "az extension add" r then CliInstall
      else if String.prefix "az ml folder attach" r then AttachWorkspace
      else if String.prefix "python " r || String.prefix "papermill " r
      then Execute
      else Other
  | _, _ => Other
  end.

Definition setup_steps : list kind :=
  [Checkout; SetupPython; PipInstall; CloudLogin; CliInstall; AttachWorkspace].

(** The events a workflow can be started by. *)
Inductive gh_event : Type :=
| Scheduled (cron : string)
| PullRequest (base : string) (changed : list string)
| Push (branch : string) (changed : list string).

Definition ends_with (suffix s : string) : bool :=
  let n := String.length s in
  let m := String.length suffix in
  (m <=? n)%nat && String.eqb (String.substring (n - m) m s) suffix.

Definition has_wildcard (s : string) : bool :=
  existsb (fun c => existsb (Ascii.eqb c) (list_ascii_of_string "*?[!"))
    (list_ascii_of_string s).

(** Path filters as far as the two files use them: a path itself, or a
    directory followed by [/**] for everything beneath it. *)
Definition path_matches (pat path : string) : bool :=
  if ends_with "/**" pat
  then String.prefix (String.substring 0 (String.length pat - 2) pat) path
  else String.eqb pat path.

Definition supported (pat : string) : bool :=
  if ends_with "/**" pat
  then negb (has_wildcard (String.substring 0 (String.length pat - 3) pat))
  else negb (has_wildcard pat).

Definition triggered (w : workflow) (ev : gh_event) : bool :=
  match ev with
  | Scheduled cron => existsb (String.eqb cron) (schedule (on w))
  | PullRequest base changed =>
      match on_pull_request (on w) with
      | Some pr =>
          existsb (String.eqb base) (branches pr)
          && existsb (fun f => existsb (fun pat => path_matches pat f) (paths pr))
               changed
      | None => false
      end
  | Push _ _ => false
  end.

End Workflow.

(** ** The data files of the fine-tuning job *)

Module DataFormat.

Inductive json : Type :=
| JNull
| JBool (b : bool)
| JNum (n : Z)
| JStr (s : string)
| JArr (items : list json)
| JObj (fields : list (string * json)).

Definition cr : string := String "013"%char "".

(** The record the notebook shows under "3. Sample data". *)
Definition sample_record : json :=
  JObj
    [ ("text",
        JStr ("Summarize the dialog." +:+ nl +:+
              "<dialog>: Amanda: I baked  cookies. Do you want some?" +:+ cr +:+ nl +:+
              "Jerry: Sure!" +:+ cr +:+ nl +:+
              "Amanda: I'll bring you tomorrow :-)" +:+ nl +:+
              "<summary>: "));
      ("ground_truth",
        JStr "Amanda baked cookies and will bring Jerry some tomorrow.") ].

(** Modelled from the spec: the files train.jsonl and validation.jsonl
    are not under src/.  The spec gives their format as "line-delimited
    JSON training/validation files with fixed fields (text,
    ground_truth)": a file is a list of lines, each line one JSON
    object with exactly these two fields. *)
Definition record_fields : list string := ["text"; "ground_truth"].

Definition has_field (fs : list (string * json)) (k : string) : bool :=
  existsb (fun kv => String.eqb k kv.1) fs.

Definition conforms (j : json) : bool :=
  match j with
  | JObj fs =>
      (length fs =? length record_fields)%nat
      && forallb (has_field fs) record_fields
  | _ => false
  end.

Definition jsonl_conforms (lines : list json) : bool := forallb conforms lines.

(** The calls written in a piece of code, with their arguments. *)
Fixpoint calls_e (e : expr) : list (string * args) :=
  match e with
  | EAttr e' _ | ESlice e' _ _ => calls_e e'
  | EIndex a b | EIn a b | EAdd a b => calls_e a ++ calls_e b
  | ECall f a => calls_e f ++ calls_a a ++ [(site_of f, a)]
  | EFStr a | EList a | EDict a => calls_a a
  | EComp elt _ iter => calls_e iter ++ calls_e elt
  | _ => []
  end
with calls_a (a : args) : list (string * args) :=
  match a with
  | ANil => []
  | APos e rest | AKw _ e rest => calls_e e ++ calls_a rest
  end.

Fixpoint calls (s : stmt) : list (string * args) :=
  match s with
  | SExpr e | SAssign _ e | SSetAttr _ _ e => calls_e e
  | SSeq a b => calls a ++ calls b
  | SIf c a b => calls_e c ++ calls a ++ calls b
  | SWhile c b => calls_e c ++ calls b
  | STry a _ b => calls a ++ calls b
  | _ => []
  end.

Fixpoint kwarg (k : string) (a : args) : option expr :=
  match a with
  | ANil => None
  | APos _ rest => kwarg k rest
  | AKw k' e rest => if String.eqb k k' then Some e else kwarg k rest
  end.

(** A string written as a literal or as an f-string without fields. *)
Definition literal (e : expr) : option string :=
  match e with
  | EStr s => Some s
  | EFStr (APos (EStr s) ANil) => Some s
  | _ => None
  end.

(** The [path] arguments of the [Data(...)] objects a cell builds. *)
Definition data_paths (c : cell) : list string :=
  omap (fun sa : string * args =>
          if String.eqb sa.1 "Data" then kwarg "path" sa.2 ≫= literal else None)
       (flat_map calls c).

End DataFormat.

(** * Further definitions: analyses of the cells and workflows *)

(** ** Which calls a run can make *)

(** An event of [tr] that is a call is a call to one of [allowed]. *)
Definition from_sites (allowed : list string) (ev : event) : Prop :=
  match ev with
  | EvCall site _ _ _ _ => In site allowed
  | _ => True
  end.

Definition within (allowed : list string) (tr : list event) : Prop :=
  Forall (from_sites allowed) tr.

(** [loop] calls nothing but what the statement writes. *)
Definition confined {W : Type}
    (loop : stmt -> gmap string value -> W -> @result W) : Prop :=
  forall s env w, within (Stages.sites s) (trace_of (loop s env w)).

(** The call sites of a cell and of a list of cells. *)
Definition cell_sites (c : cell) : list string := flat_map Stages.sites c.
Definition notebook_sites (cs : list cell) : list string := flat_map cell_sites cs.

(** Does [s] contain [sub]? *)
Fixpoint mentions (sub s : string) : bool :=
  String.prefix sub s ||
  match s with
  | EmptyString => false
  | String _ s' => mentions sub s'
  end.

(** ** The fine-tuning notebook run from top to bottom *)

Module RunAll.

Import FineTuning.

(** The cells before and after the failure check. *)
Definition up_to_poll : list cell :=
  [ cell_install; cell_connect; cell_pick_model; cell_finetune_sku;
    cell_train_data; cell_train_id; cell_validation_data; cell_validation_id;
    cell_build_job; cell_submit; cell_poll ].

Definition after_failure_check : list cell :=
  [ cell_registered_output; cell_registered_model; cell_show_model;
    cell_endpoint; cell_inference_sku; cell_deployment; cell_inference ].

End RunAll.

(** ** What the workflows execute *)

Module Executed.

Import Workflow.

(** The file a workflow is defined in. *)
Definition file_of (w : workflow) : string :=
  ".github/workflows/" +:+ name w +:+ ".yml".

(** [s] up to its first space. *)
Fixpoint first_word (s : string) : string :=
  match s with
  | EmptyString => EmptyString
  | String c s' => if Ascii.eqb c " " then EmptyString else String c (first_word s')
  end.

(** [s] without its first [n] characters. *)
Definition drop_chars (n : nat) (s : string) : string :=
  String.substring n (String.length s - n) s.

(** The script or notebook that a step hands to [python] or
    [papermill], as a path from the root of the repository: the first
    argument of the command, below the step's working directory. *)
Definition executed (s : step) : option string :=
  match run s with
  | Some r =>
      let file :=
        if String.prefix "python " r then Some (first_word (drop_chars 7 r))
        else if String.prefix "papermill " r
        then Some (first_word (drop_chars 10 r))
        else None in
      match file, working_directory s with
      | Some f, Some d => Some (d +:+ "/" +:+ f)
      | Some f, None => Some f
      | None, _ => None
      end
  | None => None
  end.

Definition all_steps (w : workflow) : list step := flat_map steps (jobs w).

(** The files a workflow depends on: its own definition and what its
    steps execute. *)
Definition own_files (w : workflow) : list string :=
  file_of w :: omap executed (all_steps w).

End Executed.

(** ** The poll cell on a job that has already finished *)

Definition already_done (n : nat) : string := "Completed".

(** ** Names that are bound once *)

(** The positions of the cells of [cs] that can bind [x]. *)
Definition binders (x : string) (cs : list cell) : list nat :=
  omap (fun ic : nat * cell =>
          if existsb (String.eqb x) (assigned_cell ic.2) then Some ic.1 else None)
       (imap pair cs).

(** The clients, the model and the job of the fine-tuning notebook, and
    the client of the data notebook, each with the cell that binds it. *)
Definition bound_once_finetuning : list (string * nat) :=
  [ ("credential", 1); ("workspace_ml_client", 1); ("registry_ml_client", 1);
    ("model_to_finetune", 2); ("train_data_asset", 4);
    ("validation_data_asset", 6); ("short_guid", 8); ("finetuning_job", 8);
    ("created_job", 9); ("registered_model", 13) ].

Definition bound_once_data : list (string * nat) :=
  [ ("ml_client", 0); ("subscription_id", 0); ("resource_group", 0);
    ("workspace", 0); ("env_docker_conda", 23) ].

(** ** Names that are bound when they are read *)

Module Bound.

Definition known (D : list string) (x : string) : bool :=
  existsb (String.eqb x) D.

(** Every name that [e] reads is in [D]; a comprehension binds its
    variable for its element expression. *)
Fixpoint closed_e (D : list string) (e : expr) : bool :=
  match e with
  | EName x => known D x
  | EAttr e' _ | ESlice e' _ _ => closed_e D e'
  | EIndex a b | EIn a b | EAdd a b => closed_e D a && closed_e D b
  | ECall f a => closed_e D f && closed_a D a
  | EFStr a | EList a | EDict a => closed_a D a
  | EComp elt x iter => closed_e D iter && closed_e (x :: D) elt
  | _ => true
  end
with closed_a (D : list string) (a : args) : bool :=
  match a with
  | ANil => true
  | APos e rest | AKw _ e rest => closed_e D e && closed_a D rest
  end.

(** The name a handler binds to the exception, and deletes when it is
    done. *)
Definition hvar (h : handler) : list string :=
  match h with
  | HExcept _ (Some x) => [x]
  | _ => []
  end.

(** The names a statement can delete. *)
Fixpoint unbound_by (s : stmt) : list string :=
  match s with
  | SSeq a b | SIf _ a b => unbound_by a ++ unbound_by b
  | SWhile _ b => unbound_by b
  | STry a h b => unbound_by a ++ hvar h ++ unbound_by b
  | _ => []
  end.

Definition minus (D R : list string) : list string :=
  List.filter (fun x => negb (known R x)) D.

Definition both (D1 D2 : list string) : list string :=
  List.filter (known D2) D1.

(** [after D s = Some D']: started with the names of [D] bound, [s] reads
    no unbound name, and when it completes the names of [D'] are bound. *)
Fixpoint after (D : list string) (s : stmt) : option (list string) :=
  match s with
  | SPass | SBreak | SMagic _ => Some D
  | SExpr e => if closed_e D e then Some D else None
  | SAssign x e => if closed_e D e then Some (x :: D) else None
  | SSetAttr x _ e => if closed_e D e && known D x then Some D else None
  | SImport mods => Some (mods ++ D)
  | SFromImport _ names => Some (names ++ D)
  | SSeq a b =>
      match after D a with
      | Some D1 => after D1 b
      | None => None
      end
  | SIf c a b =>
      if closed_e D c then
        match after D a, after D b with
        | Some D1, Some D2 => Some (both D1 D2)
        | _, _ => None
        end
      else None
  | SWhile c b =>
      let D0 := minus D (unbound_by b) in
      if closed_e D0 c then
        match after D0 b with
        | Some _ => Some D0
        | None => None
        end
      else None
  | STry a h b =>
      match after D a, after (hvar h ++ minus D (unbound_by a)) b with
      | Some D1, Some D2 => Some (both D1 (minus D2 (hvar h)))
      | _, _ => None
      end
  end.

Fixpoint after_cell (D : list string) (c : cell) : option (list string) :=
  match c with
  | [] => Some D
  | s :: c' =>
      match after D s with
      | Some D1 => after_cell D1 c'
      | None => None
      end
  end.

Fixpoint after_cells (D : list string) (cs : list cell) : option (list string) :=
  match cs with
  | [] => Some D
  | c :: cs' =>
      match after_cell D c with
      | Some D1 => after_cells D1 cs'
      | None => None
      end
  end.

(** The namespace binds every name of [D]. *)
Definition covers (env : gmap string value) (D : list string) : Prop :=
  forall x, In x D -> is_Some (env !! x).

Definition is_NameError (g : signal) : bool :=
  match g with
  | Exc (NameError _) => true
  | _ => false
  end.

(** [loop] deletes no name but those of handlers. *)
Definition persists {W : Type}
    (loop : stmt -> gmap string value -> W -> @result W) : Prop :=
  forall s env w x,
    is_Some (env !! x) -> ~ In x (unbound_by s) ->
    is_Some (env_of (loop s env w) !! x).

Definition sound {W : Type}
    (loop : stmt -> gmap string value -> W -> @result W) : Prop :=
  forall s D D' env w,
    covers env D -> after D s = Some D' ->
    is_NameError (signal_of (loop s env w)) = false /\
    (signal_of (loop s env w) = Normal -> covers (env_of (loop s env w)) D').

Definition no_stray_break {W : Type}
    (loop : stmt -> gmap string value -> W -> @result W) : Prop :=
  forall s env w,
    break_outside_loop s = false -> signal_of (loop s env w) <> Break.

(** The names of a fresh kernel that the notebooks use. *)
Definition builtins : list string := ["print"; "str"].

End Bound.

(** The cells of the fine-tuning notebook that retrieve the model and
    deploy it. *)
Definition deployment_cells : list cell :=
  removelast RunAll.after_failure_check.

(** ** Calls that always receive the same arguments *)

Module Steady.

Import Bound.

(** The value of an expression that only reads names, attributes and
    literals. *)
Fixpoint pure_value (env : gmap string value) (e : expr) : option value :=
  match e with
  | ENone => Some VNone
  | EBool b => Some (VBool b)
  | ENum n => Some (VInt n)
  | EStr s => Some (VStr s)
  | EName x => env !! x
  | EAttr e' a =>
      match pure_value env e' with
      | Some v => Some (get_attr v a)
      | None => None
      end
  | _ => None
  end.

Fixpoint pure_args (env : gmap string value) (a : args)
  : option (list value * list (string * value)) :=
  match a with
  | ANil => Some ([], [])
  | APos e rest =>
      match pure_value env e, pure_args env rest with
      | Some v, Some pk => Some (v :: pk.1, pk.2)
      | _, _ => None
      end
  | AKw k e rest =>
      match pure_value env e, pure_args env rest with
      | Some v, Some pk => Some (pk.1, (k, v) :: pk.2)
      | _, _ => None
      end
  end.

(** The names such an expression reads. *)
Fixpoint names_e (e : expr) : list string :=
  match e with
  | EName x => [x]
  | EAttr e' _ => names_e e'
  | _ => []
  end.

Fixpoint names_a (a : args) : list string :=
  match a with
  | ANil => []
  | APos e rest | AKw _ e rest => names_e e ++ names_a rest
  end.

(** Two such expressions are written the same. *)
Fixpoint same_e (a b : expr) : bool :=
  match a, b with
  | ENone, ENone => true
  | EBool x, EBool y => Bool.eqb x y
  | ENum x, ENum y => Z.eqb x y
  | EStr x, EStr y => String.eqb x y
  | EName x, EName y => String.eqb x y
  | EAttr a' x, EAttr b' y => same_e a' b' && String.eqb x y
  | _, _ => false
  end.

Fixpoint same_a (a b : args) : bool :=
  match a, b with
  | ANil, ANil => true
  | APos e r, APos e' r' => same_e e e' && same_a r r'
  | AKw k e r, AKw k' e' r' => String.eqb k k' && same_e e e' && same_a r r'
  | _, _ => false
  end.

Section Checker.

Variable site : string.
Variable a0 : args.

(** [x] is none of the names the arguments read. *)
Definition free (x : string) : bool := negb (known (names_a a0) x).

(** Every call to [site] written in [e] has the arguments [a0]. *)
Fixpoint steady_e (e : expr) : bool :=
  match e with
  | EAttr e' _ | ESlice e' _ _ => steady_e e'
  | EIndex a b | EIn a b | EAdd a b => steady_e a && steady_e b
  | ECall f a =>
      steady_e f && steady_a a
      && (negb (String.eqb (site_of f) site) || same_a a a0)
  | EFStr a | EList a | EDict a => steady_a a
  | EComp elt x iter => steady_e iter && steady_e elt && free x
  | _ => true
  end
with steady_a (a : args) : bool :=
  match a with
  | ANil => true
  | APos e rest | AKw _ e rest => steady_e e && steady_a rest
  end.

(** ... and [s] binds none of the names they read. *)
Fixpoint steady (s : stmt) : bool :=
  match s with
  | SExpr e => steady_e e
  | SAssign x e => steady_e e && free x
  | SSetAttr x _ e => steady_e e && free x
  | SImport mods => forallb free mods
  | SFromImport _ names => forallb free names
  | SSeq a b => steady a && steady b
  | SIf c a b => steady_e c && steady a && steady b
  | SWhile c b => steady_e c && steady b
  | STry a h b => steady a && steady b && forallb free (hvar h)
  | _ => true
  end.

Definition steady_cell (c : cell) : bool := forallb steady c.
Definition steady_cells (cs : list cell) : bool := forallb steady_cell cs.

(** [env] agrees with [env0] on the names the arguments read. *)
Definition agree (env env0 : gmap string value) : Prop :=
  forall x, In x (names_a a0) -> env !! x = env0 !! x.

(** A call to [site] has the arguments that [a0] denotes in [env0]. *)
Definition stable (env0 : gmap string value) (ev : event) : Prop :=
  match ev with
  | EvCall s _ pos kw _ => s = site -> pure_args env0 a0 = Some (pos, kw)
  | _ => True
  end.

Definition steady_run {W : Type} (env0 : gmap string value)
    (r : @result W) : Prop :=
  Forall (stable env0) (trace_of r) /\ agree (env_of r) env0.

Definition steady_loop {W : Type} (env0 : gmap string value)
    (loop : stmt -> gmap string value -> W -> @result W) : Prop :=
  forall s env w,
    steady s = true -> agree env env0 -> steady_run env0 (loop s env w).

End Checker.

End Steady.

(** ** The job that is polled, and the schedule that is managed *)

(** [created_job.name], the argument of every status query. *)
Definition job_name : args := APos (&"created_job" @@ "name") ANil.

Module Schedules.

(** The operations on a schedule that is already there. *)
Definition management_sites : list string :=
  [ "ml_client.schedules.begin_disable"; "ml_client.schedules.get";
    "ml_client.schedules.begin_enable"; "ml_client.schedules.begin_delete" ].

(** [name=schedule_name], the arguments of each of them. *)
Definition by_name : args := AKw "name" &"schedule_name" ANil.

(** The name the cron cell gives its schedule. *)
Definition cron_name : string := "my_simple_sdk_create_schedule_cron".

End Schedules.

(** ** Objects of the SDK *)

(** An object of which the code knows no attribute: whatever is read
    off it or called on it is the platform's business. *)
Definition is_handle (v : value) : bool :=
  match v with
  | VObj _ [] | VProj _ _ => true
  | _ => false
  end.

(** No call of the trace failed. *)
Definition all_returned (tr : list event) : bool :=
  forallb (fun ev => negb (Retry.failed ev)) tr.

(** The outcome of an evaluation is not a [NameError]. *)
Definition no_NameError {W A : Type} (x : list event * W * (A + exn)) : Prop :=
  forall n, x.2 <> inr (NameError n).

(** The events of a call carry its site and its arguments. *)
Definition carries (s : string) (pos : list value) (kw : list (string * value))
    (ev : event) : Prop :=
  match ev with
  | EvCall s' _ pos' kw' _ => s' = s /\ pos' = pos /\ kw' = kw
  | _ => True
  end.

(** ** Namespaces to run single cells in *)

(** The namespace after the first [n] cells of the data notebook, run in
    order in a fresh kernel against a platform on which no call fails. *)
Definition data_kernel (n : nat) : gmap string value :=
  env_of (run_cells Platform.ext true 5 (take n WorkingWithData.notebook)
            fresh_env (Platform.quiet already_done)).

(** The same for the fine-tuning notebook, the reader going on after the
    cell that raises. *)
Definition finetuning_kernel (n : nat) : gmap string value :=
  env_of (run_cells Platform.ext false 5 (take n FineTuning.notebook)
            fresh_env (Platform.quiet already_done)).

(** ** Evaluating cells symbolically *)

#[local] Arguments String.append !_ _ / : simpl nomatch.

Ltac lookups :=
  repeat first
    [ rewrite lookup_insert_eq
    | rewrite lookup_insert_ne by done
    | rewrite lookup_delete_eq
    | rewrite lookup_delete_ne by done
    | match goal with
      | H : ?m !! ?x = _ |- context [?m !! ?x] => rewrite H
      end ].

Ltac run := repeat (progress (unfold exec; cbn; lookups)).

(** Case analysis on the reply to the next external call. *)
Ltac reply a cls w H :=
  match goal with
  | |- context [?ext ?p ?f ?pos ?kw] =>
      match type of (ext p f pos kw) with
      | (reply * _)%type => destruct (ext p f pos kw) as [[a|cls] w] eqn:H
      end
  end.

Lemma append_empty_r (s : string) : s +:+ "" = s.
Proof.
  induction s as [|c s IH]; [reflexivity|].
  change (String c (s +:+ "") = String c s). by rewrite IH.
Qed.

Lemma ext_pop p f pos kw :
  Platform.ext p f pos kw =
    match Platform.pop p with
    | (Some cls, p') => (Raise cls, p')
    | (None, p') => Platform.serve p' f pos kw
    end.
Proof. reflexivity. Qed.

Lemma ext_no_fault (p : Platform.state) f pos kw :
  Platform.faults p = [] -> Platform.ext p f pos kw = Platform.serve p f pos kw.
Proof. intros H. unfold Platform.ext, Platform.pop. by rewrite H. Qed.

(** [while True:] one iteration at a time. *)
Lemma exec_while_true {W : Type}
    (ext : W -> value -> list value -> list (string * value) -> reply * W)
    (fuel : nat) (body : stmt) (env : gmap string value) (w : W) :
  exec ext fuel (SWhile (EBool true) body) env w =
    match exec ext fuel body env w with
    | (t2, env2, w2, Normal) =>
        match
          match fuel with
          | O => ([], env2, w2, Diverge)
          | S f => exec ext f (SWhile (EBool true) body) env2 w2
          end
        with
        | (t3, env3, w3, g) => (t2 ++ t3, env3, w3, g)
        end
    | (t2, env2, w2, Break) => (t2, env2, w2, Normal)
    | (t2, env2, w2, g) => (t2, env2, w2, g)
    end.
Proof. destruct fuel; reflexivity. Qed.

(** ** The failure check after the poll loop *)

Section FailureCheck.

Import FineTuning.
Context {W : Type}.
Variable ext : W -> value -> list value -> list (string * value) -> reply * W.

(** What the statement would do if it were run: report and break. *)
Lemma failure_check_body_reports loop env w s :
  env !! "status" = Some (VStr s) ->
  env !! "print" = Some (VExt "print") ->
  existsb (String.eqb s) ["Failed"; "Canceled"] = true ->
  exec_stmt ext loop failure_check env w =
    ([EvPrint ("Job did not finish successfully. So no model to deploy. JobStatus: " +:+ s)],
     env, w, Break).
Proof.
  intros Hs Hp Ht. unfold failure_check. run.
  cbn in Ht. rewrite Ht. run. by rewrite append_empty_r.
Qed.

(** C1 (the code as it stands): the failure-check cell consists of one
    [if] statement whose [break] is not inside any loop; compiling it
    raises [SyntaxError], so whatever the polled status is, also
    "Failed" or "Canceled", the cell prints nothing and calls nothing:
    the failure is not reported, and the cell raises on "Completed"
    as well. *)
Theorem failure_check_cell_raises_before_reporting :
  break_outside_loop failure_check = true /\
  forall (fuel : nat) (env : gmap string value) (w : W),
    run_cell ext fuel cell_failure_check env w =
      ([], env, w, Exc (SyntaxError "'break' outside loop")).
Proof. split; [reflexivity|]. intros fuel env w. reflexivity. Qed.

End FailureCheck.

(** ** The status poll loop *)

Section PollLoop.

Import FineTuning Poll.

Lemma ready_insert_status env job v :
  ready env job -> ready (<["status" := v]> env) job.
Proof. intros [H1 H2 H3 H4]. split; by rewrite lookup_insert_ne. Qed.

Lemma after_tick p n : after (Platform.tick p) n = after p (S n).
Proof.
  unfold after, Platform.tick. cbn. f_equal. lia.
Qed.

Lemma after_1 p : Platform.tick p = after p 1.
Proof. unfold after, Platform.tick. f_equal. lia. Qed.

(** One iteration, whatever the platform does. *)
Lemma poll_body_step loop env p job :
  ready env job ->
  exec_stmt Platform.ext loop poll_body env p =
    match Platform.pop p with
    | (Some cls, p') => ([failed_query job cls], env, p', Exc (LibError cls))
    | (None, p') =>
        let s := Platform.job_status p' (Platform.polls p') in
        if is_terminal s
        then (final_iteration job s, <["status" := VStr s]> env,
              Platform.tick p', Break)
        else (running_iteration job s, <["status" := VStr s]> env,
              Platform.tick p', Normal)
    end.
Proof.
  intros [H1 H2 H3 H4]. unfold poll_body, query_status. run.
  rewrite ext_pop. destruct (Platform.pop p) as [[cls|] p']; run; [done|].
  unfold is_terminal. cbn.
  destruct (_ || _); run; [by rewrite append_empty_r | done].
Qed.

(** However the loop ends, it ends after a query: normally only after
    one that returned a terminal status, with an exception only after
    one that failed. *)
Lemma poll_loop_exit fuel : forall env p job,
  ready env job ->
  let r := exec Platform.ext fuel poll_loop env p in
  match signal_of r with
  | Normal =>
      exists s before,
        is_terminal s = true /\
        env_of r !! "status" = Some (VStr s) /\
        trace_of r = before ++ final_iteration job s
  | Exc e =>
      exists cls before,
        e = LibError cls /\ trace_of r = before ++ [failed_query job cls]
  | Diverge => True
  | Break => False
  end.
Proof.
  assert (Hstep : forall fuel env p job, ready env job ->
    exec Platform.ext fuel poll_loop env p =
      match Platform.pop p with
      | (Some cls, p') => ([failed_query job cls], env, p', Exc (LibError cls))
      | (None, p') =>
          let s := Platform.job_status p' (Platform.polls p') in
          if is_terminal s
          then (final_iteration job s, <["status" := VStr s]> env,
                Platform.tick p', Normal)
          else
            match
              match fuel with
              | O => ([], <["status" := VStr s]> env, Platform.tick p', Diverge)
              | S f => exec Platform.ext f poll_loop
                         (<["status" := VStr s]> env) (Platform.tick p')
              end
            with
            | (t3, env3, w3, g) => (running_iteration job s ++ t3, env3, w3, g)
            end
      end).
  { intros f env p job Hr. unfold poll_loop. rewrite exec_while_true.
    unfold exec at 1. rewrite (poll_body_step _ _ _ _ Hr).
    destruct (Platform.pop p) as [[cls|] p']; [done|]. cbn zeta.
    by destruct (is_terminal _). }
  induction fuel as [|fuel IH]; intros env p job Hr r; subst r;
    rewrite (Hstep _ _ _ _ Hr);
    destruct (Platform.pop p) as [[cls|] p']; cbn zeta.
  - cbn. by exists cls, [].
  - destruct (is_terminal _) eqn:Ht; cbn; [|done].
    eexists _, []. split; [exact Ht|]. split; [by rewrite lookup_insert_eq|done].
  - cbn. by exists cls, [].
  - destruct (is_terminal _) eqn:Ht.
    { cbn. eexists _, []. split; [exact Ht|].
      split; [by rewrite lookup_insert_eq|done]. }
    specialize (IH (<["status" := VStr (Platform.job_status p' (Platform.polls p'))]> env)
                   (Platform.tick p') job (ready_insert_status _ _ _ Hr)).
    cbn zeta in IH. cbv iota.
    destruct (exec Platform.ext fuel poll_loop _ _) as [[[t3 env3] p3] g3].
    cbn in IH |- *. destruct g3; cbn in IH |- *; try done.
    + destruct IH as (s & before & ? & ? & ->).
      exists s, (running_iteration job (Platform.job_status p' (Platform.polls p')) ++ before).
      by rewrite <- app_assoc.
    + destruct IH as (cls & before & ? & ->).
      exists cls, (running_iteration job (Platform.job_status p' (Platform.polls p')) ++ before).
      by rewrite <- app_assoc.
Qed.
(** An iteration that sees a non-terminal status sleeps and goes on. *)
Lemma poll_body_running loop env p job :
  ready env job -> Platform.faults p = [] ->
  is_terminal (Platform.job_status p (Platform.polls p)) = false ->
  exec_stmt Platform.ext loop poll_body env p =
    (running_iteration job (Platform.job_status p (Platform.polls p)),
     <["status" := VStr (Platform.job_status p (Platform.polls p))]> env,
     Platform.tick p, Normal).
Proof.
  intros [H1 H2 H3 H4] Hf Ht. unfold poll_body, query_status. run.
  rewrite (ext_no_fault _ _ _ _ Hf). run.
  unfold is_terminal in Ht. cbn in Ht. rewrite Ht. run.
  reflexivity.
Qed.

(** An iteration that sees a terminal status breaks out. *)
Lemma poll_body_finished loop env p job :
  ready env job -> Platform.faults p = [] ->
  is_terminal (Platform.job_status p (Platform.polls p)) = true ->
  exec_stmt Platform.ext loop poll_body env p =
    (final_iteration job (Platform.job_status p (Platform.polls p)),
     <["status" := VStr (Platform.job_status p (Platform.polls p))]> env,
     Platform.tick p, Break).
Proof.
  intros [H1 H2 H3 H4] Hf Ht. unfold poll_body, query_status. run.
  rewrite (ext_no_fault _ _ _ _ Hf). run.
  unfold is_terminal in Ht. cbn in Ht. rewrite Ht. run.
  rewrite append_empty_r. reflexivity.
Qed.

(** The loop computes [expected]. *)
Lemma poll_loop_expected fuel : forall env p job,
  ready env job -> Platform.faults p = [] ->
  exec Platform.ext fuel poll_loop env p = expected fuel env p job.
Proof.
  induction fuel as [|fuel IH]; intros env p job Hr Hf;
    unfold poll_loop; rewrite exec_while_true; unfold exec at 1;
    unfold expected; cbn [find_terminal];
    destruct (is_terminal (Platform.job_status p (Platform.polls p))) eqn:Ht.
  - rewrite (poll_body_finished _ _ _ _ Hr Hf Ht).
    rewrite Nat.add_0_r, after_1. reflexivity.
  - rewrite (poll_body_running _ _ _ _ Hr Hf Ht).
    rewrite Nat.add_0_r, after_1. reflexivity.
  - rewrite (poll_body_finished _ _ _ _ Hr Hf Ht).
    rewrite Nat.add_0_r, after_1. reflexivity.
  - rewrite (poll_body_running _ _ _ _ Hr Hf Ht).
    fold poll_loop.
    rewrite (IH _ (Platform.tick p) job (ready_insert_status _ _ _ Hr) Hf).
    unfold expected. cbn [Platform.tick Platform.job_status Platform.polls].
    destruct (find_terminal _ _ fuel) as [n|]; cbn.
    + rewrite insert_insert_eq, after_tick.
      replace (S (Platform.polls p + n)) with (Platform.polls p + S n) by lia.
      reflexivity.
    + rewrite insert_insert_eq, after_tick.
      replace (S (Platform.polls p + fuel)) with (Platform.polls p + S fuel) by lia.
      reflexivity.
Qed.

Lemma find_terminal_Some status : forall fuel k n,
  find_terminal status k fuel = Some n ->
  n <= fuel /\ is_terminal (status (k + n)) = true /\
  forall i, i < n -> is_terminal (status (k + i)) = false.
Proof.
  induction fuel as [|fuel IH]; intros k n; cbn [find_terminal];
    destruct (is_terminal (status k)) eqn:Ht; intros H.
  - injection H as <-. rewrite Nat.add_0_r. repeat split; [lia|done|lia].
  - discriminate.
  - injection H as <-. rewrite Nat.add_0_r. repeat split; [lia|done|lia].
  - destruct (find_terminal status (S k) fuel) as [m|] eqn:Hm; [|discriminate].
    injection H as <-. destruct (IH _ _ Hm) as (Hle & Hterm & Hbefore).
    repeat split; [lia| |].
    + by replace (k + S m) with (S k + m) by lia.
    + intros [|i] Hi; [by rewrite Nat.add_0_r|].
      replace (k + S i) with (S k + i) by lia. apply Hbefore. lia.
Qed.

Lemma find_terminal_None status : forall fuel k,
  find_terminal status k fuel = None ->
  forall i, i <= fuel -> is_terminal (status (k + i)) = false.
Proof.
  induction fuel as [|fuel IH]; intros k; cbn [find_terminal];
    destruct (is_terminal (status k)) eqn:Ht; intros H i Hi; try discriminate.
  - replace i with 0 by lia. by rewrite Nat.add_0_r.
  - destruct i as [|i]; [by rewrite Nat.add_0_r|].
    destruct (find_terminal status (S k) fuel) eqn:Hm; [discriminate|].
    replace (k + S i) with (S k + i) by lia. apply (IH _ Hm). lia.
Qed.

(** With a platform on which no call fails: the events and the end of
    the loop in full. *)
Lemma poll_loop_without_faults
    (fuel : nat) (env : gmap string value) (p : Platform.state) (job : value) :
  ready env job -> Platform.faults p = [] ->
  let status := Platform.job_status p in
  let k := Platform.polls p in
  let r := exec Platform.ext fuel poll_loop env p in
  (signal_of r = Normal \/ signal_of r = Diverge) /\
  (signal_of r = Normal ->
     exists n,
       (forall i, i < n -> is_terminal (status (k + i)) = false) /\
       is_terminal (status (k + n)) = true /\
       trace_of r =
         running_iterations job status k n ++ final_iteration job (status (k + n)) /\
       env_of r !! "status" = Some (VStr (status (k + n))) /\
       Platform.polls (world_of r) = k + S n) /\
  (signal_of r = Diverge ->
     trace_of r = running_iterations job status k (S fuel) /\
     forall i, i <= fuel -> is_terminal (status (k + i)) = false).
Proof.
  intros Hr Hf status k r. subst r.
  rewrite (poll_loop_expected fuel env p job Hr Hf). unfold expected.
  fold status k.
  destruct (find_terminal status k fuel) as [n|] eqn:Hfind; cbn.
  - destruct (find_terminal_Some _ _ _ _ Hfind) as (Hle & Hterm & Hbefore).
    split; [by left|]. split; [|discriminate].
    intros _. exists n. repeat split; try done.
    by rewrite lookup_insert_eq.
  - split; [by right|]. split; [discriminate|].
    intros _. split; [done|]. by apply find_terminal_None.
Qed.

(** C2: the loop queries the status once per iteration; after a
    non-terminal status it prints, sleeps 30 seconds and queries again.
    Whatever the platform does, the loop is left normally only by the
    iteration whose query returned "Failed", "Completed" or "Canceled",
    and [status] then holds that status; the only other way out is the
    exception of a query that failed.  When no call fails the trace is
    a run of such iterations, one query each, closed by the terminal
    one. *)
Theorem poll_loop_exits_only_on_terminal_status
    (fuel : nat) (env : gmap string value) (p : Platform.state) (job : value) :
  ready env job ->
  let status := Platform.job_status p in
  let k := Platform.polls p in
  let r := exec Platform.ext fuel poll_loop env p in
  match signal_of r with
  | Normal =>
      exists s before,
        is_terminal s = true /\
        env_of r !! "status" = Some (VStr s) /\
        trace_of r = before ++ final_iteration job s
  | Exc e =>
      exists cls before,
        e = LibError cls /\ trace_of r = before ++ [failed_query job cls]
  | Diverge => True
  | Break => False
  end /\
  (Platform.faults p = [] ->
     (signal_of r = Normal \/ signal_of r = Diverge) /\
     (signal_of r = Normal ->
        exists n,
          (forall i, i < n -> is_terminal (status (k + i)) = false) /\
          is_terminal (status (k + n)) = true /\
          trace_of r =
            running_iterations job status k n
              ++ final_iteration job (status (k + n)) /\
          env_of r !! "status" = Some (VStr (status (k + n))) /\
          Platform.polls (world_of r) = k + S n) /\
     (signal_of r = Diverge ->
        trace_of r = running_iterations job status k (S fuel) /\
        forall i, i <= fuel -> is_terminal (status (k + i)) = false)).
Proof.
  intros Hr status k r. split.
  - apply (poll_loop_exit fuel env p job Hr).
  - intros Hf. apply (poll_loop_without_faults fuel env p job Hr Hf).
Qed.

Lemma poll_loop_exits_only_on_terminal_status_witness :
  ready sample_env Platform.handle /\
  Platform.faults (Platform.quiet sample_status) = [] /\
  signal_of (exec Platform.ext 5 poll_loop sample_env (Platform.quiet sample_status))
    = Normal.
Proof.
  assert (Hr : ready sample_env Platform.handle) by (split; reflexivity).
  split; [exact Hr|]. split; [reflexivity|].
  destruct (poll_loop_exits_only_on_terminal_status 5 sample_env
              (Platform.quiet sample_status) Platform.handle Hr)
    as (_ & H).
  destruct (H eq_refl) as ([H1|H1] & _); [exact H1|].
  vm_compute in H1. discriminate H1.
Defined.

(** C4: nothing in the loop bounds it.  Whatever statuses the platform
    reports, the loop comes to an end exactly when some query returns
    "Failed", "Completed" or "Canceled"; if none ever does, no number
    of iterations ends it. *)
Theorem poll_loop_terminates_iff_terminal_status
    (env : gmap string value) (p : Platform.state) (job : value) :
  ready env job -> Platform.faults p = [] ->
  let status := Platform.job_status p in
  let k := Platform.polls p in
  ((exists fuel, signal_of (exec Platform.ext fuel poll_loop env p) <> Diverge)
     <-> exists n, is_terminal (status (k + n)) = true) /\
  (forall n, is_terminal (status (k + n)) = true ->
     forall fuel, n <= fuel ->
       signal_of (exec Platform.ext fuel poll_loop env p) = Normal) /\
  ((forall n, is_terminal (status (k + n)) = false) ->
     forall fuel, signal_of (exec Platform.ext fuel poll_loop env p) = Diverge).
Proof.
  intros Hr Hf status k.
  assert (Hrun : forall fuel,
    signal_of (exec Platform.ext fuel poll_loop env p) =
      match find_terminal status k fuel with
      | Some _ => Normal
      | None => Diverge
      end).
  { intros fuel. rewrite (poll_loop_expected fuel env p job Hr Hf).
    unfold expected. fold status k.
    by destruct (find_terminal status k fuel). }
  assert (Hdone : forall n, is_terminal (status (k + n)) = true ->
    forall fuel, n <= fuel ->
      signal_of (exec Platform.ext fuel poll_loop env p) = Normal).
  { intros n Hn fuel Hle. rewrite Hrun.
    destruct (find_terminal status k fuel) eqn:Hfind; [done|].
    rewrite (find_terminal_None _ _ _ Hfind n Hle) in Hn. discriminate. }
  split; [split|split].
  - intros [fuel Hfuel]. rewrite Hrun in Hfuel.
    destruct (find_terminal status k fuel) as [n|] eqn:Hfind; [|done].
    exists n. by destruct (find_terminal_Some _ _ _ _ Hfind) as (_ & ? & _).
  - intros [n Hn]. exists n. by rewrite (Hdone n Hn n).
  - exact Hdone.
  - intros Hnever fuel. rewrite Hrun.
    destruct (find_terminal status k fuel) as [n|] eqn:Hfind; [|done].
    destruct (find_terminal_Some _ _ _ _ Hfind) as (_ & Hn & _).
    rewrite Hnever in Hn. discriminate.
Qed.

Lemma poll_loop_terminates_iff_terminal_status_witness :
  ready sample_env Platform.handle /\
  Platform.faults (Platform.quiet never_done) = [] /\
  forall fuel,
    signal_of (exec Platform.ext fuel poll_loop sample_env (Platform.quiet never_done))
      = Diverge.
Proof.
  assert (Hr : ready sample_env Platform.handle) by (split; reflexivity).
  split; [exact Hr|]. split; [reflexivity|].
  destruct (poll_loop_terminates_iff_terminal_status sample_env
              (Platform.quiet never_done) Platform.handle Hr eq_refl)
    as (_ & _ & H).
  apply H. intros n. reflexivity.
Defined.

End PollLoop.

(** ** The platform's data assets *)

Lemma assoc_set_eq {A : Type} (k : string) (a : A) (l : list (string * A)) :
  assoc k (assoc_set k a l) = Some a.
Proof.
  induction l as [|[k' a'] l IH]; cbn.
  - by rewrite String.eqb_refl.
  - destruct (String.eqb k k') eqn:E; cbn; rewrite ?String.eqb_refl, ?E; done.
Qed.

Lemma assoc_set_ne {A : Type} (k k' : string) (a : A) (l : list (string * A)) :
  k <> k' -> assoc k (assoc_set k' a l) = assoc k l.
Proof.
  intros Hne. induction l as [|[k'' a''] l IH]; cbn.
  - by apply String.eqb_neq in Hne as ->.
  - destruct (String.eqb k' k'') eqn:E; cbn.
    + apply String.eqb_eq in E as <-. by apply String.eqb_neq in Hne as ->.
    + by rewrite IH.
Qed.

Lemma asset_name n v fs : get_attr (Platform.asset n v fs) "name" = VStr n.
Proof.
  unfold Platform.asset, get_attr.
  rewrite assoc_set_ne by done. by rewrite assoc_set_eq.
Qed.

Lemma asset_version n v fs : get_attr (Platform.asset n v fs) "version" = VStr v.
Proof.
  unfold Platform.asset, get_attr.
  rewrite !assoc_set_ne by done. by rewrite assoc_set_eq.
Qed.

(** A get that returns hands out the asset stored under that name and
    version, and leaves the platform as it is apart from the fault list. *)
Lemma data_get_returns p b pos kw a p' n v :
  Platform.ext p (VProj (VProj b "data") "get") pos kw = (Ret a, p') ->
  Platform.arg 0 "name" pos kw = Some (VStr n) ->
  Platform.arg 1 "version" pos kw = Some (VStr v) ->
  exists fs, a = Platform.asset n v fs /\
             Platform.assets p !! (n, v) = Some fs /\
             Platform.assets p' = Platform.assets p.
Proof.
  intros H Hn Hv. unfold Platform.ext, Platform.pop in H.
  destruct (Platform.faults p) as [|[cls|] fs']; try discriminate;
    cbn in H; unfold Platform.data_get in H; rewrite Hn, Hv in H; cbn in H;
    destruct (Platform.assets p !! (n, v)) as [fs|] eqn:Ha; try discriminate;
    injection H as <- <-; by exists fs.
Qed.

(** A create that returns has stored the object under its name and version. *)
Lemma data_create_returns p b cls fs a p' n v :
  Platform.ext p (VProj (VProj b "data") "create_or_update") [VObj cls fs] []
    = (Ret a, p') ->
  assoc "name" fs = Some (VStr n) ->
  assoc "version" fs = Some (VStr v) ->
  a = Platform.asset n v fs /\ Platform.assets p' !! (n, v) = Some fs.
Proof.
  intros H Hn Hv. unfold Platform.ext, Platform.pop in H.
  destruct (Platform.faults p) as [|[cls'|] fs']; try discriminate;
    cbn in H; unfold Platform.data_create_or_update in H; cbn in H;
    rewrite Hn, Hv in H; injection H as <- <-; cbn;
    by rewrite lookup_insert_eq.
Qed.

(** ** The existence checks *)

Section ExistenceChecks.

Import Existence.

Lemma names_asset c fs :
  names c (Platform.asset (chk_name c) (chk_version c) fs).
Proof. split; [apply asset_name | apply asset_version]. Qed.

(** C3: each of the three existence checks first asks the platform for
    the asset.  If that get returns, the cell creates nothing and binds
    its variable to what the get returned.  If the get raises, the
    create path runs and calls create_or_update with a data object of
    the same name and version.  Whenever the cell completes, its
    variable holds an asset of that name and version, which the
    platform then stores. *)
Theorem existence_check_creates_only_when_get_raises
    (c : check) (fuel : nat) (env : gmap string value) (p : Platform.state) :
  In c checks -> prepared c env ->
  let r := run_cell Platform.ext fuel (chk_cell c) env p in
  exists (g : reply) (rest : list event),
    trace_of r = get_event c g :: rest /\
    (forall a, g = Ret a ->
       forallb (fun ev => negb (is_create ev)) rest = true /\
       signal_of r = Normal /\ env_of r !! chk_var c = Some a) /\
    (forall cls, g = Raise cls ->
       exists d cr, In (create_event c d cr) rest /\ names c d) /\
    (signal_of r = Normal ->
       exists a, env_of r !! chk_var c = Some a /\ names c a /\
         is_Some (Platform.assets (world_of r) !! (chk_name c, chk_version c))).
Proof.
  intros Hin (Hclient & Hprint & Huses) r. subst r.
  destruct (run_cell _ _ _ _ _) as [[[tr env'] p'] sg] eqn:Hrun.
  revert Hrun.
  destruct Hin as [<-|[<-|[<-|[]]]]; cbn in Hclient.
  - (* titanic *)
    cbn [chk_cell titanic]. unfold WorkingWithData.cell_titanic.
    run. reply a cls p1 Hget; run.
    + intros [= <- <- <- <-].
      eexists _, _. split; [reflexivity|]. split; [|split].
      * intros ? [= <-]. cbn. by lookups.
      * intros ? [=].
      * intros _. exists a. cbn. lookups. split; [done|].
        destruct (data_get_returns _ _ _ _ _ _ "titanic" "1" Hget eq_refl eq_refl)
          as (fs & -> & Ha & Hp1).
        split; [apply (names_asset titanic)|]. cbn. by rewrite Hp1, Ha.
    + reply a cls' p2 Hcreate; run.
      * reply a' cls'' p3 Hget2; run; intros [= <- <- <- <-].
        -- eexists _, _. split; [reflexivity|]. split; [|split].
           ++ intros ? [=].
           ++ intros ? _. eexists _, _. split; [by left|]. by split.
           ++ intros _. exists a'. cbn. lookups. split; [done|].
              destruct (data_get_returns _ _ _ _ _ _ "titanic" "1" Hget2 eq_refl eq_refl)
                as (fs & -> & Ha & Hp3).
              split; [apply (names_asset titanic)|]. cbn. by rewrite Hp3, Ha.
        -- eexists _, _. split; [reflexivity|]. split; [|split].
           ++ intros ? [=].
           ++ intros ? _. eexists _, _. split; [by left|]. by split.
           ++ intros [=].
      * intros [= <- <- <- <-].
        eexists _, _. split; [reflexivity|]. split; [|split].
        -- intros ? [=].
        -- intros ? _. eexists _, _. split; [by left|]. by split.
        -- intros [=].
  - (* training dataset *)
    cbn [chk_cell train]. unfold FineTuning.cell_train_data.
    run. reply a cls p1 Hget; run.
    + intros [= <- <- <- <-].
      eexists _, _. split; [reflexivity|]. split; [|split].
      * intros ? [= <-]. cbn. by lookups.
      * intros ? [=].
      * intros _. exists a. cbn. lookups. split; [done|].
        destruct (data_get_returns _ _ _ _ _ _ "text_generation_train_small" "1"
                    Hget eq_refl eq_refl) as (fs & -> & Ha & Hp1).
        split; [apply (names_asset train)|]. cbn. by rewrite Hp1, Ha.
    + reply a cls' p2 Hcreate; run; intros [= <- <- <- <-].
      * eexists _, _. split; [reflexivity|]. split; [|split].
        -- intros ? [=].
        -- intros ? _. eexists _, _. split; [right; by left|]. by split.
        -- intros _. exists a. cbn. lookups. split; [done|].
           destruct (data_create_returns _ _ _ _ _ _ "text_generation_train_small" "1"
                       Hcreate eq_refl eq_refl) as (-> & Ha).
           split; [apply (names_asset train)|]. cbn. by rewrite Ha.
      * eexists _, _. split; [reflexivity|]. split; [|split].
        -- intros ? [=].
        -- intros ? _. eexists _, _. split; [right; by left|]. by split.
        -- intros [=].
  - (* validation dataset *)
    destruct (Huses "AssetTypes") as [at_ Hat]; [by left|].
    cbn [chk_cell validation]. unfold FineTuning.cell_validation_data.
    run. reply a cls p1 Hget; run.
    + intros [= <- <- <- <-].
      eexists _, _. split; [reflexivity|]. split; [|split].
      * intros ? [= <-]. cbn. by lookups.
      * intros ? [=].
      * intros _. exists a. cbn. lookups. split; [done|].
        destruct (data_get_returns _ _ _ _ _ _ "text_generation_validation_small" "1"
                    Hget eq_refl eq_refl) as (fs & -> & Ha & Hp1).
        split; [apply (names_asset validation)|]. cbn. by rewrite Hp1, Ha.
    + reply a cls' p2 Hcreate; run; intros [= <- <- <- <-].
      * eexists _, _. split; [reflexivity|]. split; [|split].
        -- intros ? [=].
        -- intros ? _. eexists _, _. split; [right; by left|]. by split.
        -- intros _. exists a. cbn. lookups. split; [done|].
           destruct (data_create_returns _ _ _ _ _ _ "text_generation_validation_small" "1"
                       Hcreate eq_refl eq_refl) as (-> & Ha).
           split; [apply (names_asset validation)|]. cbn. by rewrite Ha.
      * eexists _, _. split; [reflexivity|]. split; [|split].
        -- intros ? [=].
        -- intros ? _. eexists _, _. split; [right; by left|]. by split.
        -- intros [=].
Qed.

Lemma existence_check_creates_only_when_get_raises_witness :
  In train checks /\ prepared train sample_env /\
  exists g rest,
    trace_of (run_cell Platform.ext 0 (chk_cell train) sample_env
                present_but_unreachable) = get_event train g :: rest.
Proof.
  assert (Hin : In train checks) by (right; left; reflexivity).
  assert (Hp : prepared train sample_env).
  { split; [reflexivity|]. split; [reflexivity|]. intros x []. }
  split; [exact Hin|]. split; [exact Hp|].
  destruct (existence_check_creates_only_when_get_raises train 0 sample_env
              present_but_unreachable Hin Hp) as (g & rest & H & _).
  exists g, rest. exact H.
Defined.

(** C9: the handlers of the two dataset cells of the fine-tuning
    notebook are bare [except:] clauses.  Whatever exception the get
    statement raises - a library error of any class, an unbound name,
    an interrupt - the create path runs from the state the get left.
    So it also runs when the asset is there and the get failed for
    another reason: on a platform that holds the training dataset and
    rejects the call's credentials, the cell prints "creating dataset"
    and calls create_or_update. *)
Theorem bare_except_sends_every_exception_to_create_path :
  try_of FineTuning.cell_train_data
    = Some (FineTuning.train_get, HBare, FineTuning.train_create) /\
  try_of FineTuning.cell_validation_data
    = Some (FineTuning.validation_get, HBare, FineTuning.validation_create) /\
  (forall (c : cell) (body hbody : stmt) (h : handler),
     In c [FineTuning.cell_train_data; FineTuning.cell_validation_data] ->
     try_of c = Some (body, h, hbody) ->
     forall (W : Type)
            (ext : W -> value -> list value -> list (string * value) -> reply * W)
            (loop : stmt -> gmap string value -> W -> result)
            (env : gmap string value) (w : W) (e : exn),
       signal_of (exec_stmt ext loop body env w) = Exc e ->
       let r1 := exec_stmt ext loop body env w in
       let r2 := exec_stmt ext loop hbody (env_of r1) (world_of r1) in
       exec_stmt ext loop (STry body h hbody) env w =
         (trace_of r1 ++ trace_of r2, env_of r2, world_of r2, signal_of r2)) /\
  (is_Some (Platform.assets present_but_unreachable
              !! ("text_generation_train_small", "1")) /\
   let r := run_cell Platform.ext 0 FineTuning.cell_train_data sample_env
              present_but_unreachable in
   exists d a rest,
     trace_of r = get_event train (Raise "ClientAuthenticationError")
                    :: EvPrint "creating dataset"
                    :: create_event train d (Ret a) :: rest).
Proof.
  split; [reflexivity|]. split; [reflexivity|]. split.
  - intros c body hbody h Hc Htry W ext loop env w e He r1 r2.
    assert (h = HBare) as ->.
    { destruct Hc as [<-|[<-|[]]]; cbn in Htry; congruence. }
    subst r1 r2. cbn [exec_stmt].
    destruct (exec_stmt ext loop body env w) as [[[t1 env1] w1] g1].
    cbn in He. subst g1. cbn.
    by destruct (exec_stmt ext loop hbody env1 w1) as [[[t2 env2] w2] g2].
  - split; [by eexists|]. cbn zeta. eexists _, _, _. vm_compute. reflexivity.
Qed.

Lemma bare_except_sends_every_exception_to_create_path_witness :
  signal_of (exec_stmt Platform.ext (reenter Platform.ext 0) FineTuning.train_get
               train_env present_but_unreachable)
    = Exc (LibError "ClientAuthenticationError") /\
  In (EvPrint "creating dataset")
    (trace_of (exec_stmt Platform.ext (reenter Platform.ext 0)
                 (STry FineTuning.train_get HBare FineTuning.train_create)
                 train_env present_but_unreachable)).
Proof.
  assert (He : signal_of (exec_stmt Platform.ext (reenter Platform.ext 0)
                 FineTuning.train_get train_env present_but_unreachable)
               = Exc (LibError "ClientAuthenticationError"))
    by (vm_compute; reflexivity).
  split; [exact He|].
  destruct bare_except_sends_every_exception_to_create_path as (_ & _ & H & _).
  rewrite (H FineTuning.cell_train_data _ _ _ (or_introl eq_refl) eq_refl
             _ Platform.ext _ train_env present_but_unreachable _ He).
  vm_compute. right. left. reflexivity.
Defined.

End ExistenceChecks.

(** ** Names a run cannot bind *)

Section Frame.

Context {W : Type}.
Variable ext : W -> value -> list value -> list (string * value) -> reply * W.
Variable x : string.

Lemma import_all_frame prefix names : forall env,
  ~ In x names -> import_all prefix names env !! x = env !! x.
Proof.
  unfold import_all.
  induction names as [|n names IH]; intros env Hx; [done|]. cbn.
  rewrite IH by (intros ?; apply Hx; by right).
  apply lookup_insert_ne. intros ->. apply Hx. by left.
Qed.

Lemma exec_stmt_frame loop : keeps x loop -> keeps x (exec_stmt ext loop).
Proof.
  intros Hloop s.
  induction s as [| e | y e | y path e | mods | m names | line
                  | s1 IH1 s2 IH2 | c s1 IH1 s2 IH2 | c body IH
                  | body IH1 h hbody IH2 | ];
    intros env w Hx; cbn [exec_stmt assigned] in *.
  - done.
  - by destruct (eval ext e env w) as [[t w1] [v|ex]].
  - destruct (eval ext e env w) as [[t w1] [v|ex]]; [|done].
    cbn. apply lookup_insert_ne. intros ->. apply Hx. by left.
  - destruct (eval ext e env w) as [[t w1] [v|ex]]; [|done].
    destruct (env !! y); [|done].
    cbn. apply lookup_insert_ne. intros ->. apply Hx. by left.
  - by apply import_all_frame.
  - by apply import_all_frame.
  - done.
  - rewrite in_app_iff in Hx.
    specialize (IH1 env w). 
    destruct (exec_stmt ext loop s1 env w) as [[[t1 env1] w1] g1].
    cbn in IH1. specialize (IH2 env1 w1).
    destruct g1; try (apply IH1; tauto).
    destruct (exec_stmt ext loop s2 env1 w1) as [[[t2 env2] w2] g2].
    cbn in *. rewrite IH2, IH1; tauto.
  - rewrite in_app_iff in Hx.
    destruct (eval ext c env w) as [[t w1] [v|ex]]; [|done].
    destruct (truthy v).
    + specialize (IH1 env w1).
      destruct (exec_stmt ext loop s1 env w1) as [[[t2 env2] w2] g2].
      cbn in *. apply IH1. tauto.
    + specialize (IH2 env w1).
      destruct (exec_stmt ext loop s2 env w1) as [[[t2 env2] w2] g2].
      cbn in *. apply IH2. tauto.
  - destruct (eval ext c env w) as [[t w1] [v|ex]]; [|done].
    destruct (truthy v); [|done].
    specialize (IH env w1 Hx).
    destruct (exec_stmt ext loop body env w1) as [[[t2 env2] w2] g2].
    cbn in IH.
    destruct g2; try done.
    specialize (Hloop (SWhile c body) env2 w2 Hx).
    destruct (loop (SWhile c body) env2 w2) as [[[t3 env3] w3] g3].
    cbn in *. by rewrite Hloop.
  - rewrite !in_app_iff in Hx.
    specialize (IH1 env w).
    destruct (exec_stmt ext loop body env w) as [[[t1 env1] w1] g1].
    cbn in IH1.
    destruct g1; try (apply IH1; tauto).
    destruct (catches h e); [|apply IH1; tauto].
    specialize (IH2 (bind_exn h e env1) w1).
    destruct (exec_stmt ext loop hbody (bind_exn h e env1) w1)
      as [[[t2 env2] w2] g2].
    cbn in *.
    assert (Hh : forall m : gmap string value,
               unbind h m !! x = m !! x /\ bind_exn h e m !! x = m !! x).
    { intros m. destruct h as [|cls [y|]]; cbn; try done.
      assert (y <> x) by (intros ->; apply Hx; right; right; by left).
      by rewrite lookup_delete_ne, lookup_insert_ne. }
    rewrite (proj1 (Hh _)), IH2, (proj2 (Hh _)), IH1; tauto.
  - done.
Qed.

Lemma reenter_frame fuel : keeps x (reenter ext fuel).
Proof.
  induction fuel as [|fuel IH]; intros s env w Hx; [done|].
  cbn [reenter]. by apply exec_stmt_frame.
Qed.

Lemma exec_frame fuel : keeps x (exec ext fuel).
Proof. unfold exec. apply exec_stmt_frame, reenter_frame. Qed.

Lemma run_cell_frame fuel (c : cell) : forall env w,
  ~ In x (assigned_cell c) -> env_of (run_cell ext fuel c env w) !! x = env !! x.
Proof.
  induction c as [|s c IH]; intros env w Hx; [done|].
  cbn [run_cell]. unfold assigned_cell in Hx. cbn in Hx.
  rewrite in_app_iff in Hx.
  destruct (break_outside_loop s); [done|].
  pose proof (exec_frame fuel s env w) as Hs.
  destruct (exec ext fuel s env w) as [[[t1 env1] w1] g1]. cbn in Hs.
  destruct g1; try (apply Hs; tauto).
  specialize (IH env1 w1).
  destruct (run_cell ext fuel c env1 w1) as [[[t2 env2] w2] g2].
  cbn in *. rewrite IH, Hs; tauto.
Qed.

Lemma run_cells_frame halt fuel (cs : list cell) : forall env w,
  (forall c, In c cs -> ~ In x (assigned_cell c)) ->
  env_of (run_cells ext halt fuel cs env w) !! x = env !! x.
Proof.
  induction cs as [|c cs IH]; intros env w Hx; [done|].
  cbn [run_cells].
  pose proof (run_cell_frame fuel c env w (Hx c (or_introl eq_refl))) as Hc.
  destruct (run_cell ext fuel c env w) as [[[t1 env1] w1] g1]. cbn in Hc.
  assert (Hrest : env_of (run_cells ext halt fuel cs env1 w1) !! x = env !! x).
  { rewrite IH; [done|]. intros c' Hc'. apply Hx. by right. }
  destruct (run_cells ext halt fuel cs env1 w1) as [[[t2 env2] w2] g2].
  destruct g1; try done. by destruct halt.
Qed.

End Frame.

Lemma never_assigned_spec (x : string) (cs : list cell) :
  never_assigned x cs = true ->
  forall c, In c cs -> ~ In x (assigned_cell c).
Proof.
  unfold never_assigned. rewrite forallb_forall. intros H c Hc Hx.
  specialize (H c Hc). apply negb_true_iff in H.
  assert (existsb (String.eqb x) (assigned_cell c) = true) as E; [|congruence].
  apply existsb_exists. exists x. split; [done|]. apply String.eqb_refl.
Qed.

(** ** The inference request *)

Section Inference.

Import FineTuning.
Context {W : Type}.
Variable ext : W -> value -> list value -> list (string * value) -> reply * W.

(** Wherever [auth_key] is unbound the cell stops at a [NameError]
    before it calls anything. *)
Lemma inference_cell_unbound fuel env w :
  env !! "auth_key" = None ->
  let r := run_cell ext fuel cell_inference env w in
  trace_of r = [] /\ world_of r = w /\
  exists x, signal_of r = Exc (NameError x) /\
    (x = "auth_key" /\ is_Some (env !! "endpoint") \/
     x = "endpoint" /\ env !! "endpoint" = None).
Proof.
  intros Hkey r. subst r. unfold cell_inference. run.
  destruct (env !! "endpoint") as [v|] eqn:He; run.
  - repeat split; try done. exists "auth_key". split; [done|]. left. by eauto.
  - repeat split; try done. exists "endpoint". split; [done|]. by right.
Qed.

(** C10: no cell of the notebook assigns [auth_key].  So after the cells
    above it have been evaluated in order - whether the run stopped at
    the first error or went on - the name is unbound, and evaluating the
    inference cell raises [NameError] with an empty trace: for
    [auth_key] when [endpoint] is bound, for [endpoint] otherwise.  No
    request is sent. *)
Theorem inference_cell_raises_NameError (halt : bool) (fuel fuel' : nat) (w : W) :
  never_assigned "auth_key" notebook = true /\
  let before := run_cells ext halt fuel cells_before_inference fresh_env w in
  let r := run_cell ext fuel' cell_inference (env_of before) (world_of before) in
  env_of before !! "auth_key" = None /\
  trace_of r = [] /\
  existsb (calls_site "requests.post") (trace_of r) = false /\
  exists x, signal_of r = Exc (NameError x) /\
    (x = "auth_key" /\ is_Some (env_of before !! "endpoint") \/
     x = "endpoint" /\ env_of before !! "endpoint" = None).
Proof.
  assert (Hna : never_assigned "auth_key" notebook = true) by (vm_compute; reflexivity).
  split; [exact Hna|]. intros before r.
  assert (Hkey : env_of before !! "auth_key" = None).
  { subst before. rewrite run_cells_frame; [reflexivity|].
    intros c Hc. apply (never_assigned_spec _ _ Hna).
    unfold notebook. apply in_app_iff. by left. }
  split; [exact Hkey|].
  destruct (inference_cell_unbound fuel' _ (world_of before) Hkey) as (Ht & _ & Hx).
  fold r in Ht, Hx. split; [exact Ht|]. split; [by rewrite Ht|]. exact Hx.
Qed.

End Inference.

(** On a platform where every call succeeds and the job completes, going
    through the cells one after the other binds [endpoint], and the
    inference cell stops at the [NameError] for [auth_key]. *)
Example inference_reached_without_auth_key :
  let before := run_cells Platform.ext false 5 FineTuning.cells_before_inference
                  fresh_env (Platform.quiet Poll.sample_status) in
  is_Some (env_of before !! "endpoint") /\
  signal_of (run_cell Platform.ext 0 FineTuning.cell_inference
               (env_of before) (world_of before))
    = Exc (NameError "auth_key").
Proof. split; [by eexists|]. vm_compute. reflexivity. Qed.

(** ** The order of the stages *)

Scheme expr_args_ind := Induction for expr Sort Prop
  with args_expr_ind := Induction for args Sort Prop.
Combined Scheme expr_args_mutind from expr_args_ind, args_expr_ind.

#[local] Arguments Stages.stage_of_site : simpl never.

Section StageOrder.

Import Stages.
Context {W : Type}.
Variable ext : W -> value -> list value -> list (string * value) -> reply * W.

Lemma ranks_app t1 t2 : ranks (t1 ++ t2) = ranks t1 ++ ranks t2.
Proof. apply omap_app. Qed.

Lemma sat_unstaged sp tr : ranks tr = [] -> sat sp tr.
Proof.
  intros H. destruct sp as [[lo hi]|]; cbn; rewrite ?H; [|done].
  split; constructor.
Qed.

Lemma sat_nil sp : sat sp [].
Proof. by apply sat_unstaged. Qed.

Lemma sat_then a b c t1 t2 :
  then_ a b = Some c -> sat a t1 -> sat b t2 -> sat c (t1 ++ t2).
Proof.
  destruct a as [[l1 h1]|], b as [[l2 h2]|]; cbn [then_ sat].
  - destruct (h1 <=? l2)%nat eqn:E; [|discriminate].
    apply Nat.leb_le in E. intros [= <-] [S1 F1] [S2 F2]. cbn.
    rewrite ranks_app. rewrite Forall_forall in F1, F2. split.
    + apply StronglySorted_app_2; [|done..].
      intros x1 x2 H1 H2. apply F1 in H1. apply F2 in H2. lia.
    + apply Forall_app. split; apply Forall_forall; intros k Hk.
      * apply F1 in Hk. lia.
      * apply F2 in Hk. lia.
  - intros [= <-] H1 H2. cbn. by rewrite ranks_app, H2, app_nil_r.
  - intros [= <-] H1 H2. cbn. by rewrite ranks_app, H1.
  - intros [= <-] H1 H2. cbn. by rewrite ranks_app, H1, H2.
Qed.

Lemma sat_then_l a b c t : then_ a b = Some c -> sat a t -> sat c t.
Proof.
  intros H Ha. rewrite <- (app_nil_r t). eapply sat_then; eauto using sat_nil.
Qed.

Lemma sat_then_r a b c t : then_ a b = Some c -> sat b t -> sat c t.
Proof.
  intros H Hb. change t with ([] ++ t). eapply sat_then; eauto using sat_nil.
Qed.

Lemma sat_either_l a b t : sat a t -> sat (either a b) t.
Proof.
  destruct a as [[l1 h1]|], b as [[l2 h2]|]; cbn; try done.
  - intros [S F]. split; [done|]. eapply Forall_impl; [exact F|]. cbn. lia.
  - intros H. rewrite H. split; constructor.
Qed.

Lemma sat_either_r a b t : sat b t -> sat (either a b) t.
Proof.
  destruct a as [[l1 h1]|], b as [[l2 h2]|]; cbn; try done.
  - intros [S F]. split; [done|]. eapply Forall_impl; [exact F|]. cbn. lia.
  - intros H. rewrite H. split; constructor.
Qed.

Lemma sat_repeat a c t1 t2 :
  repeat_ a = Some c -> sat c t1 -> sat c t2 -> sat c (t1 ++ t2).
Proof.
  destruct a as [[l h]|]; cbn [repeat_].
  - destruct (h <=? l)%nat eqn:E; [|discriminate].
    apply Nat.leb_le in E. intros [= <-] [S1 F1] [S2 F2]. cbn.
    rewrite ranks_app. rewrite Forall_forall in F1, F2. split.
    + apply StronglySorted_app_2; [|done..].
      intros x1 x2 H1 H2. apply F1 in H1. apply F2 in H2. lia.
    + apply Forall_app. split; by apply Forall_forall.
  - intros [= <-] H1 H2. cbn in *. by rewrite ranks_app, H1, H2.
Qed.

Lemma repeat_same a c : repeat_ a = Some c -> c = a.
Proof.
  destruct a as [[l h]|]; cbn; [|congruence].
  destruct (h <=? l)%nat; congruence.
Qed.

Lemma sat_bind {A B : Type} (m : M A) (k : A -> M B) x y z w :
  then_ x y = Some z ->
  sat x (tr_of (W:=W) (m w)) ->
  (forall a w', sat y (tr_of (W:=W) (k a w'))) ->
  sat z (tr_of (W:=W) (bind m k w)).
Proof.
  intros Hz Hm Hk. unfold bind.
  destruct (m w) as [[t1 w1] [a|e]]; cbn in *.
  - specialize (Hk a w1). destruct (k a w1) as [[t2 w2] r]. cbn in *.
    by eapply sat_then.
  - by eapply sat_then_l.
Qed.

Lemma sat_bind_quiet {A B : Type} (m : M A) (k : A -> M B) x w :
  sat x (tr_of (W:=W) (m w)) ->
  (forall a w', tr_of (W:=W) (k a w') = []) ->
  sat x (tr_of (W:=W) (bind m k w)).
Proof.
  intros Hm Hk. eapply (sat_bind m k x None); [by destruct x as [[??]|] | done |].
  intros a w'. cbn. by rewrite Hk.
Qed.

Lemma ranks_call site f pos kw r :
  ranks [EvCall site f pos kw r] =
    match stage_of_site site with
    | Some s => [rank s]
    | None => []
    end.
Proof.
  unfold ranks. cbn [omap list_omap stage_of_event].
  by destruct (stage_of_site site).
Qed.

Lemma call_event_sat site f pos kw r :
  sat (site_span site) [EvCall site f pos kw r].
Proof.
  unfold sat, site_span. rewrite ranks_call.
  destruct (stage_of_site site); [|done].
  split; [repeat constructor | constructor; [lia|constructor]].
Qed.

Lemma external_sat site f pos kw w :
  sat (site_span site) (tr_of (W:=W) (external ext site f pos kw w)).
Proof.
  unfold external.
  destruct (ext w f pos kw) as [[v|cls] w']; apply call_event_sat.
Qed.

Lemma call_sat site f pos kw w :
  sat (site_span site) (tr_of (W:=W) (call ext site f pos kw w)).
Proof.
  unfold call.
  destruct f; try apply external_sat.
  - repeat case_match; try apply external_sat; by apply sat_unstaged.
  - destruct f; try apply external_sat.
    case_match; try apply external_sat; by apply sat_unstaged.
Qed.

Lemma sat_bind_repeat {A B : Type} (m : M A) (k : A -> M B) a c w :
  repeat_ a = Some c ->
  sat c (tr_of (W:=W) (m w)) ->
  (forall x w', sat c (tr_of (W:=W) (k x w'))) ->
  sat c (tr_of (W:=W) (bind m k w)).
Proof.
  intros Hc Hm Hk. unfold bind.
  destruct (m w) as [[t1 w1] [x|e]]; cbn in *; [|done].
  specialize (Hk x w1). destruct (k x w1) as [[t2 w2] r]. cbn in *.
  by eapply sat_repeat.
Qed.

Lemma quiet_index v k w : tr_of (W:=W) (index v k w) = [].
Proof. unfold index. destruct v, k; cbn; try done. by destruct (assoc _ _). Qed.

Lemma quiet_slice v lo hi w : tr_of (W:=W) (slice v lo hi w) = [].
Proof. unfold slice. by destruct v. Qed.

Lemma quiet_contains x l w : tr_of (W:=W) (contains x l w) = [].
Proof. unfold contains. by destruct l. Qed.

Lemma quiet_add a b w : tr_of (W:=W) (add a b w) = [].
Proof.
  unfold add. destruct a, b; cbn; try done; by destruct (opaque _ || opaque _).
Qed.

Lemma and_then_Some a f c :
  and_then a f = Some c -> exists x, a = Some x /\ f x = Some c.
Proof. destruct a as [x|]; [|discriminate]. intros H. by exists x. Qed.

Ltac spans H :=
  repeat match type of H with
    | and_then _ _ = Some _ =>
        let x := fresh "x" in let Hx := fresh "Hx" in
        apply and_then_Some in H as (x & Hx & H)
    end.

Lemma eval_flow :
  (forall e sp, flow_e e = Some sp ->
     forall env w, sat sp (tr_of (W:=W) (eval ext e env w))) /\
  (forall a sp, flow_a a = Some sp ->
     forall env w, sat sp (tr_of (W:=W) (eval_args ext a env w))).
Proof.
  apply expr_args_mutind.
  - intros. apply sat_nil.
  - intros. apply sat_nil.
  - intros. apply sat_nil.
  - intros. apply sat_nil.
  - intros var sp _ env w. cbn [eval]. destruct (env !! var); apply sat_nil.
  - intros e IH a sp H env w. cbn [eval flow_e] in *.
    apply sat_bind_quiet; [by apply IH | done].
  - intros e IHe k IHk sp H env w. cbn [eval flow_e] in *. spans H.
    eapply sat_bind; [exact H | by apply IHe |].
    intros v w'. apply sat_bind_quiet; [by apply IHk |].
    intros; apply quiet_index.
  - intros e IH lo hi sp H env w. cbn [eval flow_e] in *.
    apply sat_bind_quiet; [by apply IH |]. intros; apply quiet_slice.
  - intros f IHf a IHa sp H env w. cbn [eval flow_e] in *. spans H.
    eapply sat_bind; [exact H | by apply IHf |].
    intros fv w'. eapply sat_bind; [exact Hx1 | by apply IHa |].
    intros pk w''. apply call_sat.
  - intros a IH sp H env w. cbn [eval flow_e] in *.
    apply sat_bind_quiet; [by apply IH | done].
  - intros a IH sp H env w. cbn [eval flow_e] in *.
    apply sat_bind_quiet; [by apply IH | done].
  - intros a IH sp H env w. cbn [eval flow_e] in *.
    apply sat_bind_quiet; [by apply IH | done].
  - intros e IHe l IHl sp H env w. cbn [eval flow_e] in *. spans H.
    eapply sat_bind; [exact H | by apply IHe |].
    intros v w'. apply sat_bind_quiet; [by apply IHl |].
    intros; apply quiet_contains.
  - intros e1 IH1 e2 IH2 sp H env w. cbn [eval flow_e] in *. spans H.
    eapply sat_bind; [exact H | by apply IH1 |].
    intros v w'. apply sat_bind_quiet; [by apply IH2 |].
    intros; apply quiet_add.
  - intros elt IHelt var iter IHiter sp H env w. cbn [eval flow_e] in *. spans H.
    eapply sat_bind; [exact H | by apply IHiter |].
    intros it w'.
    pose proof (repeat_same _ _ Hx1) as ->.
    destruct it; try (destruct (opaque _); apply sat_nil); try apply sat_nil.
    apply sat_bind_quiet; [|done].
    revert w'. induction vs as [|v vs IHvs]; intros w'; [apply sat_nil|].
    eapply sat_bind_repeat; [exact Hx1 | by apply IHelt |].
    intros r w''. apply sat_bind_quiet; [apply IHvs | done].
  - intros sp _ env w. apply sat_nil.
  - intros e IHe rest IHrest sp H env w. cbn [eval_args flow_a] in *. spans H.
    eapply sat_bind; [exact H | by apply IHe |].
    intros v w'. apply sat_bind_quiet; [by apply IHrest | done].
  - intros k e IHe rest IHrest sp H env w. cbn [eval_args flow_a] in *. spans H.
    eapply sat_bind; [exact H | by apply IHe |].
    intros v w'. apply sat_bind_quiet; [by apply IHrest | done].
Qed.

Lemma eval_sat e sp env w t w1 r :
  flow_e e = Some sp -> eval ext e env w = (t, w1, r) -> sat sp t.
Proof.
  intros H E. pose proof (proj1 eval_flow e sp H env w) as Hs.
  by rewrite E in Hs.
Qed.

Lemma exec_stmt_flow loop : sound loop -> sound (exec_stmt ext loop).
Proof.
  intros Hloop s.
  induction s as [| e | y e | y path e | mods | m names | line
                  | s1 IH1 s2 IH2 | c s1 IH1 s2 IH2 | c body IH
                  | body IH1 h hbody IH2 | ];
    intros sp Hflow env w; cbn [exec_stmt flow] in *;
    try apply sat_nil.
  - destruct (eval ext e env w) as [[t w1] [v|ex]] eqn:E;
      by eapply eval_sat.
  - destruct (eval ext e env w) as [[t w1] [v|ex]] eqn:E;
      by eapply eval_sat.
  - destruct (eval ext e env w) as [[t w1] [v|ex]] eqn:E;
      [destruct (env !! y)|]; by eapply eval_sat.
  - spans Hflow. specialize (IH1 _ Hx env w).
    destruct (exec_stmt ext loop s1 env w) as [[[t1 env1] w1] g1].
    cbn in IH1. destruct g1; try by eapply sat_then_l.
    specialize (IH2 _ Hx0 env1 w1).
    destruct (exec_stmt ext loop s2 env1 w1) as [[[t2 env2] w2] g2].
    by eapply sat_then.
  - spans Hflow.
    destruct (eval ext c env w) as [[t w1] [v|ex]] eqn:E;
      [|eapply sat_then_l; [exact Hflow | by eapply eval_sat]].
    assert (sat (either x0 x1)
              (trace_of (exec_stmt ext loop (if truthy v then s1 else s2) env w1))).
    { destruct (truthy v); [by apply sat_either_l, IH1 | by apply sat_either_r, IH2]. }
    destruct (exec_stmt ext loop (if truthy v then s1 else s2) env w1)
      as [[[t2 env2] w2] g2].
    eapply sat_then; [exact Hflow | by eapply eval_sat | done].
  - pose proof Hflow as Hwhole. spans Hflow.
    pose proof (repeat_same _ _ Hflow) as ->.
    destruct (eval ext c env w) as [[t w1] [v|ex]] eqn:E;
      [|eapply sat_then_l; [exact Hx1 | by eapply eval_sat]].
    destruct (truthy v);
      [|eapply sat_then_l; [exact Hx1 | by eapply eval_sat]].
    specialize (IH _ Hx0 env w1).
    destruct (exec_stmt ext loop body env w1) as [[[t2 env2] w2] g2].
    cbn in IH.
    assert (sat x1 (t ++ t2))
      by (eapply sat_then; [exact Hx1 | by eapply eval_sat | done]).
    destruct g2; try done.
    specialize (Hloop (SWhile c body) x1 Hwhole env2 w2).
    destruct (loop (SWhile c body) env2 w2) as [[[t3 env3] w3] g3].
    cbn in *. rewrite app_assoc. by eapply sat_repeat.
  - spans Hflow. specialize (IH1 _ Hx env w).
    destruct (exec_stmt ext loop body env w) as [[[t1 env1] w1] g1].
    cbn in IH1. destruct g1; try by eapply sat_then_l.
    destruct (catches h e); [|by eapply sat_then_l].
    specialize (IH2 _ Hx0 (bind_exn h e env1) w1).
    destruct (exec_stmt ext loop hbody (bind_exn h e env1) w1)
      as [[[t2 env2] w2] g2].
    by eapply sat_then.
Qed.

Lemma reenter_flow fuel : sound (reenter ext fuel).
Proof.
  induction fuel as [|fuel IH]; intros s sp H env w; [apply sat_nil|].
  cbn [reenter]. by apply exec_stmt_flow.
Qed.

Lemma exec_flow fuel : sound (exec ext fuel).
Proof. unfold exec. apply exec_stmt_flow, reenter_flow. Qed.

Lemma run_cell_flow fuel (c : cell) : forall sp env w,
  flow_cell c = Some sp -> sat sp (trace_of (run_cell ext fuel c env w)).
Proof.
  induction c as [|s c IH]; intros sp env w H; [apply sat_nil|].
  cbn [run_cell flow_cell] in *. spans H.
  destruct (break_outside_loop s); [apply sat_nil|].
  pose proof (exec_flow fuel s _ Hx env w) as Hs.
  destruct (exec ext fuel s env w) as [[[t1 env1] w1] g1]. cbn in Hs.
  destruct g1; try by eapply sat_then_l.
  specialize (IH _ env1 w1 Hx0).
  destruct (run_cell ext fuel c env1 w1) as [[[t2 env2] w2] g2].
  by eapply sat_then.
Qed.

Lemma run_cells_flow halt fuel (cs : list cell) : forall sp env w,
  flow_cells cs = Some sp -> sat sp (trace_of (run_cells ext halt fuel cs env w)).
Proof.
  induction cs as [|c cs IH]; intros sp env w H; [apply sat_nil|].
  cbn [run_cells flow_cells] in *. spans H.
  pose proof (run_cell_flow fuel c _ env w Hx) as Hc.
  destruct (run_cell ext fuel c env w) as [[[t1 env1] w1] g1]. cbn in Hc.
  specialize (IH _ env1 w1 Hx0).
  destruct (run_cells ext halt fuel cs env1 w1) as [[[t2 env2] w2] g2].
  cbn in IH.
  assert (sat sp (t1 ++ t2)) by by eapply sat_then.
  assert (sat sp t1) by by eapply sat_then_l.
  destruct g1; try done. by destruct halt.
Qed.


End StageOrder.

(** ** Failed calls are not retried *)

Section NoRetry.

Import Retry.
Context {W : Type}.
Variable ext : W -> value -> list value -> list (string * value) -> reply * W.

Lemma clean_removelast tr : clean tr -> clean (removelast tr).
Proof.
  unfold clean. induction tr as [|ev tr IH]; intros H; [done|].
  inversion H; subst. cbn. destruct tr; constructor; [done|]. by apply IH.
Qed.

Lemma clean_tidy b tr : clean tr -> tidy b tr.
Proof. destruct b; cbn; [apply clean_removelast | done]. Qed.

Lemma tidy_app b t1 t2 : clean t1 -> tidy b t2 -> tidy b (t1 ++ t2).
Proof.
  intros H1 H2. destruct b; cbn in *; [|by apply Forall_app].
  destruct t2 as [|ev t2].
  - rewrite app_nil_r. by apply clean_removelast.
  - rewrite removelast_app by done. by apply Forall_app.
Qed.

Lemma tidy_nil b : tidy b [].
Proof. apply clean_tidy. constructor. Qed.

Lemma tidy_bind {A B : Type} (m : M A) (k : A -> M B) w :
  tidy_m (W:=W) (m w) -> (forall a w', tidy_m (W:=W) (k a w')) -> tidy_m (W:=W) (bind m k w).
Proof.
  unfold tidy_m, bind. intros Hm Hk.
  destruct (m w) as [[t1 w1] [a|e]]; cbn in *; [|done].
  specialize (Hk a w1). destruct (k a w1) as [[t2 w2] r]. cbn in *.
  by apply tidy_app.
Qed.

Lemma tidy_quiet {A : Type} (x : list event * W * (A + exn)) :
  x.1.1 = [] -> tidy_m x.
Proof. unfold tidy_m. intros ->. apply tidy_nil. Qed.

Lemma tidy_external site f pos kw w : tidy_m (W:=W) (external ext site f pos kw w).
Proof.
  unfold tidy_m, external.
  destruct (ext w f pos kw) as [[v|cls] w']; cbn; by repeat constructor.
Qed.

Lemma tidy_call site f pos kw w : tidy_m (W:=W) (call ext site f pos kw w).
Proof.
  unfold call.
  destruct f; try apply tidy_external.
  - repeat case_match; try apply tidy_external;
      unfold tidy_m; cbn; by repeat constructor.
  - destruct f; try apply tidy_external.
    case_match; try apply tidy_external.
    unfold tidy_m; cbn; by repeat constructor.
Qed.

Lemma eval_tidy :
  (forall e env w, tidy_m (W:=W) (eval ext e env w)) /\
  (forall a env w, tidy_m (W:=W) (eval_args ext a env w)).
Proof.
  apply expr_args_mutind; intros; cbn [eval eval_args];
    try (by apply tidy_quiet);
    repeat (apply tidy_bind; [done|]; intros);
    try (by apply tidy_quiet).
  - destruct (env !! x); by apply tidy_quiet.
  - apply tidy_quiet. unfold index. destruct a, a0; cbn; try done.
    by destruct (assoc _ _).
  - apply tidy_quiet. unfold slice. by destruct a.
  - apply tidy_call.
  - apply tidy_quiet. unfold contains. by destruct a0.
  - apply tidy_quiet. unfold add.
    destruct a, a0; cbn; try done; by destruct (opaque _ || opaque _).
  - destruct a; try (destruct (opaque _); by apply tidy_quiet);
      try by apply tidy_quiet.
    apply tidy_bind; [|intros; by apply tidy_quiet].
    generalize w'. induction vs as [|v vs IHvs]; intros w''; [by apply tidy_quiet|].
    apply tidy_bind; [done|]. intros.
    apply tidy_bind; [apply IHvs|]. intros; by apply tidy_quiet.
Qed.

Lemma tidy_eval e env w t w1 r :
  eval ext e env w = (t, w1, r) -> tidy (is_inr r) t.
Proof.
  intros E. pose proof (proj1 eval_tidy e env w) as H.
  unfold tidy_m in H. by rewrite E in H.
Qed.

Lemma exec_stmt_tidy loop : tidy_loop loop -> tidy_loop (exec_stmt ext loop).
Proof.
  intros Hloop s. unfold tidy_result.
  induction s as [| e | y e | y path e | mods | m names | line
                  | s1 IH1 s2 IH2 | c s1 IH1 s2 IH2 | c body IH
                  | body IH1 h hbody IH2 | ];
    intros env w Hfree; cbn [exec_stmt try_free] in *;
    try (apply tidy_nil); try discriminate.
  - destruct (eval ext e env w) as [[t w1] [v|ex]] eqn:E;
      pose proof (tidy_eval _ _ _ _ _ _ E) as Ht; exact Ht.
  - destruct (eval ext e env w) as [[t w1] [v|ex]] eqn:E;
      pose proof (tidy_eval _ _ _ _ _ _ E) as Ht; exact Ht.
  - destruct (eval ext e env w) as [[t w1] [v|ex]] eqn:E;
      pose proof (tidy_eval _ _ _ _ _ _ E) as Ht; [|exact Ht].
    destruct (env !! y); [exact Ht|]. by apply clean_removelast.
  - cbn. by repeat constructor.
  - apply andb_true_iff in Hfree as [F1 F2].
    specialize (IH1 env w F1).
    destruct (exec_stmt ext loop s1 env w) as [[[t1 env1] w1] g1].
    cbn in IH1. destruct g1; try done.
    specialize (IH2 env1 w1 F2).
    destruct (exec_stmt ext loop s2 env1 w1) as [[[t2 env2] w2] g2].
    cbn in *. by apply tidy_app.
  - apply andb_true_iff in Hfree as [F1 F2].
    destruct (eval ext c env w) as [[t w1] [v|ex]] eqn:E;
      pose proof (tidy_eval _ _ _ _ _ _ E) as Ht; cbn in Ht; [|done].
    assert (tidy_result (exec_stmt ext loop (if truthy v then s1 else s2) env w1)) as H
      by (destruct (truthy v); [by apply IH1 | by apply IH2]).
    unfold tidy_result in H.
    destruct (exec_stmt ext loop (if truthy v then s1 else s2) env w1)
      as [[[t2 env2] w2] g2].
    cbn in *. by apply tidy_app.
  - destruct (eval ext c env w) as [[t w1] [v|ex]] eqn:E;
      pose proof (tidy_eval _ _ _ _ _ _ E) as Ht; cbn in Ht; [|done].
    destruct (truthy v); [|done].
    specialize (IH env w1 Hfree).
    destruct (exec_stmt ext loop body env w1) as [[[t2 env2] w2] g2].
    cbn in IH.
    destruct g2; cbn in *;
      try (by apply (tidy_app true)); try (by apply (tidy_app false)).
    specialize (Hloop (SWhile c body) env2 w2 Hfree). unfold tidy_result in Hloop.
    destruct (loop (SWhile c body) env2 w2) as [[[t3 env3] w3] g3].
    cbn in *. apply tidy_app; [done|]. by apply tidy_app.
Qed.

Lemma reenter_tidy fuel : tidy_loop (reenter ext fuel).
Proof.
  induction fuel as [|fuel IH]; intros s env w H; [apply tidy_nil|].
  cbn [reenter]. by apply exec_stmt_tidy.
Qed.

(** In a cell without [try], a call that fails ends the cell. *)
Lemma run_cell_tidy fuel (c : cell) : forall env w,
  try_free_cell c = true -> tidy_result (run_cell ext fuel c env w).
Proof.
  unfold tidy_result.
  induction c as [|s c IH]; intros env w H; [apply tidy_nil|].
  cbn [run_cell try_free_cell forallb] in *.
  apply andb_true_iff in H as [Hs Hc].
  destruct (break_outside_loop s); [apply tidy_nil|].
  pose proof (exec_stmt_tidy _ (reenter_tidy fuel) s env w Hs) as H1.
  unfold tidy_result in H1. fold (exec ext fuel s env w) in H1.
  destruct (exec ext fuel s env w) as [[[t1 env1] w1] g1]. cbn in H1.
  destruct g1; try done.
  specialize (IH env1 w1 Hc).
  destruct (run_cell ext fuel c env1 w1) as [[[t2 env2] w2] g2].
  cbn in *. by apply tidy_app.
Qed.

(** A failed call that is the last event is followed by nothing. *)
Lemma tidy_no_retry b tr :
  tidy b tr -> reinvocations tr = 0 /\ delayed_retry tr = false.
Proof.
  intros H. assert (Hl : clean (removelast tr))
    by (destruct b; [done | by apply clean_removelast]).
  clear H. induction tr as [|ev tr IH]; [done|].
  cbn [reinvocations delayed_retry].
  destruct tr as [|ev' tr].
  - cbn. split; [by destruct (failed ev) | by rewrite andb_false_r].
  - cbn [removelast] in Hl. inversion Hl as [|? ? Hev Hrest]; subst.
    rewrite Hev. cbn. by apply IH.
Qed.

End NoRetry.

(** Follow both outcomes of every call to the platform. *)
Ltac explore :=
  run;
  try (rewrite ext_pop;
       let cls := fresh "cls" in
       let p' := fresh "p" in
       destruct (Platform.pop _) as [[cls|] p']; explore).

Section TryCells.

Import Retry Existence.

Lemma connect_no_retry fuel env p :
  let tr := trace_of (run_cell Platform.ext fuel FineTuning.cell_connect env p) in
  reinvocations tr = 0 /\ delayed_retry tr = false.
Proof.
  intros tr. subst tr.
  destruct (run_cell _ _ _ _ _) as [[[tr env'] p'] sg] eqn:Hrun.
  revert Hrun. unfold FineTuning.cell_connect.
  explore.
  all: intros [= <- <- <- <-].
  all: split; reflexivity.
Qed.

Lemma dataset_cells_no_retry c fuel env p :
  In c [train; validation] -> prepared c env ->
  let tr := trace_of (run_cell Platform.ext fuel (chk_cell c) env p) in
  reinvocations tr = 0 /\ delayed_retry tr = false.
Proof.
  intros Hin (Hclient & Hprint & Huses) tr. subst tr.
  destruct (run_cell _ _ _ _ _) as [[[tr env'] p'] sg] eqn:Hrun.
  revert Hrun.
  destruct Hin as [<-|[<-|[]]]; cbn in Hclient.
  - cbn [chk_cell train]. unfold FineTuning.cell_train_data.
    run. reply a cls p1 Hget; run; [|reply a cls' p2 Hcreate; run];
      intros [= <- <- <- <-]; split; reflexivity.
  - destruct (Huses "AssetTypes") as [at_ Hat]; [by left|].
    cbn [chk_cell validation]. unfold FineTuning.cell_validation_data.
    run. reply a cls p1 Hget; run; [|reply a cls' p2 Hcreate; run];
      intros [= <- <- <- <-]; split; reflexivity.
Qed.

(** The titanic cell reads the asset back after creating it: the get
    that failed is made once more. *)
Lemma titanic_reads_back fuel env p :
  prepared titanic env ->
  let tr := trace_of (run_cell Platform.ext fuel WorkingWithData.cell_titanic env p) in
  delayed_retry tr = false /\
  (reinvocations tr = 0 \/
   reinvocations tr = 1 /\
   exists cls d a g rest,
     tr = get_event titanic (Raise cls) :: create_event titanic d (Ret a)
            :: get_event titanic g :: rest).
Proof.
  intros (Hclient & Hprint & Huses) tr. subst tr.
  destruct (run_cell _ _ _ _ _) as [[[tr env'] p'] sg] eqn:Hrun.
  revert Hrun. cbn in Hclient. unfold WorkingWithData.cell_titanic.
  run. reply a cls p1 Hget; run.
  - intros [= <- <- <- <-]. split; [reflexivity|]. by left.
  - reply a cls' p2 Hcreate; run.
    + reply a' cls'' p3 Hget2; run; intros [= <- <- <- <-];
        (split; [reflexivity|]); right; (split; [reflexivity|]);
        by eexists _, _, _, _, _.
    + intros [= <- <- <- <-]. split; [reflexivity|]. by left.
Qed.

Lemma cells_with_try :
  List.filter (fun c => negb (try_free_cell c)) all_cells =
    [ FineTuning.cell_connect; FineTuning.cell_train_data;
      FineTuning.cell_validation_data; WorkingWithData.cell_titanic ].
Proof. vm_compute. reflexivity. Qed.




End TryCells.

(** ** The CI workflows *)

Section Workflows.

Import Workflow.

Lemma eqb_in (x : string) (l : list string) :
  existsb (String.eqb x) l = true <-> In x l.
Proof.
  rewrite existsb_exists. split.
  - intros (y & Hy & E). by apply String.eqb_eq in E as ->.
  - intros H. exists x. split; [done|]. apply String.eqb_refl.
Qed.

(** A pull request starts the workflow exactly when it targets a listed
    branch and changes a file that matches a listed path. *)
Lemma triggered_by_pull_request w pr base changed :
  on_pull_request (on w) = Some pr ->
  triggered w (PullRequest base changed) = true <->
  In base (branches pr) /\
  exists f pat, In f changed /\ In pat (paths pr) /\ path_matches pat f = true.
Proof.
  intros Hpr. cbn. rewrite Hpr, andb_true_iff, eqb_in, existsb_exists.
  split; intros [Hb H]; (split; [done|]).
  - destruct H as (f & Hf & H). apply existsb_exists in H as (pat & Hpat & H).
    by exists f, pat.
  - destruct H as (f & pat & Hf & Hpat & H). exists f. split; [done|].
    apply existsb_exists. by exists pat.
Qed.

(** C5: each of the two workflows has a cron schedule and a pull-request
    trigger for the branch [main] with a list of paths; a pull request
    starts it exactly when it targets [main] and changes a file under
    one of these paths.  Each has one job, whose steps are, in this
    order: checkout, Python setup, pip install, login with credentials
    from a secret, installation of the CLI extension, attaching the
    workspace, and then one or more steps that run a script or a
    notebook. *)
Theorem workflows_trigger_and_run_in_order (w : workflow) :
  In w workflows ->
  (exists cron, schedule (on w) = [cron] /\
                triggered w (Scheduled cron) = true) /\
  (exists pr, on_pull_request (on w) = Some pr /\
     branches pr = ["main"] /\
     forallb supported (paths pr) = true /\
     forall base changed,
       triggered w (PullRequest base changed) = true <->
       base = "main" /\
       exists f pat, In f changed /\ In pat (paths pr) /\
                     path_matches pat f = true) /\
  (exists j n, jobs w = [j] /\ 1 <= n /\
     map classify (steps j) = setup_steps ++ repeat Execute n).
Proof.
  intros Hw.
  assert (Hpr : forall pr, on_pull_request (on w) = Some pr ->
            branches pr = ["main"] ->
            forall base changed,
              triggered w (PullRequest base changed) = true <->
              base = "main" /\
              exists f pat, In f changed /\ In pat (paths pr) /\
                            path_matches pat f = true).
  { intros pr H Hb base changed.
    rewrite (triggered_by_pull_request w pr base changed H), Hb. cbn.
    split; intros [H1 H2]; (split; [|done]); [by destruct H1 as [<-|[]] | by left]. }
  destruct Hw as [<-|[<-|[]]].
  - split; [by eexists|]. split.
    + eexists. split; [reflexivity|]. split; [reflexivity|].
      split; [reflexivity|]. by apply Hpr.
    + eexists _, 1. by repeat split.
  - split; [by eexists|]. split.
    + eexists. split; [reflexivity|]. split; [reflexivity|].
      split; [reflexivity|]. by apply Hpr.
    + eexists _, 4. repeat split. lia.
Qed.

Lemma workflows_trigger_and_run_in_order_witness :
  In tutorial_upl workflows /\
  triggered tutorial_upl
    (PullRequest "main" ["tutorials/using-pytorch-lightning/1.train-single-node.ipynb"])
    = true /\
  triggered tutorial_upl (PullRequest "main" ["README.md"]) = false.
Proof.
  assert (Hin : In tutorial_upl workflows) by (right; left; reflexivity).
  split; [exact Hin|].
  destruct (workflows_trigger_and_run_in_order tutorial_upl Hin)
    as (_ & (pr & Hpr & _ & _ & Htrig) & _).
  split; [|reflexivity].
  apply Htrig. split; [reflexivity|].
  injection Hpr as <-.
  exists "tutorials/using-pytorch-lightning/1.train-single-node.ipynb",
         "tutorials/using-pytorch-lightning/**".
  split; [left; reflexivity|]. split; [left; reflexivity|]. reflexivity.
Defined.

End Workflows.

(** ** The format of the data files *)

Section DataFiles.

Import DataFormat.

Lemma has_field_In fs k :
  has_field fs k = true -> exists v, In (k, v) fs.
Proof.
  unfold has_field. rewrite existsb_exists.
  intros ([k' v] & Hin & E). cbn in E. apply String.eqb_eq in E as ->.
  by exists v.
Qed.



End DataFiles.

(** * Further properties of the notebooks and workflows *)

#[local] Arguments Stages.stage_of_site : simpl never.

Section Confined.

Import Stages.
Context {W : Type}.
Variable ext : W -> value -> list value -> list (string * value) -> reply * W.

Lemma within_mono l l' tr : incl l l' -> within l tr -> within l' tr.
Proof.
  intros Hl H. eapply Forall_impl; [exact H|].
  intros [site f pos kw r| | |]; cbn; auto.
Qed.

Lemma within_app l t1 t2 : within l t1 -> within l t2 -> within l (t1 ++ t2).
Proof. intros H1 H2. by apply Forall_app. Qed.

Lemma within_nil l : within l [].
Proof. constructor. Qed.

Lemma within_l l l' tr : within l tr -> within (l ++ l') tr.
Proof. apply within_mono. intros x Hx. by apply in_or_app; left. Qed.

Lemma within_r l l' tr : within l' tr -> within (l ++ l') tr.
Proof. apply within_mono. intros x Hx. by apply in_or_app; right. Qed.

Lemma within_bind {A B : Type} (m : M A) (k : A -> M B) l w :
  within l (tr_of (W:=W) (m w)) ->
  (forall a w', within l (tr_of (W:=W) (k a w'))) ->
  within l (tr_of (W:=W) (bind m k w)).
Proof.
  unfold tr_of, bind. intros Hm Hk.
  destruct (m w) as [[t1 w1] [a|e]]; cbn in *; [|done].
  specialize (Hk a w1). destruct (k a w1) as [[t2 w2] r]. cbn in *.
  by apply within_app.
Qed.

Lemma within_quiet {A : Type} l (x : list event * W * (A + exn)) :
  x.1.1 = [] -> within l (tr_of x).
Proof. unfold tr_of. intros ->. constructor. Qed.

Lemma external_within site f pos kw w :
  within [site] (tr_of (W:=W) (external ext site f pos kw w)).
Proof.
  unfold tr_of, external.
  destruct (ext w f pos kw) as [[v|cls] w']; cbn; repeat constructor.
Qed.

Lemma call_within site f pos kw w :
  within [site] (tr_of (W:=W) (call ext site f pos kw w)).
Proof.
  unfold call.
  destruct f; try apply external_within.
  - repeat case_match; try apply external_within;
      unfold within, tr_of; cbn; by repeat constructor.
  - destruct f; try apply external_within.
    case_match; try apply external_within.
    unfold within, tr_of; cbn; by repeat constructor.
Qed.

Lemma eval_within :
  (forall e env w, within (sites_e e) (tr_of (W:=W) (eval ext e env w))) /\
  (forall a env w, within (sites_a a) (tr_of (W:=W) (eval_args ext a env w))).
Proof.
  apply expr_args_mutind; intros; cbn [eval eval_args sites_e sites_a];
    try (by apply within_quiet).
  - destruct (env !! x); by apply within_quiet.
  - apply within_bind; [done|]. intros. by apply within_quiet.
  - apply within_bind; [by apply within_l|]. intros.
    apply within_bind; [by apply within_r|]. intros.
    apply within_quiet. unfold index. destruct a, a0; cbn; try done.
    by destruct (assoc _ _).
  - apply within_bind; [done|]. intros.
    apply within_quiet. unfold slice. by destruct a.
  - apply within_bind; [by apply within_l|]. intros.
    apply within_bind; [by apply within_r, within_l|]. intros.
    apply within_r, within_r, call_within.
  - apply within_bind; [done|]. intros. by apply within_quiet.
  - apply within_bind; [done|]. intros. by apply within_quiet.
  - apply within_bind; [done|]. intros. by apply within_quiet.
  - apply within_bind; [by apply within_l|]. intros.
    apply within_bind; [by apply within_r|]. intros.
    apply within_quiet. unfold contains. by destruct a0.
  - apply within_bind; [by apply within_l|]. intros.
    apply within_bind; [by apply within_r|]. intros.
    apply within_quiet. unfold add.
    destruct a, a0; cbn; try done; by destruct (opaque _ || opaque _).
  - apply within_bind; [by apply within_l|]. intros.
    destruct a; try (destruct (opaque _); by apply within_quiet);
      try by apply within_quiet.
    apply within_bind; [|intros; by apply within_quiet].
    generalize w'. induction vs as [|v vs IHvs]; intros w''; [by apply within_quiet|].
    apply within_bind; [by apply within_r|]. intros.
    apply within_bind; [apply IHvs|]. intros; by apply within_quiet.
  - apply within_bind; [by apply within_l|]. intros.
    apply within_bind; [by apply within_r|]. intros. by apply within_quiet.
  - apply within_bind; [by apply within_l|]. intros.
    apply within_bind; [by apply within_r|]. intros. by apply within_quiet.
Qed.

Lemma within_eval e env w t w1 r :
  eval ext e env w = (t, w1, r) -> within (sites_e e) t.
Proof.
  intros E. pose proof (proj1 eval_within e env w) as H.
  unfold tr_of in H. by rewrite E in H.
Qed.

Lemma exec_stmt_confined loop : confined loop -> confined (exec_stmt ext loop).
Proof.
  intros Hloop s. unfold trace_of.
  induction s as [| e | y e | y path e | mods | m names | line
                  | s1 IH1 s2 IH2 | c s1 IH1 s2 IH2 | c body IH
                  | body IH1 h hbody IH2 | ];
    intros env w; cbn [exec_stmt sites] in *;
    try (apply within_nil).
  - destruct (eval ext e env w) as [[t w1] [v|ex]] eqn:E;
      pose proof (within_eval _ _ _ _ _ _ E) as Ht; exact Ht.
  - destruct (eval ext e env w) as [[t w1] [v|ex]] eqn:E;
      pose proof (within_eval _ _ _ _ _ _ E) as Ht; exact Ht.
  - destruct (eval ext e env w) as [[t w1] [v|ex]] eqn:E;
      pose proof (within_eval _ _ _ _ _ _ E) as Ht; [|exact Ht].
    destruct (env !! y); exact Ht.
  - cbn. by repeat constructor.
  - specialize (IH1 env w).
    destruct (exec_stmt ext loop s1 env w) as [[[t1 env1] w1] g1].
    cbn in IH1. destruct g1; try (by apply within_l).
    specialize (IH2 env1 w1).
    destruct (exec_stmt ext loop s2 env1 w1) as [[[t2 env2] w2] g2].
    cbn in *. apply within_app; [by apply within_l | by apply within_r].
  - destruct (eval ext c env w) as [[t w1] [v|ex]] eqn:E;
      pose proof (within_eval _ _ _ _ _ _ E) as Ht; cbn in Ht; [|by apply within_l].
    assert (within (sites s1 ++ sites s2)
              (trace_of (exec_stmt ext loop (if truthy v then s1 else s2) env w1))) as H
      by (destruct (truthy v); [by apply within_l, IH1 | by apply within_r, IH2]).
    unfold trace_of in H.
    destruct (exec_stmt ext loop (if truthy v then s1 else s2) env w1)
      as [[[t2 env2] w2] g2].
    cbn in *. apply within_app; [by apply within_l | by apply within_r].
  - destruct (eval ext c env w) as [[t w1] [v|ex]] eqn:E;
      pose proof (within_eval _ _ _ _ _ _ E) as Ht; cbn in Ht; [|by apply within_l].
    destruct (truthy v); [|by apply within_l].
    specialize (IH env w1).
    destruct (exec_stmt ext loop body env w1) as [[[t2 env2] w2] g2].
    cbn in IH.
    destruct g2; cbn in *;
      try (apply within_app; [by apply within_l | by apply within_r]).
    specialize (Hloop (SWhile c body) env2 w2). unfold trace_of in Hloop.
    destruct (loop (SWhile c body) env2 w2) as [[[t3 env3] w3] g3].
    cbn in *. apply within_app; [by apply within_l|].
    apply within_app; [by apply within_r | done].
  - specialize (IH1 env w).
    destruct (exec_stmt ext loop body env w) as [[[t1 env1] w1] g1].
    cbn in IH1. destruct g1; try (by apply within_l).
    destruct (catches h e); [|by apply within_l].
    specialize (IH2 (bind_exn h e env1) w1).
    destruct (exec_stmt ext loop hbody (bind_exn h e env1) w1) as [[[t2 env2] w2] g2].
    cbn in *. apply within_app; [by apply within_l | by apply within_r].
Qed.

Lemma reenter_confined fuel : confined (reenter ext fuel).
Proof.
  induction fuel as [|fuel IH]; intros s env w; [apply within_nil|].
  cbn [reenter]. by apply exec_stmt_confined.
Qed.

Lemma run_cell_confined fuel (c : cell) : forall env w,
  within (cell_sites c) (trace_of (run_cell ext fuel c env w)).
Proof.
  unfold trace_of.
  induction c as [|s c IH]; intros env w; [apply within_nil|].
  cbn [run_cell cell_sites flat_map] in *.
  destruct (break_outside_loop s); [apply within_nil|].
  pose proof (exec_stmt_confined _ (reenter_confined fuel) s env w) as H1.
  unfold trace_of in H1. fold (exec ext fuel s env w) in H1.
  destruct (exec ext fuel s env w) as [[[t1 env1] w1] g1]. cbn in H1.
  destruct g1; try (by apply within_l).
  specialize (IH env1 w1).
  destruct (run_cell ext fuel c env1 w1) as [[[t2 env2] w2] g2].
  cbn in *. apply within_app; [by apply within_l | by apply within_r].
Qed.

Lemma run_cells_confined halt fuel (cs : list cell) : forall env w,
  within (notebook_sites cs) (trace_of (run_cells ext halt fuel cs env w)).
Proof.
  unfold trace_of.
  induction cs as [|c cs IH]; intros env w; [apply within_nil|].
  cbn [run_cells notebook_sites flat_map] in *.
  pose proof (run_cell_confined fuel c env w) as H1. unfold trace_of in H1.
  destruct (run_cell ext fuel c env w) as [[[t1 env1] w1] g1]. cbn in H1.
  specialize (IH env1 w1).
  destruct (run_cells ext halt fuel cs env1 w1) as [[[t2 env2] w2] g2].
  cbn in IH.
  destruct g1; cbn; try (apply within_app; [by apply within_l | by apply within_r]).
  - destruct halt; cbn; [by apply within_l|].
    apply within_app; [by apply within_l | by apply within_r].
  - by apply within_l.
Qed.

End Confined.

(** ** Runs that stop at the first error *)

Section Halting.

Context {W : Type}.
Variable ext : W -> value -> list value -> list (string * value) -> reply * W.

(** A run goes through a list of cells part by part. *)
Lemma run_cells_app halt fuel (cs1 cs2 : list cell) : forall env w,
  run_cells ext halt fuel (cs1 ++ cs2) env w =
    match run_cells ext halt fuel cs1 env w with
    | (t1, env1, w1, Normal) =>
        match run_cells ext halt fuel cs2 env1 w1 with
        | (t2, env2, w2, g) => (t1 ++ t2, env2, w2, g)
        end
    | r => r
    end.
Proof.
  induction cs1 as [|c cs1 IH]; intros env w.
  - cbn. by destruct (run_cells ext halt fuel cs2 env w) as [[[t2 env2] w2] g].
  - cbn [app run_cells].
    destruct (run_cell ext fuel c env w) as [[[t1 env1] w1] g1].
    destruct g1; try done; try (destruct halt; [done|]); rewrite IH;
      destruct (run_cells ext _ fuel cs1 env1 w1) as [[[t2 env2] w2] g2];
      destruct g2; try done;
      destruct (run_cells ext _ fuel cs2 env2 w2) as [[[t3 env3] w3] g3];
      by rewrite app_assoc.
Qed.

(** ... and a cell statement by statement. *)
Lemma run_cell_app fuel (c1 c2 : cell) : forall env w,
  run_cell ext fuel (c1 ++ c2) env w =
    match run_cell ext fuel c1 env w with
    | (t1, env1, w1, Normal) =>
        match run_cell ext fuel c2 env1 w1 with
        | (t2, env2, w2, g) => (t1 ++ t2, env2, w2, g)
        end
    | r => r
    end.
Proof.
  induction c1 as [|s c1 IH]; intros env w.
  - cbn. by destruct (run_cell ext fuel c2 env w) as [[[t2 env2] w2] g].
  - cbn [app run_cell].
    destruct (break_outside_loop s); [done|].
    destruct (exec ext fuel s env w) as [[[t1 env1] w1] g1].
    destruct g1; try done; rewrite IH;
      destruct (run_cell ext fuel c1 env1 w1) as [[[t2 env2] w2] g2];
      destruct g2; try done;
      destruct (run_cell ext fuel c2 env2 w2) as [[[t3 env3] w3] g3];
      by rewrite app_assoc.
Qed.

(** The first statement of the first cell, and then the rest. *)
Lemma run_cells_from_stmt halt fuel s (c : cell) (post : list cell) env w :
  break_outside_loop s = false ->
  run_cells ext halt fuel ((s :: c) :: post) env w =
    match exec ext fuel s env w with
    | (t1, env1, w1, Normal) =>
        match run_cells ext halt fuel (c :: post) env1 w1 with
        | (t2, env2, w2, g) => (t1 ++ t2, env2, w2, g)
        end
    | (t1, env1, w1, Diverge) => (t1, env1, w1, Diverge)
    | (t1, env1, w1, Exc x) =>
        if halt then (t1, env1, w1, Exc x)
        else
          match run_cells ext halt fuel post env1 w1 with
          | (t2, env2, w2, g) => (t1 ++ t2, env2, w2, g)
          end
    | (t1, env1, w1, Break) =>
        match run_cells ext halt fuel post env1 w1 with
        | (t2, env2, w2, g) => (t1 ++ t2, env2, w2, g)
        end
    end.
Proof.
  intros Hb. cbn [run_cells run_cell]. rewrite Hb.
  destruct (exec ext fuel s env w) as [[[t1 env1] w1] g1].
  destruct g1; try done.
  destruct (run_cell ext fuel c env1 w1) as [[[t2 env2] w2] g2].
  destruct g2; try done; try (destruct halt; [done|]);
    destruct (run_cells ext _ fuel post env2 w2) as [[[t3 env3] w3] g3];
    by rewrite app_assoc.
Qed.

End Halting.

Section RunAllStops.

Import FineTuning Stages RunAll.
Context {W : Type}.
Variable ext : W -> value -> list value -> list (string * value) -> reply * W.

Lemma notebook_parts :
  notebook = up_to_poll ++ cell_failure_check :: after_failure_check.
Proof. reflexivity. Qed.

Lemma ranks_In ev s tr :
  In ev tr -> stage_of_event ev = Some s -> In (rank s) (ranks tr).
Proof.
  intros Hin Hs. unfold ranks. apply list_elem_of_In, list_elem_of_omap.
  exists ev. split; [by apply list_elem_of_In|]. by rewrite Hs.
Qed.

(** X1: a run of the fine-tuning notebook from top to bottom that stops
    at the first error never ends normally.  It is the run of the
    cells up to the poll cell, followed, when they all succeed, by the
    SyntaxError of the failure-check cell; no call of the deployment or
    inference stage is made. *)
Theorem run_all_stops_at_the_failure_check
    (fuel : nat) (env : gmap string value) (w : W) :
  let r := run_cells ext true fuel notebook env w in
  let before := run_cells ext true fuel up_to_poll env w in
  signal_of r <> Normal /\
  (signal_of before = Normal ->
     r = (trace_of before, env_of before, world_of before,
          Exc (SyntaxError "'break' outside loop"))) /\
  (signal_of before <> Normal -> r = before) /\
  forall ev s, In ev (trace_of r) -> stage_of_event ev = Some s ->
    s <> Deploy /\ s <> Infer.
Proof.
  intros r before.
  assert (Hr : r = match before with
                   | (t1, env1, w1, Normal) =>
                       (t1, env1, w1, Exc (SyntaxError "'break' outside loop"))
                   | x => x
                   end).
  { subst r before. rewrite notebook_parts, run_cells_app.
    destruct (run_cells ext true fuel up_to_poll env w) as [[[t1 env1] w1] g1].
    destruct g1; try done. cbn. by rewrite app_nil_r. }
  assert (Htr : trace_of r = trace_of before).
  { rewrite Hr. destruct before as [[[t1 env1] w1] g1]. by destruct g1. }
  split; [|split; [|split]].
  - rewrite Hr. destruct before as [[[t1 env1] w1] g1]. by destruct g1.
  - rewrite Hr. destruct before as [[[t1 env1] w1] g1]. cbn. by intros ->.
  - rewrite Hr. destruct before as [[[t1 env1] w1] g1]. cbn. by destruct g1.
  - intros ev s Hin Hs. rewrite Htr in Hin.
    assert (Hflow : flow_cells up_to_poll = Some (Some (0, 4)))
      by (vm_compute; reflexivity).
    destruct (run_cells_flow ext true fuel _ _ env w Hflow) as [_ Hall].
    pose proof (ranks_In _ _ _ Hin Hs) as Hk.
    rewrite List.Forall_forall in Hall. apply Hall in Hk.
    split; intros ->; cbn in Hk; lia.
Qed.

(** X2: whatever the platform answers and in both run modes, every call
    the fine-tuning notebook makes is at a call site written in one of
    its cells, and none of these is a delete operation: the endpoint,
    the deployment, the model and the data assets it creates are left
    in place. *)
Theorem finetuning_notebook_deletes_nothing
    (halt : bool) (fuel : nat) (env : gmap string value) (w : W) :
  forall site f pos kw r,
    In (EvCall site f pos kw r)
       (trace_of (run_cells ext halt fuel notebook env w)) ->
    In site (notebook_sites notebook) /\ mentions "delete" site = false.
Proof.
  intros site f pos kw r Hin.
  pose proof (run_cells_confined ext halt fuel notebook env w) as H.
  unfold within in H. rewrite List.Forall_forall in H. apply H in Hin. cbn in Hin.
  split; [exact Hin|].
  assert (Hall : forallb (fun s => negb (mentions "delete" s))
                   (notebook_sites notebook) = true)
    by (vm_compute; reflexivity).
  rewrite forallb_forall in Hall. apply Hall in Hin.
  by apply negb_true_iff in Hin.
Qed.

End RunAllStops.

(** ** Pull requests and the files of a workflow *)

Section WorkflowFiles.

Import Workflow Executed.

Lemma triggered_by_file w pr f changed :
  on_pull_request (on w) = Some pr ->
  branches pr = ["main"] ->
  existsb (fun pat => path_matches pat f) (paths pr) = true ->
  In f changed ->
  triggered w (PullRequest "main" changed) = true.
Proof.
  intros Hpr Hb Hf Hin. cbn. rewrite Hpr, Hb. cbn.
  apply existsb_exists. by exists f.
Qed.

(** X3: each execute step of the two workflows names the script or
    notebook it runs, and a pull request to main that changes the
    workflow's own file or one of the files it executes triggers the
    workflow. *)
Theorem workflow_runs_when_its_own_files_change (w : workflow) :
  In w workflows ->
  (forall s, In s (all_steps w) -> classify s = Execute -> is_Some (executed s)) /\
  forall f changed,
    In f (own_files w) -> In f changed ->
    triggered w (PullRequest "main" changed) = true.
Proof.
  intros Hw. split.
  - destruct Hw as [<-|[<-|[]]]; intros s Hs Hc; cbn in Hs;
      repeat (destruct Hs as [<-|Hs]; [try discriminate Hc; by eexists|]);
      destruct Hs.
  - intros f changed Hf Hin.
    destruct Hw as [<-|[<-|[]]]; cbn in Hf;
      repeat (destruct Hf as [<-|Hf];
              [eapply triggered_by_file; last exact Hin;
               [reflexivity|reflexivity|vm_compute; reflexivity]|]);
      destruct Hf.
Qed.

Lemma workflow_runs_when_its_own_files_change_witness :
  In tutorial_upl workflows /\
  In "tutorials/using-pytorch-lightning/3.log-with-mlflow.ipynb"
     (own_files tutorial_upl) /\
  triggered tutorial_upl
    (PullRequest "main"
       ["README.md"; "tutorials/using-pytorch-lightning/3.log-with-mlflow.ipynb"])
    = true.
Proof.
  assert (Hw : In tutorial_upl workflows) by (right; left; reflexivity).
  assert (Hf : In "tutorials/using-pytorch-lightning/3.log-with-mlflow.ipynb"
                  (own_files tutorial_upl))
    by (do 3 right; left; reflexivity).
  split; [exact Hw|]. split; [exact Hf|].
  apply (proj2 (workflow_runs_when_its_own_files_change tutorial_upl Hw) _ _ Hf).
  right; left; reflexivity.
Defined.

Lemma path_matches_exact pat f :
  ends_with "/**" pat = false -> path_matches pat f = true -> f = pat.
Proof.
  unfold path_matches. intros ->. intros H. by apply String.eqb_eq in H.
Qed.

(** X4: the path filters of the two workflows are disjoint: a pull
    request that changes a single file and triggers the fastai workflow
    does not trigger the tutorial workflow. *)
Theorem no_file_is_watched_by_both_workflows (base f : string) :
  triggered train_fastai_mnist_mlproject_job (PullRequest base [f]) = true ->
  triggered tutorial_upl (PullRequest base [f]) = false.
Proof.
  intros H.
  apply (triggered_by_pull_request train_fastai_mnist_mlproject_job _ _ _ eq_refl)
    in H as (_ & f' & pat & [<-|[]] & Hpat & Hm).
  destruct Hpat as [<-|[<-|[]]];
    apply path_matches_exact in Hm as ->; try reflexivity;
    cbn; by rewrite andb_false_r.
Qed.

Lemma no_file_is_watched_by_both_workflows_witness :
  triggered train_fastai_mnist_mlproject_job
    (PullRequest "main" ["workflows/train/fastai/mnist-mlproject/job.py"]) = true /\
  triggered tutorial_upl
    (PullRequest "main" ["workflows/train/fastai/mnist-mlproject/job.py"]) = false.
Proof.
  assert (H : triggered train_fastai_mnist_mlproject_job
                (PullRequest "main" ["workflows/train/fastai/mnist-mlproject/job.py"])
              = true) by reflexivity.
  split; [exact H|].
  exact (no_file_is_watched_by_both_workflows _ _ H).
Defined.

End WorkflowFiles.

(** ** The poll cell as a whole *)

Section PollCell.

Import FineTuning.
Context {W : Type}.
Variable ext : W -> value -> list value -> list (string * value) -> reply * W.

(** The query reads the client and the job, not [status] or [time]. *)
Lemma query_status_frame x v env w :
  x <> "workspace_ml_client" -> x <> "created_job" ->
  eval ext query_status (<[x := v]> env) w = eval ext query_status env w.
Proof.
  intros H1 H2. unfold query_status. cbn.
  by rewrite !lookup_insert_ne by done.
Qed.

(** An iteration starts by assigning [status]: what [status] held
    before does not matter to it. *)
Lemma poll_body_forgets loop env w a b :
  let ra := exec_stmt ext loop poll_body (<["status" := a]> env) w in
  let rb := exec_stmt ext loop poll_body (<["status" := b]> env) w in
  ra = rb \/
  exists t w1 e,
    eval ext query_status env w = (t, w1, inr e) /\
    ra = (t, <["status" := a]> env, w1, Exc e) /\
    rb = (t, <["status" := b]> env, w1, Exc e).
Proof.
  intros ra rb. subst ra rb. unfold poll_body. cbn [block exec_stmt].
  rewrite !query_status_frame by done.
  destruct (eval ext query_status env w) as [[t w1] [v|e]].
  - left. by rewrite !insert_insert_eq.
  - right. by eexists _, _, _.
Qed.

Lemma poll_loop_forgets fuel env w a b :
  let ra := exec ext fuel poll_loop (<["status" := a]> env) w in
  let rb := exec ext fuel poll_loop (<["status" := b]> env) w in
  trace_of ra = trace_of rb /\ world_of ra = world_of rb /\
  signal_of ra = signal_of rb /\
  (signal_of ra = Normal -> env_of ra = env_of rb).
Proof.
  intros ra rb. subst ra rb. unfold poll_loop. rewrite !exec_while_true.
  unfold exec.
  destruct (poll_body_forgets (reenter ext fuel) env w a b)
    as [->|(t & w1 & e & _ & -> & ->)]; [|done].
  by destruct (exec_stmt _ _ _ _ _) as [[[t2 env2] w2] g2].
Qed.

Lemma exec_stmt_seq loop s1 s2 env w :
  exec_stmt ext loop (SSeq s1 s2) env w =
    match exec_stmt ext loop s1 env w with
    | (t1, env1, w1, Normal) =>
        match exec_stmt ext loop s2 env1 w1 with
        | (t2, env2, w2, g) => (t1 ++ t2, env2, w2, g)
        end
    | r => r
    end.
Proof. reflexivity. Qed.

Lemma exec_stmt_assign loop x e env w :
  exec_stmt ext loop (SAssign x e) env w =
    match eval ext e env w with
    | (t, w1, inl v) => (t, <[x := v]> env, w1, Normal)
    | (t, w1, inr ex) => (t, env, w1, Exc ex)
    end.
Proof. reflexivity. Qed.

(** The loop starts with a query of its own. *)
Lemma poll_loop_queries_first fuel env w :
  exists rest,
    trace_of (exec ext fuel poll_loop env w)
      = tr_of (eval ext query_status env w) ++ rest.
Proof.
  unfold poll_loop. rewrite exec_while_true. unfold exec, poll_body.
  cbn [block]. rewrite exec_stmt_seq, exec_stmt_assign.
  destruct (eval ext query_status env w) as [[t w1] [v|e]]; cbn [tr_of fst].
  - destruct (exec_stmt _ _ _ _ _) as [[[t2 env2] w2] g2].
    destruct g2; try (eexists; reflexivity).
    destruct (match fuel with 0 => _ | S f => _ end) as [[[t3 env3] w3] g3].
    eexists. cbn. by rewrite <- app_assoc.
  - exists []. by rewrite app_nil_r.
Qed.

Lemma run_cell_cons fuel s c env w :
  break_outside_loop s = false ->
  run_cell ext fuel (s :: c) env w =
    match exec ext fuel s env w with
    | (t1, env1, w1, Normal) =>
        match run_cell ext fuel c env1 w1 with
        | (t2, env2, w2, g) => (t1 ++ t2, env2, w2, g)
        end
    | r => r
    end.
Proof. intros H. cbn [run_cell]. by rewrite H. Qed.

(** X5: the poll cell asks for the status before the loop and the loop
    asks again before it looks at it.  When the first query returns,
    the rest of the cell behaves the same whatever that query returned,
    and a second query follows at once: a job that is already finished
    is queried twice. *)
Theorem poll_cell_discards_its_first_status
    (fuel : nat) (env : gmap string value) (w w1 : W)
    (t0 : list event) (v0 : value) :
  eval ext query_status env w = (t0, w1, inl v0) ->
  let r := run_cell ext fuel cell_poll env w in
  (forall v',
     let r' := exec ext fuel poll_loop
                 (<["status" := v']> (<["time" := VExt "time"]> env)) w1 in
     trace_of r = t0 ++ trace_of r' /\ world_of r = world_of r' /\
     signal_of r = signal_of r' /\
     (signal_of r = Normal -> env_of r = env_of r')) /\
  exists rest,
    trace_of r = t0 ++ tr_of (eval ext query_status env w1) ++ rest.
Proof.
  intros Hq r.
  pose (r0 := exec ext fuel poll_loop
                (<["status" := v0]> (<["time" := VExt "time"]> env)) w1).
  assert (Hr : r = (t0 ++ trace_of r0, env_of r0, world_of r0, signal_of r0)).
  { subst r r0. unfold cell_poll.
    rewrite run_cell_cons by reflexivity. unfold exec at 1.
    rewrite exec_stmt_assign, Hq.
    rewrite run_cell_cons by reflexivity. unfold exec at 1. cbn [exec_stmt].
    rewrite run_cell_cons by reflexivity.
    change (import_all "" ["time"] (<["status" := v0]> env))
      with (<["time" := VExt "time"]> (<["status" := v0]> env)).
    rewrite (insert_insert_ne env "time" "status") by done.
    destruct (exec ext fuel poll_loop _ w1) as [[[t3 env3] w3] g3].
    destruct g3; cbn; by rewrite ?app_nil_r. }
  assert (Ht : trace_of r = t0 ++ trace_of r0) by (by rewrite Hr).
  assert (Hw : world_of r = world_of r0) by (by rewrite Hr).
  assert (Hg : signal_of r = signal_of r0) by (by rewrite Hr).
  assert (He : env_of r = env_of r0) by (by rewrite Hr).
  clear Hr. split.
  - intros v' r'.
    destruct (poll_loop_forgets fuel (<["time" := VExt "time"]> env) w1 v0 v')
      as (H1 & H2 & H3 & H4).
    fold r0 in H1, H2, H3, H4. fold r' in H1, H2, H3, H4.
    rewrite Ht, Hw, Hg, He, H1, H2. split; [done|]. split; [done|].
    split; [done|]. intros Hn. apply H4. exact Hn.
  - destruct (poll_loop_queries_first fuel
                (<["status" := v0]> (<["time" := VExt "time"]> env)) w1)
      as [rest Hrest].
    fold r0 in Hrest. rewrite !query_status_frame in Hrest by done.
    exists rest. by rewrite Ht, Hrest.
Qed.

End PollCell.

Lemma poll_cell_discards_its_first_status_witness :
  let p := Platform.quiet already_done in
  eval Platform.ext FineTuning.query_status Poll.sample_env p
    = ([Poll.query Platform.handle "Completed"], Platform.tick p,
       inl (VStr "Completed")) /\
  exists rest,
    trace_of (run_cell Platform.ext 0 FineTuning.cell_poll Poll.sample_env p)
      = [Poll.query Platform.handle "Completed"]
          ++ [Poll.query Platform.handle "Completed"] ++ rest.
Proof.
  intros p.
  assert (Hq : eval Platform.ext FineTuning.query_status Poll.sample_env p
               = ([Poll.query Platform.handle "Completed"], Platform.tick p,
                  inl (VStr "Completed"))) by (vm_compute; reflexivity).
  split; [exact Hq|].
  exact (proj2 (poll_cell_discards_its_first_status Platform.ext 0
                  Poll.sample_env p _ _ _ Hq)).
Defined.

(** ** Names that are bound once *)

Section BoundOnce.

Context {W : Type}.
Variable ext : W -> value -> list value -> list (string * value) -> reply * W.

(** X6: the credential, the clients, the model, the data assets, the
    job specification, the submitted job and the registered model of
    the fine-tuning notebook, and the client, the workspace coordinates
    and the environment of the data notebook, are each assigned by
    exactly one cell, and no later cell changes them, whatever the
    platform answers. *)
Theorem clients_and_job_are_bound_once :
  Forall (fun xi : string * nat =>
            binders xi.1 FineTuning.notebook = [xi.2] /\
            forall halt fuel env (w : W),
              env_of (run_cells ext halt fuel
                        (drop (S xi.2) FineTuning.notebook) env w) !! xi.1
                = env !! xi.1)
         bound_once_finetuning /\
  Forall (fun xi : string * nat =>
            binders xi.1 WorkingWithData.notebook = [xi.2] /\
            forall halt fuel env (w : W),
              env_of (run_cells ext halt fuel
                        (drop (S xi.2) WorkingWithData.notebook) env w) !! xi.1
                = env !! xi.1)
         bound_once_data.
Proof.
  split; repeat first [apply List.Forall_nil | apply List.Forall_cons];
    (split; [vm_compute; reflexivity|]);
    intros halt fuel env w; apply run_cells_frame, never_assigned_spec;
    vm_compute; reflexivity.
Qed.

End BoundOnce.

(** ** Names are bound when they are read *)

Section BoundNames.

Import Bound.
Context {W : Type}.
Variable ext : W -> value -> list value -> list (string * value) -> reply * W.

Lemma known_In D x : known D x = true <-> In x D.
Proof. apply eqb_in. Qed.

Lemma covers_known env D x : covers env D -> known D x = true -> is_Some (env !! x).
Proof. intros H Hx. by apply H, known_In. Qed.

Lemma covers_incl env D D' : covers env D -> incl D' D -> covers env D'.
Proof. intros H Hi x Hx. by apply H, Hi. Qed.

Lemma covers_app env D D' : covers env D -> covers env D' -> covers env (D ++ D').
Proof. intros H H' x Hx. apply in_app_iff in Hx as [Hx|Hx]; auto. Qed.

Lemma covers_insert env D x v : covers env D -> covers (<[x := v]> env) (x :: D).
Proof.
  intros H y [<-|Hy].
  - by rewrite lookup_insert_eq.
  - destruct (decide (x = y)) as [<-|Hne].
    + by rewrite lookup_insert_eq.
    + rewrite lookup_insert_ne by done. by apply H.
Qed.

Lemma covers_insert_same env D x v : covers env D -> covers (<[x := v]> env) D.
Proof. intros H. eapply covers_incl; [by apply covers_insert|]. by right. Qed.

Lemma minus_In D R x : In x (minus D R) <-> In x D /\ ~ In x R.
Proof.
  unfold minus. rewrite filter_In, negb_true_iff.
  split; intros [H1 H2]; (split; [done|]).
  - intros Hx. apply known_In in Hx. congruence.
  - destruct (known R x) eqn:E; [|done]. by apply known_In in E.
Qed.

Lemma both_In D1 D2 x : In x (both D1 D2) <-> In x D1 /\ In x D2.
Proof. unfold both. by rewrite filter_In, known_In. Qed.

Lemma minus_idem D R : minus (minus D R) R = minus D R.
Proof.
  unfold minus. induction D as [|x D IH]; [done|]. cbn.
  destruct (known R x) eqn:E; cbn; [done|]. by rewrite E, IH.
Qed.

Lemma covers_import env D prefix names :
  covers env D -> covers (import_all prefix names env) (names ++ D).
Proof.
  unfold import_all. revert env D.
  induction names as [|n names IH]; intros env D H; [done|].
  cbn [fold_left app].
  eapply covers_incl; [apply (IH _ (n :: D)); by apply covers_insert|].
  intros x [<-|Hx]; [apply in_or_app; right; by left|].
  apply in_app_iff in Hx as [Hx|Hx]; apply in_or_app; [by left|by right; right].
Qed.

Lemma persists_import env prefix names x :
  is_Some (env !! x) -> is_Some (import_all prefix names env !! x).
Proof.
  intros H.
  apply (covers_import env [x] prefix names); [by intros ? [<-|[]]|].
  apply in_or_app; right; by left.
Qed.

Lemma no_NameError_bind {A B : Type} (m : M A) (k : A -> M B) (w : W) :
  no_NameError (m w) -> (forall a w', no_NameError (k a w')) ->
  no_NameError (bind m k w).
Proof.
  unfold no_NameError, bind. intros Hm Hk n.
  destruct (m w) as [[t1 w1] [a|e]]; cbn in *.
  - specialize (Hk a w1 n). by destruct (k a w1) as [[t2 w2] r].
  - intros [= ->]. by apply (Hm n).
Qed.

Lemma no_NameError_call site f pos kw w : no_NameError (call ext site f pos kw w).
Proof.
  assert (He : forall s g p k w', no_NameError (external ext s g p k w')).
  { intros s g p k w' n. unfold external.
    by destruct (ext w' g p k) as [[v|cls] w'']. }
  unfold call. destruct f; try apply He.
  - repeat case_match; try apply He; by intros ?.
  - destruct f; try apply He. case_match; try apply He. by intros ?.
Qed.

Lemma eval_closed :
  (forall e D env w, closed_e D e = true -> covers env D ->
     no_NameError (eval ext e env w)) /\
  (forall a D env w, closed_a D a = true -> covers env D ->
     no_NameError (eval_args ext a env w)).
Proof.
  apply expr_args_mutind; intros; cbn [eval eval_args closed_e closed_a] in *;
    try (by intros ?);
    repeat match goal with
           | H : _ && _ = true |- _ => apply andb_true_iff in H as [? ?]
           end.
  - destruct (covers_known _ _ _ H0 H) as [v ->]. by intros ?.
  - apply no_NameError_bind; [by eauto|]. by intros ? ? ?.
  - apply no_NameError_bind; [by eauto|]. intros.
    apply no_NameError_bind; [by eauto|]. intros.
    intros ?. unfold index. destruct a, a0; cbn; try done.
    by destruct (assoc _ _).
  - apply no_NameError_bind; [by eauto|]. intros.
    intros ?. unfold slice. by destruct a.
  - apply no_NameError_bind; [by eauto|]. intros.
    apply no_NameError_bind; [by eauto|]. intros.
    apply no_NameError_call.
  - apply no_NameError_bind; [by eauto|]. by intros ? ? ?.
  - apply no_NameError_bind; [by eauto|]. by intros ? ? ?.
  - apply no_NameError_bind; [by eauto|]. by intros ? ? ?.
  - apply no_NameError_bind; [by eauto|]. intros.
    apply no_NameError_bind; [by eauto|]. intros.
    intros ?. unfold contains. by destruct a0.
  - apply no_NameError_bind; [by eauto|]. intros.
    apply no_NameError_bind; [by eauto|]. intros.
    intros ?. unfold add.
    destruct a, a0; cbn; try done; by destruct (opaque _ || opaque _).
  - apply no_NameError_bind; [by eauto|]. intros.
    destruct a; try (destruct (opaque _); by intros ?); try by intros ?.
    apply no_NameError_bind; [|by intros ? ? ?].
    generalize w'. induction vs as [|v vs IHvs]; intros w''; [by intros ?|].
    apply no_NameError_bind; [eapply H; [done|by apply covers_insert]|]. intros.
    apply no_NameError_bind; [apply IHvs|]. by intros ? ? ?.
  - apply no_NameError_bind; [by eauto|]. intros.
    apply no_NameError_bind; [by eauto|]. by intros ? ? ?.
  - apply no_NameError_bind; [by eauto|]. intros.
    apply no_NameError_bind; [by eauto|]. by intros ? ? ?.
Qed.

Lemma closed_eval e D env w t w1 r :
  closed_e D e = true -> covers env D -> eval ext e env w = (t, w1, r) ->
  forall n, r <> inr (NameError n).
Proof.
  intros Hc Hcov E n. pose proof (proj1 eval_closed e D env w Hc Hcov n) as H.
  by rewrite E in H.
Qed.

Lemma unbind_persists h env x :
  is_Some (env !! x) -> ~ In x (hvar h) -> is_Some (unbind h env !! x).
Proof.
  intros H Hx. destruct h as [|cls [y|]]; cbn in *; try done.
  rewrite lookup_delete_ne; [done|]. intros <-. apply Hx. by left.
Qed.

Lemma bind_exn_persists h e env x :
  is_Some (env !! x) -> is_Some (bind_exn h e env !! x).
Proof.
  intros H. destruct h as [|cls [y|]]; cbn; try done.
  destruct (decide (y = x)) as [<-|Hne].
  - by rewrite lookup_insert_eq.
  - by rewrite lookup_insert_ne.
Qed.

Lemma bind_exn_covers h e env D :
  covers env D -> covers (bind_exn h e env) (hvar h ++ D).
Proof.
  intros H. destruct h as [|cls [y|]]; cbn; try done.
  by apply covers_insert.
Qed.

Lemma exec_stmt_persists loop : persists loop -> persists (exec_stmt ext loop).
Proof.
  intros Hloop s.
  induction s as [| e | y e | y path e | mods | m names | line
                  | s1 IH1 s2 IH2 | c s1 IH1 s2 IH2 | c body IH
                  | body IH1 h hbody IH2 | ];
    intros env w x Hx Hn; cbn [exec_stmt unbound_by] in *; try done.
  - by destruct (eval ext e env w) as [[t w1] [v|ex]].
  - destruct (eval ext e env w) as [[t w1] [v|ex]]; [|done]. cbn.
    destruct (decide (y = x)) as [<-|Hne].
    + by rewrite lookup_insert_eq.
    + by rewrite lookup_insert_ne.
  - destruct (eval ext e env w) as [[t w1] [v|ex]]; [|done].
    destruct (env !! y); [|done]. cbn.
    destruct (decide (y = x)) as [<-|Hne].
    + by rewrite lookup_insert_eq.
    + by rewrite lookup_insert_ne.
  - by apply persists_import.
  - by apply persists_import.
  - specialize (IH1 env w x Hx).
    destruct (exec_stmt ext loop s1 env w) as [[[t1 env1] w1] g1].
    cbn in IH1. assert (H1 : is_Some (env1 !! x))
      by (apply IH1; intros ?; apply Hn, in_or_app; by left).
    destruct g1; try done.
    specialize (IH2 env1 w1 x H1).
    destruct (exec_stmt ext loop s2 env1 w1) as [[[t2 env2] w2] g2].
    cbn in *. apply IH2. intros ?; apply Hn, in_or_app; by right.
  - destruct (eval ext c env w) as [[t w1] [v|ex]]; [|done].
    assert (is_Some (env_of (exec_stmt ext loop (if truthy v then s1 else s2) env w1)
                       !! x)) as H.
    { destruct (truthy v); [apply IH1 | apply IH2]; try done;
        intros ?; apply Hn, in_or_app; [by left | by right]. }
    by destruct (exec_stmt ext loop (if truthy v then s1 else s2) env w1)
      as [[[t2 env2] w2] g2].
  - destruct (eval ext c env w) as [[t w1] [v|ex]]; [|done].
    destruct (truthy v); [|done].
    specialize (IH env w1 x Hx Hn).
    destruct (exec_stmt ext loop body env w1) as [[[t2 env2] w2] g2].
    cbn in IH. destruct g2; try done.
    pose proof (Hloop (SWhile c body) env2 w2 x IH Hn) as H3.
    by destruct (loop (SWhile c body) env2 w2) as [[[t3 env3] w3] g3].
  - specialize (IH1 env w x Hx).
    destruct (exec_stmt ext loop body env w) as [[[t1 env1] w1] g1].
    cbn in IH1. assert (H1 : is_Some (env1 !! x))
      by (apply IH1; intros ?; apply Hn, in_or_app; by left).
    destruct g1; try done.
    destruct (catches h e); [|done].
    specialize (IH2 (bind_exn h e env1) w1 x (bind_exn_persists _ _ _ _ H1)).
    destruct (exec_stmt ext loop hbody (bind_exn h e env1) w1) as [[[t2 env2] w2] g2].
    cbn in *. apply unbind_persists.
    + apply IH2. intros ?; apply Hn, in_or_app; right; apply in_or_app; by right.
    + intros ?; apply Hn, in_or_app; right; apply in_or_app; by left.
Qed.

Lemma reenter_persists fuel : persists (reenter ext fuel).
Proof.
  induction fuel as [|fuel IH]; intros s env w x Hx Hn; [done|].
  cbn [reenter]. by apply exec_stmt_persists.
Qed.

Lemma covers_persists loop s env w D :
  persists loop -> covers env D ->
  covers (env_of (exec_stmt ext loop s env w)) (minus D (unbound_by s)).
Proof.
  intros Hp Hc x Hx. apply minus_In in Hx as [Hx Hn].
  apply exec_stmt_persists; auto.
Qed.

Lemma exec_stmt_no_stray_break loop :
  no_stray_break loop -> no_stray_break (exec_stmt ext loop).
Proof.
  intros Hloop s.
  induction s as [| e | y e | y path e | mods | m names | line
                  | s1 IH1 s2 IH2 | c s1 IH1 s2 IH2 | c body IH
                  | body IH1 h hbody IH2 | ];
    intros env w Hb; cbn [exec_stmt break_outside_loop] in *; try done.
  - by destruct (eval ext e env w) as [[t w1] [v|ex]].
  - by destruct (eval ext e env w) as [[t w1] [v|ex]].
  - destruct (eval ext e env w) as [[t w1] [v|ex]]; [|done].
    by destruct (env !! y).
  - apply orb_false_iff in Hb as [H1 H2].
    specialize (IH1 env w H1).
    destruct (exec_stmt ext loop s1 env w) as [[[t1 env1] w1] g1].
    destruct g1; try done.
    specialize (IH2 env1 w1 H2).
    by destruct (exec_stmt ext loop s2 env1 w1) as [[[t2 env2] w2] g2].
  - apply orb_false_iff in Hb as [H1 H2].
    destruct (eval ext c env w) as [[t w1] [v|ex]]; [|done].
    assert (signal_of (exec_stmt ext loop (if truthy v then s1 else s2) env w1)
              <> Break) as H
      by (destruct (truthy v); [by apply IH1 | by apply IH2]).
    by destruct (exec_stmt ext loop (if truthy v then s1 else s2) env w1)
      as [[[t2 env2] w2] g2].
  - destruct (eval ext c env w) as [[t w1] [v|ex]]; [|done].
    destruct (truthy v); [|done].
    destruct (exec_stmt ext loop body env w1) as [[[t2 env2] w2] g2].
    destruct g2; try done.
    pose proof (Hloop (SWhile c body) env2 w2 eq_refl) as H3.
    by destruct (loop (SWhile c body) env2 w2) as [[[t3 env3] w3] g3].
  - apply orb_false_iff in Hb as [H1 H2].
    specialize (IH1 env w H1).
    destruct (exec_stmt ext loop body env w) as [[[t1 env1] w1] g1].
    destruct g1; try done.
    destruct (catches h e); [|done].
    specialize (IH2 (bind_exn h e env1) w1 H2).
    by destruct (exec_stmt ext loop hbody (bind_exn h e env1) w1)
      as [[[t2 env2] w2] g2].
Qed.

Lemma reenter_no_stray_break fuel : no_stray_break (reenter ext fuel).
Proof.
  induction fuel as [|fuel IH]; intros s env w Hb; [done|].
  cbn [reenter]. by apply exec_stmt_no_stray_break.
Qed.

Lemma run_cell_no_break fuel (c : cell) : forall env w,
  signal_of (run_cell ext fuel c env w) <> Break.
Proof.
  induction c as [|s c IH]; intros env w; [done|].
  cbn [run_cell].
  destruct (break_outside_loop s) eqn:Hb; [done|].
  pose proof (exec_stmt_no_stray_break _ (reenter_no_stray_break fuel) s env w Hb)
    as H1.
  fold (exec ext fuel s env w) in H1.
  destruct (exec ext fuel s env w) as [[[t1 env1] w1] g1].
  destruct g1; try done.
  specialize (IH env1 w1).
  by destruct (run_cell ext fuel c env1 w1) as [[[t2 env2] w2] g2].
Qed.

Lemma covers_minus env D R : covers env D -> covers env (minus D R).
Proof. intros H x Hx. apply minus_In in Hx as [Hx _]. by apply H. Qed.

Lemma after_while D c b D1 :
  closed_e (minus D (unbound_by b)) c = true ->
  after (minus D (unbound_by b)) b = Some D1 ->
  after (minus D (unbound_by b)) (SWhile c b) = Some (minus D (unbound_by b)).
Proof. intros Hc Hb. cbn [after]. by rewrite minus_idem, Hc, Hb. Qed.

Lemma exec_stmt_sound loop :
  persists loop -> sound loop -> sound (exec_stmt ext loop).
Proof.
  intros Hp Hloop s.
  induction s as [| e | y e | y path e | mods | m names | line
                  | s1 IH1 s2 IH2 | c s1 IH1 s2 IH2 | c body IH
                  | body IH1 h hbody IH2 | ];
    intros D D' env w Hc Ha; cbn [exec_stmt after] in *.
  - injection Ha as <-. by split.
  - destruct (closed_e D e) eqn:Hcl; [|done]. injection Ha as <-.
    destruct (eval ext e env w) as [[t w1] [v|ex]] eqn:E; [by split|].
    split; [|done]. cbn. destruct ex; try done.
    by destruct (closed_eval _ _ _ _ _ _ _ Hcl Hc E x).
  - destruct (closed_e D e) eqn:Hcl; [|done]. injection Ha as <-.
    destruct (eval ext e env w) as [[t w1] [v|ex]] eqn:E.
    + split; [done|]. intros _. by apply covers_insert.
    + split; [|done]. cbn. destruct ex; try done.
      by destruct (closed_eval _ _ _ _ _ _ _ Hcl Hc E x).
  - destruct (closed_e D e) eqn:Hcl; [|done].
    destruct (known D y) eqn:Hy; [|done]. injection Ha as <-.
    destruct (eval ext e env w) as [[t w1] [v|ex]] eqn:E.
    + destruct (covers_known _ _ _ Hc Hy) as [o ->]. split; [done|].
      intros _. by apply covers_insert_same.
    + split; [|done]. cbn. destruct ex; try done.
      by destruct (closed_eval _ _ _ _ _ _ _ Hcl Hc E x).
  - injection Ha as <-. split; [done|]. intros _. by apply covers_import.
  - injection Ha as <-. split; [done|]. intros _. by apply covers_import.
  - injection Ha as <-. by split.
  - destruct (after D s1) as [D1|] eqn:Ha1; [|done].
    destruct (IH1 _ _ env w Hc Ha1) as [Hn1 Hc1].
    destruct (exec_stmt ext loop s1 env w) as [[[t1 env1] w1] g1].
    cbn in Hn1, Hc1. destruct g1; try done.
    destruct (IH2 _ _ env1 w1 (Hc1 eq_refl) Ha) as [Hn2 Hc2].
    by destruct (exec_stmt ext loop s2 env1 w1) as [[[t2 env2] w2] g2].
  - destruct (closed_e D c) eqn:Hcl; [|done].
    destruct (after D s1) as [D1|] eqn:Ha1; [|done].
    destruct (after D s2) as [D2|] eqn:Ha2; [|done]. injection Ha as <-.
    destruct (eval ext c env w) as [[t w1] [v|ex]] eqn:E.
    + assert (H : is_NameError
                    (signal_of (exec_stmt ext loop (if truthy v then s1 else s2)
                                  env w1)) = false /\
                  (signal_of (exec_stmt ext loop (if truthy v then s1 else s2)
                                env w1) = Normal ->
                   covers (env_of (exec_stmt ext loop
                                     (if truthy v then s1 else s2) env w1))
                          (both D1 D2))).
      { destruct (truthy v).
        - destruct (IH1 _ _ env w1 Hc Ha1) as [Hn1 Hc1]. split; [done|].
          intros Hg. eapply covers_incl; [by apply Hc1|].
          intros x Hx. by apply both_In in Hx as [? ?].
        - destruct (IH2 _ _ env w1 Hc Ha2) as [Hn2 Hc2]. split; [done|].
          intros Hg. eapply covers_incl; [by apply Hc2|].
          intros x Hx. by apply both_In in Hx as [? ?]. }
      by destruct (exec_stmt ext loop (if truthy v then s1 else s2) env w1)
        as [[[t2 env2] w2] g2].
    + split; [|done]. cbn. destruct ex; try done.
      by destruct (closed_eval _ _ _ _ _ _ _ Hcl Hc E x).
  - destruct (closed_e (minus D (unbound_by body)) c) eqn:Hcl; [|done].
    destruct (after (minus D (unbound_by body)) body) as [D1|] eqn:Ha1; [|done].
    injection Ha as <-.
    pose proof (covers_minus _ _ (unbound_by body) Hc) as Hc0.
    destruct (eval ext c env w) as [[t w1] [v|ex]] eqn:E.
    + destruct (truthy v); [|by split].
      destruct (IH _ _ env w1 Hc0 Ha1) as [Hn1 _].
      pose proof (covers_persists loop body env w1 _ Hp Hc0) as Hc2.
      rewrite minus_idem in Hc2.
      destruct (exec_stmt ext loop body env w1) as [[[t2 env2] w2] g2].
      cbn in Hn1, Hc2. destruct g2; try done.
      destruct (Hloop _ _ _ env2 w2 Hc2 (after_while _ _ _ _ Hcl Ha1))
        as [Hn3 Hc3].
      by destruct (loop (SWhile c body) env2 w2) as [[[t3 env3] w3] g3].
    + split; [|done]. cbn. destruct ex; try done.
      by destruct (closed_eval _ _ _ _ _ _ _ Hcl Hc0 E x).
  - destruct (after D body) as [D1|] eqn:Ha1; [|done].
    destruct (after (hvar h ++ minus D (unbound_by body)) hbody) as [D2|] eqn:Ha2;
      [|done]. injection Ha as <-.
    destruct (IH1 _ _ env w Hc Ha1) as [Hn1 Hc1].
    pose proof (covers_persists loop body env w _ Hp Hc) as Hc0.
    destruct (exec_stmt ext loop body env w) as [[[t1 env1] w1] g1].
    cbn in Hn1, Hc1, Hc0. destruct g1; try done.
    + split; [done|]. intros _. eapply covers_incl; [by apply Hc1|].
      intros x Hx. by apply both_In in Hx as [? ?].
    + destruct (catches h e); [|done].
      destruct (IH2 _ _ (bind_exn h e env1) w1 (bind_exn_covers _ _ _ _ Hc0) Ha2)
        as [Hn2 Hc2].
      destruct (exec_stmt ext loop hbody (bind_exn h e env1) w1)
        as [[[t2 env2] w2] g2].
      cbn in *. split; [done|]. intros Hg x Hx.
      apply both_In in Hx as [_ Hx]. apply minus_In in Hx as [Hx Hnx].
      apply unbind_persists; [by apply Hc2|done].
  - injection Ha as <-. by split.
Qed.

Lemma reenter_sound fuel : sound (reenter ext fuel).
Proof.
  induction fuel as [|fuel IH]; intros s D D' env w Hc Ha; [by split|].
  cbn [reenter].
  exact (exec_stmt_sound _ (reenter_persists fuel) IH s D D' env w Hc Ha).
Qed.

Lemma run_cell_sound fuel (c : cell) : forall D D' env w,
  covers env D -> after_cell D c = Some D' ->
  is_NameError (signal_of (run_cell ext fuel c env w)) = false /\
  (signal_of (run_cell ext fuel c env w) = Normal ->
   covers (env_of (run_cell ext fuel c env w)) D').
Proof.
  induction c as [|s c IH]; intros D D' env w Hc Ha; cbn [run_cell after_cell] in *.
  - injection Ha as <-. by split.
  - destruct (after D s) as [D1|] eqn:Ha1; [|done].
    destruct (break_outside_loop s); [by split|].
    destruct (exec_stmt_sound _ (reenter_persists fuel) (reenter_sound fuel)
                s _ _ env w Hc Ha1) as [Hn1 Hc1].
    fold (exec ext fuel s env w) in Hn1, Hc1.
    destruct (exec ext fuel s env w) as [[[t1 env1] w1] g1].
    cbn in Hn1, Hc1. destruct g1; try done.
    destruct (IH _ _ env1 w1 (Hc1 eq_refl) Ha) as [Hn2 Hc2].
    by destruct (run_cell ext fuel c env1 w1) as [[[t2 env2] w2] g2].
Qed.

Lemma run_cells_sound fuel (cs : list cell) : forall D D' env w,
  covers env D -> after_cells D cs = Some D' ->
  is_NameError (signal_of (run_cells ext true fuel cs env w)) = false /\
  (signal_of (run_cells ext true fuel cs env w) = Normal ->
   covers (env_of (run_cells ext true fuel cs env w)) D').
Proof.
  induction cs as [|c cs IH]; intros D D' env w Hc Ha;
    cbn [run_cells after_cells] in *.
  - injection Ha as <-. by split.
  - destruct (after_cell D c) as [D1|] eqn:Ha1; [|done].
    destruct (run_cell_sound fuel c _ _ env w Hc Ha1) as [Hn1 Hc1].
    pose proof (run_cell_no_break fuel c env w) as Hb.
    destruct (run_cell ext fuel c env w) as [[[t1 env1] w1] g1].
    cbn in Hn1, Hc1, Hb. destruct g1; try done.
    destruct (IH _ _ env1 w1 (Hc1 eq_refl) Ha) as [Hn2 Hc2].
    by destruct (run_cells ext true fuel cs env1 w1) as [[[t2 env2] w2] g2].
Qed.

(** X7: run in order in a kernel that has the builtins, stopping at the
    first error, the data notebook never raises NameError, nor do the
    cells of the fine-tuning notebook up to the poll cell, nor these
    followed by the retrieval and deployment cells: every name is
    bound by an earlier statement on every path that reaches its
    use. *)
Theorem notebooks_read_no_unbound_name
    (fuel : nat) (env : gmap string value) (w : W) :
  covers env builtins ->
  forall cs,
    In cs [ WorkingWithData.notebook; RunAll.up_to_poll;
            RunAll.up_to_poll ++ deployment_cells ] ->
    forall x, signal_of (run_cells ext true fuel cs env w) <> Exc (NameError x).
Proof.
  intros Hc cs Hcs x Hx.
  assert (Ha : exists D', after_cells builtins cs = Some D').
  { destruct Hcs as [<-|[<-|[<-|[]]]]; eexists; vm_compute; reflexivity. }
  destruct Ha as [D' Ha].
  destruct (run_cells_sound fuel cs _ _ env w Hc Ha) as [Hn _].
  by rewrite Hx in Hn.
Qed.

End BoundNames.

(** ** Calls that always receive the same arguments *)

Section SteadyArgs.

Import Bound Steady.
Context {W : Type}.
Variable ext : W -> value -> list value -> list (string * value) -> reply * W.
Variable site : string.
Variable a0 : args.
Variable env0 : gmap string value.

Lemma same_e_eq a : forall b, same_e a b = true -> a = b.
Proof.
  induction a; intros [] H; cbn in H; try discriminate; try done.
  - by apply Bool.eqb_prop in H as ->.
  - by apply Z.eqb_eq in H as ->.
  - by apply String.eqb_eq in H as ->.
  - by apply String.eqb_eq in H as ->.
  - apply andb_true_iff in H as [H1 H2].
    apply String.eqb_eq in H2 as ->. by rewrite (IHa _ H1).
Qed.

Lemma same_a_eq a : forall b, same_a a b = true -> a = b.
Proof.
  induction a as [|e a IH|k e a IH]; intros [] H; cbn in H; try discriminate;
    try done.
  - apply andb_true_iff in H as [H1 H2].
    by rewrite (same_e_eq _ _ H1), (IH _ H2).
  - apply andb_true_iff in H as [H H2]. apply andb_true_iff in H as [H0 H1].
    apply String.eqb_eq in H0 as ->.
    by rewrite (same_e_eq _ _ H1), (IH _ H2).
Qed.

Lemma eval_attr e a env w :
  eval ext (EAttr e a) env w =
    match eval ext e env w with
    | (t, w1, inl v) => (t ++ [], w1, inl (get_attr v a))
    | (t, w1, inr ex) => (t, w1, inr ex)
    end.
Proof. reflexivity. Qed.

Lemma eval_args_pos e rest env w :
  eval_args ext (APos e rest) env w =
    bind (eval ext e env)
      (fun v => bind (eval_args ext rest env)
                  (fun pk => ret (v :: fst pk, snd pk))) w.
Proof. reflexivity. Qed.

Lemma eval_args_kw k e rest env w :
  eval_args ext (AKw k e rest) env w =
    bind (eval ext e env)
      (fun v => bind (eval_args ext rest env)
                  (fun pk => ret (fst pk, (k, v) :: snd pk))) w.
Proof. reflexivity. Qed.

(** Evaluating such an expression yields its pure value. *)
Lemma pure_value_eval e : forall b env w t w1 v,
  same_e e b = true ->
  eval ext e env w = (t, w1, inl v) -> pure_value env e = Some v.
Proof.
  induction e; intros [] env w t w1 v Hs E; cbn in Hs; try discriminate;
    try (cbn in E |- *; by injection E as <- <- <-).
  - cbn in E |- *. destruct (env !! x); [by injection E as <- <- <-|done].
  - apply andb_true_iff in Hs as [Hs _]. rewrite eval_attr in E.
    cbn [pure_value].
    destruct (eval ext e env w) as [[t' w'] [v'|ex]] eqn:E'; [|done].
    injection E as <- <- <-. by rewrite (IHe _ _ _ _ _ _ Hs E').
Qed.

Lemma pure_args_eval a : forall b env w t w1 pk,
  same_a a b = true ->
  eval_args ext a env w = (t, w1, inl pk) -> pure_args env a = Some pk.
Proof.
  induction a as [|e a IH|k e a IH]; intros [] env w t w1 pk Hs E;
    cbn in Hs; try discriminate; cbn [pure_args].
  - cbn in E. by injection E as <- <- <-.
  - apply andb_true_iff in Hs as [H1 H2].
    rewrite eval_args_pos in E. unfold bind in E.
    destruct (eval ext e env w) as [[t' w'] [v'|ex]] eqn:E'; [|done].
    rewrite (pure_value_eval _ _ _ _ _ _ _ H1 E').
    destruct (eval_args ext a env w') as [[t'' w''] [pk'|ex]] eqn:E''; [|done].
    rewrite (IH _ _ _ _ _ _ H2 E''). cbn in E. by injection E as <- <- <-.
  - apply andb_true_iff in Hs as [H H2]. apply andb_true_iff in H as [_ H1].
    rewrite eval_args_kw in E. unfold bind in E.
    destruct (eval ext e env w) as [[t' w'] [v'|ex]] eqn:E'; [|done].
    rewrite (pure_value_eval _ _ _ _ _ _ _ H1 E').
    destruct (eval_args ext a env w') as [[t'' w''] [pk'|ex]] eqn:E''; [|done].
    rewrite (IH _ _ _ _ _ _ H2 E''). cbn in E. by injection E as <- <- <-.
Qed.

Lemma pure_value_agree e env env' :
  (forall x, In x (names_e e) -> env !! x = env' !! x) ->
  pure_value env e = pure_value env' e.
Proof.
  induction e; intros H; cbn in *; try done.
  - apply H. by left.
  - by rewrite IHe.
Qed.

Lemma pure_args_agree a env env' :
  (forall x, In x (names_a a) -> env !! x = env' !! x) ->
  pure_args env a = pure_args env' a.
Proof.
  induction a as [|e a IH|k e a IH]; intros H; cbn in *; try done.
  - rewrite (pure_value_agree e env env'), IH; try done;
      intros x Hx; apply H, in_or_app; [by right | by left].
  - rewrite (pure_value_agree e env env'), IH; try done;
      intros x Hx; apply H, in_or_app; [by right | by left].
Qed.

Lemma call_carries s f pos kw w :
  Forall (carries s pos kw) (tr_of (W:=W) (call ext s f pos kw w)).
Proof.
  assert (He : forall g, Forall (carries s pos kw)
                           (tr_of (W:=W) (external ext s g pos kw w))).
  { intros g. unfold tr_of, external.
    destruct (ext w g pos kw) as [[v|cls] w']; cbn; by repeat constructor. }
  unfold call. destruct f; try apply He.
  - repeat case_match; try apply He; unfold tr_of; cbn; by repeat constructor.
  - destruct f; try apply He. case_match; try apply He.
    unfold tr_of; cbn; by repeat constructor.
Qed.

Lemma ok_bind {A B : Type} (m : M A) (k : A -> M B) w :
  Forall (stable site a0 env0) (tr_of (W:=W) (m w)) ->
  (forall a t w', m w = (t, w', inl a) -> Forall (stable site a0 env0) (tr_of (W:=W) (k a w'))) ->
  Forall (stable site a0 env0) (tr_of (W:=W) (bind m k w)).
Proof.
  unfold tr_of, bind. intros Hm Hk.
  destruct (m w) as [[t1 w1] [a|e]]; cbn in *; [|done].
  specialize (Hk a t1 w1 eq_refl). destruct (k a w1) as [[t2 w2] r]. cbn in *.
  by apply Forall_app.
Qed.

Lemma ok_quiet {A : Type} (x : list event * W * (A + exn)) :
  x.1.1 = [] -> Forall (stable site a0 env0) (tr_of x).
Proof. unfold tr_of. intros ->. constructor. Qed.

Lemma agree_insert env x v :
  free a0 x = true -> agree a0 env env0 -> agree a0 (<[x := v]> env) env0.
Proof.
  intros Hf H y Hy. rewrite lookup_insert_ne; [by apply H|].
  intros <-. apply negb_true_iff in Hf. apply known_In in Hy. congruence.
Qed.

Lemma eval_steady :
  (forall e env w, steady_e site a0 e = true -> agree a0 env env0 ->
     Forall (stable site a0 env0) (tr_of (W:=W) (eval ext e env w))) /\
  (forall a env w, steady_a site a0 a = true -> agree a0 env env0 ->
     Forall (stable site a0 env0) (tr_of (W:=W) (eval_args ext a env w))).
Proof.
  apply expr_args_mutind; intros; cbn [eval eval_args steady_e steady_a] in *;
    try (by apply ok_quiet);
    repeat match goal with
           | H : _ && _ = true |- _ => apply andb_true_iff in H as [? ?]
           end.
  - destruct (env !! x); by apply ok_quiet.
  - apply ok_bind; [by eauto|]. intros. by apply ok_quiet.
  - apply ok_bind; [by eauto|]. intros.
    apply ok_bind; [by eauto|]. intros.
    apply ok_quiet. unfold index. destruct a, a1; cbn; try done.
    by destruct (assoc _ _).
  - apply ok_bind; [by eauto|]. intros.
    apply ok_quiet. unfold slice. by destruct a.
  - apply ok_bind; [by eauto|]. intros fv t1 w1 _.
    apply ok_bind; [by eauto|]. intros pk t2 w2 Hargs.
    eapply Forall_impl; [apply call_carries|].
    intros [s g pos kw r| | |]; cbn; try done.
    intros (-> & -> & ->) Hsite.
    match goal with
    | H : negb _ || same_a _ _ = true |- _ =>
        rewrite Hsite, String.eqb_refl in H; cbn in H;
        pose proof (pure_args_eval _ _ _ _ _ _ _ H Hargs) as Hp;
        apply same_a_eq in H; subst a0
    end.
    rewrite <- (pure_args_agree a env env0) by done.
    rewrite Hp. by destruct pk.
  - apply ok_bind; [by eauto|]. intros. by apply ok_quiet.
  - apply ok_bind; [by eauto|]. intros. by apply ok_quiet.
  - apply ok_bind; [by eauto|]. intros. by apply ok_quiet.
  - apply ok_bind; [by eauto|]. intros.
    apply ok_bind; [by eauto|]. intros.
    apply ok_quiet. unfold contains. by destruct a1.
  - apply ok_bind; [by eauto|]. intros.
    apply ok_bind; [by eauto|]. intros.
    apply ok_quiet. unfold add.
    destruct a, a1; cbn; try done; by destruct (opaque _ || opaque _).
  - apply ok_bind; [by eauto|]. intros it ? ? _.
    destruct it; try (destruct (opaque _); by apply ok_quiet);
      try by apply ok_quiet.
    apply ok_bind; [|intros; by apply ok_quiet].
    generalize w'. induction vs as [|v vs IHvs]; intros w''; [by apply ok_quiet|].
    apply ok_bind; [apply H; [done|by apply agree_insert]|]. intros.
    apply ok_bind; [apply IHvs|]. intros; by apply ok_quiet.
  - apply ok_bind; [by eauto|]. intros.
    apply ok_bind; [by eauto|]. intros. by apply ok_quiet.
  - apply ok_bind; [by eauto|]. intros.
    apply ok_bind; [by eauto|]. intros. by apply ok_quiet.
Qed.

Lemma steady_eval e env w t w1 r :
  steady_e site a0 e = true -> agree a0 env env0 ->
  eval ext e env w = (t, w1, r) -> Forall (stable site a0 env0) t.
Proof.
  intros Hs Ha E. pose proof (proj1 eval_steady e env w Hs Ha) as H.
  unfold tr_of in H. by rewrite E in H.
Qed.

Lemma agree_import env prefix names :
  forallb (free a0) names = true -> agree a0 env env0 ->
  agree a0 (import_all prefix names env) env0.
Proof.
  unfold import_all. revert env.
  induction names as [|n names IH]; intros env Hf H; [done|].
  cbn in Hf. apply andb_true_iff in Hf as [H1 H2]. cbn [fold_left].
  apply IH; [done|]. by apply agree_insert.
Qed.

Lemma agree_bind_exn h e env :
  forallb (free a0) (hvar h) = true -> agree a0 env env0 ->
  agree a0 (bind_exn h e env) env0.
Proof.
  intros Hf H. destruct h as [|cls [y|]]; cbn in *; try done.
  apply agree_insert; [|done]. by apply andb_true_iff in Hf as [? _].
Qed.

Lemma agree_unbind h env :
  forallb (free a0) (hvar h) = true -> agree a0 env env0 ->
  agree a0 (unbind h env) env0.
Proof.
  intros Hf H. destruct h as [|cls [y|]]; cbn in *; try done.
  apply andb_true_iff in Hf as [Hf _].
  intros x Hx. rewrite lookup_delete_ne; [by apply H|].
  intros <-. apply negb_true_iff in Hf. apply known_In in Hx. congruence.
Qed.

Lemma exec_stmt_steady loop :
  steady_loop site a0 env0 loop -> steady_loop site a0 env0 (exec_stmt ext loop).
Proof.
  intros Hloop s. unfold steady_run, trace_of, env_of.
  induction s as [| e | y e | y path e | mods | m names | line
                  | s1 IH1 s2 IH2 | c s1 IH1 s2 IH2 | c body IH
                  | body IH1 h hbody IH2 | ];
    intros env w Hs Ha; cbn [exec_stmt steady] in *;
    repeat match goal with
           | H : _ && _ = true |- _ => apply andb_true_iff in H as [? ?]
           end;
    try (by split; [constructor|]).
  - destruct (eval ext e env w) as [[t w1] [v|ex]] eqn:E;
      pose proof (steady_eval _ _ _ _ _ _ Hs Ha E); by split.
  - destruct (eval ext e env w) as [[t w1] [v|ex]] eqn:E;
      pose proof (steady_eval _ _ _ _ _ _ H Ha E); split; try done.
    by apply agree_insert.
  - destruct (eval ext e env w) as [[t w1] [v|ex]] eqn:E;
      pose proof (steady_eval _ _ _ _ _ _ H Ha E); [|by split].
    destruct (env !! y); split; try done. by apply agree_insert.
  - split; [constructor|]. by apply agree_import.
  - split; [constructor|]. by apply agree_import.
  - destruct (IH1 env w H Ha) as [T1 A1].
    destruct (exec_stmt ext loop s1 env w) as [[[t1 env1] w1] g1].
    cbn in T1, A1. destruct g1; try by split.
    destruct (IH2 env1 w1 H0 A1) as [T2 A2].
    destruct (exec_stmt ext loop s2 env1 w1) as [[[t2 env2] w2] g2].
    cbn in *. split; [by apply Forall_app|done].
  - destruct (eval ext c env w) as [[t w1] [v|ex]] eqn:E;
      pose proof (steady_eval _ _ _ _ _ _ H Ha E); [|by split].
    assert (Forall (stable site a0 env0)
              (exec_stmt ext loop (if truthy v then s1 else s2) env w1).1.1.1 /\
            agree a0 (exec_stmt ext loop (if truthy v then s1 else s2) env w1).1.1.2
              env0) as [T2 A2]
      by (destruct (truthy v); [by apply IH1 | by apply IH2]).
    destruct (exec_stmt ext loop (if truthy v then s1 else s2) env w1)
      as [[[t2 env2] w2] g2].
    cbn in *. split; [by apply Forall_app|done].
  - destruct (eval ext c env w) as [[t w1] [v|ex]] eqn:E;
      pose proof (steady_eval _ _ _ _ _ _ H Ha E); [|by split].
    destruct (truthy v); [|by split].
    destruct (IH env w1 H0 Ha) as [T2 A2].
    destruct (exec_stmt ext loop body env w1) as [[[t2 env2] w2] g2].
    cbn in T2, A2.
    destruct g2; cbn; try (split; [by apply Forall_app|done]).
    assert (Hw : steady site a0 (SWhile c body) = true)
      by (cbn; by rewrite H, H0).
    destruct (Hloop (SWhile c body) env2 w2 Hw A2) as [T3 A3].
    unfold trace_of, env_of in T3, A3.
    destruct (loop (SWhile c body) env2 w2) as [[[t3 env3] w3] g3].
    cbn in *. split; [|done]. apply Forall_app; split; [done|].
    by apply Forall_app.
  - destruct (IH1 env w H Ha) as [T1 A1].
    destruct (exec_stmt ext loop body env w) as [[[t1 env1] w1] g1].
    cbn in T1, A1. destruct g1; try by split.
    destruct (catches h e); [|by split].
    destruct (IH2 (bind_exn h e env1) w1 H1 (agree_bind_exn _ _ _ H0 A1))
      as [T2 A2].
    destruct (exec_stmt ext loop hbody (bind_exn h e env1) w1) as [[[t2 env2] w2] g2].
    cbn in *. split; [by apply Forall_app|]. by apply agree_unbind.
Qed.

Lemma reenter_steady fuel : steady_loop site a0 env0 (reenter ext fuel).
Proof.
  induction fuel as [|fuel IH]; intros s env w Hs Ha; [by split; [constructor|]|].
  cbn [reenter]. by apply exec_stmt_steady.
Qed.

Lemma run_cell_steady fuel (c : cell) : forall env w,
  steady_cell site a0 c = true -> agree a0 env env0 ->
  steady_run site a0 env0 (run_cell ext fuel c env w).
Proof.
  unfold steady_run, trace_of, env_of.
  induction c as [|s c IH]; intros env w Hs Ha; cbn [run_cell steady_cell forallb] in *.
  - by split; [constructor|].
  - apply andb_true_iff in Hs as [H1 H2].
    destruct (break_outside_loop s); [by split; [constructor|]|].
    destruct (exec_stmt_steady _ (reenter_steady fuel) s env w H1 Ha) as [T1 A1].
    unfold trace_of, env_of in T1, A1. fold (exec ext fuel s env w) in T1, A1.
    destruct (exec ext fuel s env w) as [[[t1 env1] w1] g1].
    cbn in T1, A1. destruct g1; try by split.
    destruct (IH env1 w1 H2 A1) as [T2 A2].
    destruct (run_cell ext fuel c env1 w1) as [[[t2 env2] w2] g2].
    cbn in *. split; [by apply Forall_app|done].
Qed.

Lemma run_cells_steady halt fuel (cs : list cell) : forall env w,
  steady_cells site a0 cs = true -> agree a0 env env0 ->
  steady_run site a0 env0 (run_cells ext halt fuel cs env w).
Proof.
  unfold steady_run, trace_of, env_of.
  induction cs as [|c cs IH]; intros env w Hs Ha;
    cbn [run_cells steady_cells forallb] in *.
  - by split; [constructor|].
  - apply andb_true_iff in Hs as [H1 H2].
    destruct (run_cell_steady fuel c env w H1 Ha) as [T1 A1].
    unfold trace_of, env_of in T1, A1.
    destruct (run_cell ext fuel c env w) as [[[t1 env1] w1] g1].
    cbn in T1, A1.
    destruct (IH env1 w1 H2 A1) as [T2 A2].
    destruct (run_cells ext halt fuel cs env1 w1) as [[[t2 env2] w2] g2].
    cbn in T2, A2.
    destruct g1; cbn; try (split; [by apply Forall_app|done]).
    + destruct halt; cbn; split; try done. by apply Forall_app.
    + by split.
Qed.

End SteadyArgs.

(** ** The job that is polled is the job that was submitted *)

Section SameJob.

Import FineTuning Steady.
Context {W : Type}.
Variable ext : W -> value -> list value -> list (string * value) -> reply * W.

Lemma within_not_In l tr site f pos kw r :
  within l tr -> ~ In site l -> ~ In (EvCall site f pos kw r) tr.
Proof.
  intros H Hn Hin. unfold within in H. rewrite List.Forall_forall in H.
  by apply H in Hin.
Qed.

Lemma stable_In site a0 env0 tr f pos kw r :
  Forall (stable site a0 env0) tr -> In (EvCall site f pos kw r) tr ->
  pure_args env0 a0 = Some (pos, kw).
Proof.
  intros H Hin. rewrite List.Forall_forall in H. by apply (H _ Hin).
Qed.

Lemma job_name_value env pos kw :
  pure_args env job_name = Some (pos, kw) ->
  kw = [] /\ exists j, env !! "created_job" = Some j /\ pos = [get_attr j "name"].
Proof.
  cbn. destruct (env !! "created_job") as [j|]; [|done].
  intros [= <- <-]. split; [done|]. by exists j.
Qed.

Lemma job_name_final env0 env pos kw :
  agree job_name env env0 ->
  pure_args env0 job_name = Some (pos, kw) ->
  kw = [] /\ exists j, env !! "created_job" = Some j /\ pos = [get_attr j "name"].
Proof.
  intros Ha Hp. apply job_name_value. rewrite <- Hp.
  by apply pure_args_agree.
Qed.

(** From the submit cell on. *)
Lemma same_job_from_submit halt fuel env w f pos kw r :
  let res := run_cells ext halt fuel (drop 9 notebook) env w in
  In (EvCall "workspace_ml_client.jobs.get" f pos kw r) (trace_of res) ->
  kw = [] /\
  exists j, env_of res !! "created_job" = Some j /\ pos = [get_attr j "name"].
Proof.
  intros res Hin. subst res. revert Hin.
  change (drop 9 notebook) with
    (( ("created_job" ::=
          ecall (&"workspace_ml_client" @@ "jobs" @@ "create_or_update")
            [&"finetuning_job"] [])
       :: [SExpr (ecall (&"workspace_ml_client" @@ "jobs" @@ "get")
                    [&"created_job" @@ "name"] [])])
     :: drop 10 notebook).
  rewrite run_cells_from_stmt by reflexivity.
  pose proof (exec_stmt_confined ext _ (reenter_confined ext fuel)
                ("created_job" ::=
                   ecall (&"workspace_ml_client" @@ "jobs" @@ "create_or_update")
                     [&"finetuning_job"] []) env w) as Hs1.
  fold (exec ext fuel
          ("created_job" ::=
             ecall (&"workspace_ml_client" @@ "jobs" @@ "create_or_update")
               [&"finetuning_job"] []) env w) in Hs1.
  destruct (exec ext fuel _ env w) as [[[t1 env1] w1] g1].
  cbn [trace_of fst] in Hs1.
  assert (Hno : ~ In (EvCall "workspace_ml_client.jobs.get" f pos kw r) t1).
  { apply (within_not_In _ _ _ _ _ _ _ Hs1). cbn. intros [H|[]]; discriminate. }
  assert (Hrest : forall cs,
            steady_cells "workspace_ml_client.jobs.get" job_name cs = true ->
            let res := run_cells ext halt fuel cs env1 w1 in
            In (EvCall "workspace_ml_client.jobs.get" f pos kw r) (trace_of res) ->
            kw = [] /\
            exists j, env_of res !! "created_job" = Some j /\
                      pos = [get_attr j "name"]).
  { intros cs Hcs res Hin.
    destruct (run_cells_steady ext _ job_name env1 halt fuel cs env1 w1 Hcs)
      as [Ht Ha]; [done|].
    apply (job_name_final env1); [done|].
    by apply (stable_In _ _ _ _ _ _ _ _ Ht Hin). }
  assert (H10 : steady_cells "workspace_ml_client.jobs.get" job_name
                  (drop 10 notebook) = true) by (vm_compute; reflexivity).
  assert (H9 : steady_cells "workspace_ml_client.jobs.get" job_name
                 ([SExpr (ecall (&"workspace_ml_client" @@ "jobs" @@ "get")
                            [&"created_job" @@ "name"] [])] :: drop 10 notebook)
               = true) by (vm_compute; reflexivity).
  destruct g1.
  - specialize (Hrest _ H9).
    destruct (run_cells ext halt fuel _ env1 w1) as [[[t2 env2] w2] g2].
    cbn in *. intros Hin. apply in_app_iff in Hin as [Hin|Hin]; [done|].
    by apply Hrest.
  - specialize (Hrest _ H10).
    destruct (run_cells ext halt fuel _ env1 w1) as [[[t2 env2] w2] g2].
    cbn in *. intros Hin. apply in_app_iff in Hin as [Hin|Hin]; [done|].
    by apply Hrest.
  - destruct halt; [done|]. specialize (Hrest _ H10).
    destruct (run_cells ext false fuel _ env1 w1) as [[[t2 env2] w2] g2].
    cbn in *. intros Hin. apply in_app_iff in Hin as [Hin|Hin]; [done|].
    by apply Hrest.
  - done.
Qed.

(** X8: every status query of the fine-tuning notebook, in the poll
    cell before and inside the loop, has the single argument
    [created_job.name], where [created_job] is what the submit cell
    bound, the only cell that assigns it. *)
Theorem every_status_query_is_for_the_submitted_job
    (halt : bool) (fuel : nat) (env : gmap string value) (w : W)
    (f : value) (pos : list value) (kw : list (string * value)) (r : reply) :
  let res := run_cells ext halt fuel notebook env w in
  In (EvCall "workspace_ml_client.jobs.get" f pos kw r) (trace_of res) ->
  binders "created_job" notebook = [9] /\
  kw = [] /\
  exists j, env_of res !! "created_job" = Some j /\ pos = [get_attr j "name"].
Proof.
  intros res Hin. split; [vm_compute; reflexivity|].
  subst res. revert Hin.
  change notebook with (take 9 notebook ++ drop 9 notebook).
  rewrite run_cells_app.
  pose proof (run_cells_confined ext halt fuel (take 9 notebook) env w) as Hpre.
  destruct (run_cells ext halt fuel (take 9 notebook) env w)
    as [[[t1 env1] w1] g1].
  cbn [trace_of fst] in Hpre.
  assert (Hno : ~ In (EvCall "workspace_ml_client.jobs.get" f pos kw r) t1).
  { apply (within_not_In _ _ _ _ _ _ _ Hpre). vm_compute. intuition discriminate. }
  destruct g1; try done.
  pose proof (same_job_from_submit halt fuel env1 w1 f pos kw r) as Hpost.
  destruct (run_cells ext halt fuel (drop 9 notebook) env1 w1)
    as [[[t2 env2] w2] g2].
  cbn in *. intros Hin. apply in_app_iff in Hin as [Hin|Hin]; [done|].
  by apply Hpost.
Qed.

End SameJob.

Lemma every_status_query_is_for_the_submitted_job_witness :
  let res := run_cells Platform.ext true 5 FineTuning.notebook fresh_env
               (Platform.quiet Poll.sample_status) in
  let q := EvCall "workspace_ml_client.jobs.get"
             (VProj (VProj Platform.handle "jobs") "get")
             [VProj Platform.handle "name"] [] (Ret (Platform.job "Running")) in
  In q (trace_of res) /\
  exists j, env_of res !! "created_job" = Some j /\
            [VProj Platform.handle "name"] = [get_attr j "name"].
Proof.
  intros res q.
  assert (Hin : In q (trace_of res)).
  { vm_compute. repeat (first [left; reflexivity | right]). }
  split; [exact Hin|].
  exact (proj2 (proj2 (every_status_query_is_for_the_submitted_job
                         Platform.ext true 5 fresh_env
                         (Platform.quiet Poll.sample_status) _ _ _ _ Hin))).
Defined.

(** ** The schedule that the management cells act on *)

Section ManagedSchedule.

Import WorkingWithData Steady Schedules.
Context {W : Type}.
Variable ext : W -> value -> list value -> list (string * value) -> reply * W.

(** When a cell completes, a name that it assigns a string, and does
    not bind again afterwards, holds that string. *)
Lemma last_assignment fuel (c1 c2 : cell) x s env w :
  ~ In x (assigned_cell c2) ->
  let r := run_cell ext fuel (c1 ++ [x ::= EStr s] ++ c2) env w in
  signal_of r = Normal -> env_of r !! x = Some (VStr s).
Proof.
  intros Hn r. subst r. rewrite run_cell_app.
  destruct (run_cell ext fuel c1 env w) as [[[t1 env1] w1] g1].
  destruct g1; try done.
  rewrite run_cell_app.
  change (run_cell ext fuel [x ::= EStr s] env1 w1)
    with (([] ++ [] : list event), <[x := VStr s]> env1, w1, Normal).
  cbv beta iota.
  pose proof (run_cell_frame ext x fuel c2 (<[x := VStr s]> env1) w1 Hn) as Hf.
  destruct (run_cell ext fuel c2 (<[x := VStr s]> env1) w1) as [[[t2 env2] w2] g2].
  cbn in *. intros _. by rewrite Hf, lookup_insert_eq.
Qed.

Lemma by_name_value env pos kw :
  pure_args env by_name = Some (pos, kw) ->
  pos = [] /\ exists n, env !! "schedule_name" = Some n /\ kw = [("name", n)].
Proof.
  cbn. destruct (env !! "schedule_name") as [n|]; [|done].
  intros [= <- <-]. split; [done|]. by exists n.
Qed.

Lemma management_steady site :
  In site management_sites ->
  steady_cells site by_name (drop 15 notebook) = true.
Proof.
  intros [<-|[<-|[<-|[<-|[]]]]]; vm_compute; reflexivity.
Qed.

Lemma management_later site :
  In site management_sites -> ~ In site (notebook_sites (take 15 notebook)).
Proof.
  intros [<-|[<-|[<-|[<-|[]]]]]; vm_compute; intuition discriminate.
Qed.

(** X9: in a run of the data notebook from top to bottom that stops at
    the first error, the disable, get, enable and delete cells all act
    on one schedule, my_simple_sdk_create_schedule_cron: each of these
    calls has the single argument [name], and its value is the one the
    cron cell, the last to assign [schedule_name], gave it. *)
Theorem schedule_cells_manage_the_cron_schedule
    (fuel : nat) (env : gmap string value) (w : W)
    (site : string) (f : value) (pos : list value)
    (kw : list (string * value)) (r : reply) :
  In site management_sites ->
  In (EvCall site f pos kw r)
     (trace_of (run_cells ext true fuel notebook env w)) ->
  pos = [] /\ kw = [("name", VStr cron_name)].
Proof.
  intros Hsite. change notebook with (take 14 notebook ++ drop 14 notebook).
  rewrite run_cells_app.
  pose proof (run_cells_confined ext true fuel (take 14 notebook) env w) as Hpre.
  destruct (run_cells ext true fuel (take 14 notebook) env w)
    as [[[t1 env1] w1] g1].
  cbn [trace_of fst] in Hpre.
  assert (Hno1 : ~ In (EvCall site f pos kw r) t1).
  { apply (within_not_In _ _ _ _ _ _ _ Hpre). intros Hin.
    apply (management_later site Hsite).
    change (take 15 notebook) with (take 14 notebook ++ [cell_schedule_cron]).
    unfold notebook_sites. rewrite flat_map_app. apply in_or_app. by left. }
  destruct g1; cbv beta iota; cbn [trace_of fst];
    try (intros Hin; by apply Hno1 in Hin).
  change (drop 14 notebook) with (cell_schedule_cron :: drop 15 notebook).
  cbn [run_cells].
  pose proof (run_cell_confined ext fuel cell_schedule_cron env1 w1) as Hcron.
  pose proof (last_assignment fuel (take 4 cell_schedule_cron)
                (drop 5 cell_schedule_cron) "schedule_name" cron_name env1 w1)
    as Hname.
  change (take 4 cell_schedule_cron ++ _ ++ drop 5 cell_schedule_cron)
    with cell_schedule_cron in Hname.
  pose proof (run_cell_no_break ext fuel cell_schedule_cron env1 w1) as Hb.
  destruct (run_cell ext fuel cell_schedule_cron env1 w1) as [[[t2 env2] w2] g2].
  cbn [trace_of env_of signal_of fst snd] in Hcron, Hname, Hb.
  assert (Hno2 : ~ In (EvCall site f pos kw r) t2).
  { apply (within_not_In _ _ _ _ _ _ _ Hcron). intros Hin.
    apply (management_later site Hsite).
    change (take 15 notebook) with (take 14 notebook ++ [cell_schedule_cron]).
    unfold notebook_sites. rewrite flat_map_app. apply in_or_app. right.
    cbn [flat_map]. by rewrite app_nil_r. }
  destruct g2; [| exfalso; by apply Hb | |]; cbv beta iota.
  - destruct (run_cells_steady ext site by_name env2 true fuel
                (drop 15 notebook) env2 w2 (management_steady site Hsite))
      as [Ht _]; [done|].
    destruct (run_cells ext true fuel (drop 15 notebook) env2 w2)
      as [[[t3 env3] w3] g3].
    cbn [trace_of fst] in Ht |- *. intros Hin.
    apply in_app_iff in Hin as [Hin|Hin]; [by apply Hno1 in Hin|].
    apply in_app_iff in Hin as [Hin|Hin]; [by apply Hno2 in Hin|].
    apply (stable_In _ _ _ _ _ _ _ _ Ht) in Hin.
    apply by_name_value in Hin as (-> & n & Hn & ->).
    rewrite Hname in Hn; [|vm_compute; intuition discriminate|reflexivity].
    by injection Hn as <-.
  - cbn [trace_of fst]. intros Hin.
    apply in_app_iff in Hin as [Hin|Hin]; [by apply Hno1 in Hin|].
    by apply Hno2 in Hin.
  - cbn [trace_of fst]. intros Hin.
    apply in_app_iff in Hin as [Hin|Hin]; [by apply Hno1 in Hin|].
    by apply Hno2 in Hin.
Qed.

End ManagedSchedule.

(** ** Cells followed call by call, whatever the platform answers *)

Lemma get_attr_handle c a : is_handle c = true -> get_attr c a = VProj c a.
Proof. by destruct c as [| | | | | |cls [|]| | |]. Qed.

Lemma env_insert_eq (env : gmap string value) x v : <[x := v]> env !! x = Some v.
Proof. apply lookup_insert_eq. Qed.

Lemma env_insert_ne (env : gmap string value) x y v :
  String.eqb x y = false -> <[x := v]> env !! y = env !! y.
Proof. intros H. apply lookup_insert_ne. by apply String.eqb_neq. Qed.

Lemma env_delete_eq (env : gmap string value) x : delete x env !! x = None.
Proof. apply lookup_delete_eq. Qed.

Lemma env_delete_ne (env : gmap string value) x y :
  String.eqb x y = false -> delete x env !! y = env !! y.
Proof. intros H. apply lookup_delete_ne. by apply String.eqb_neq. Qed.

Section CallByCall.

Context {W : Type}.
Variable ext : W -> value -> list value -> list (string * value) -> reply * W.

(** What a call leaves in the trace, whatever is called. *)
Lemma call_facts site f pos kw w t w1 r :
  call ext site f pos kw w = (t, w1, r) ->
  within [site] t /\
  (forall v, r = inl v -> all_returned t = true) /\
  forall S, S <> site -> existsb (calls_site S) t = false.
Proof.
  intros E.
  pose proof (call_within ext site f pos kw w) as Hw.
  pose proof (tidy_call ext site f pos kw w) as Ht.
  unfold tr_of in Hw. unfold Retry.tidy_m in Ht. rewrite E in Hw, Ht. cbn in Hw, Ht.
  split; [done|]. split.
  - intros v ->. cbn in Ht. unfold all_returned. apply forallb_forall.
    intros ev Hev. unfold Retry.clean in Ht. rewrite List.Forall_forall in Ht.
    by rewrite (Ht _ Hev).
  - intros S HS. apply not_true_is_false. intros Hex.
    apply existsb_exists in Hex as (ev & Hev & Hs).
    unfold within in Hw. rewrite List.Forall_forall in Hw. apply Hw in Hev.
    destruct ev; cbn in *; try done. apply String.eqb_eq in Hs.
    destruct Hev as [<-|[]]. congruence.
Qed.

(** A call raises nothing but exceptions of class [Exception]. *)
Lemma call_raises site f pos kw w t w1 ex :
  call ext site f pos kw w = (t, w1, inr ex) -> is_Exception ex = true.
Proof.
  assert (He : forall g, external ext site g pos kw w = (t, w1, inr ex) ->
                         is_Exception ex = true).
  { intros g. unfold external.
    destruct (ext w g pos kw) as [[v|cls] w']; [done|]. by intros [= <- <- <-]. }
  unfold call. destruct f; try apply He.
  - repeat case_match; try apply He; cbn; try done; by intros [= <- <- <-].
  - destruct f; try apply He. case_match; try apply He. done.
Qed.

Lemma external_reply site f pos kw w :
  external ext site f pos kw w =
    match ext w f pos kw with
    | (Ret v, w') => ([EvCall site f pos kw (Ret v)], w', inl v)
    | (Raise cls, w') =>
        ([EvCall site f pos kw (Raise cls)], w', inr (LibError cls))
    end.
Proof. reflexivity. Qed.

Lemma catches_bare e : catches HBare e = true.
Proof. reflexivity. Qed.

Lemma catches_Exception x e :
  is_Exception e = true -> catches (HExcept "Exception" x) e = true.
Proof. intros H. unfold catches. by rewrite H. Qed.

End CallByCall.


(** Lookups in a namespace written out. *)
Ltac look :=
  repeat match goal with
         | |- context [(<[?x := ?v]> ?m) !! ?x] => rewrite (env_insert_eq m x v)
         | |- context [(<[?x := ?v]> ?m) !! ?y] =>
             rewrite (env_insert_ne m x y v) by reflexivity
         | |- context [(delete ?x ?m) !! ?x] => rewrite (env_delete_eq m x)
         | |- context [(delete ?x ?m) !! ?y] =>
             rewrite (env_delete_ne m x y) by reflexivity
         | H : ?m !! ?x = _ |- context [?m !! ?x] => rewrite H
         end.

Ltac go := repeat (progress (unfold exec; cbn; look)).

Ltac concrete f :=
  lazymatch f with
  | VExt _ => idtac
  | VProj (VProj _ _) _ => idtac
  | VProj (VObj _ _) _ => idtac
  | VProj (VStr _) _ => idtac
  | VProj (VExt _) _ => idtac
  | VObj _ _ => idtac
  | VStr _ => idtac
  | VNone => idtac
  end.

(** The next call: computed when the callee is known, else taken with
    both its outcomes. *)
Ltac next_call :=
  match goal with
  | |- context [call ?e ?site ?f ?pos ?kw ?w] =>
      first
        [ concrete f;
          let u := eval cbv beta delta [call] in (call e site f pos kw w) in
          let u' := eval cbn in u in
          change (call e site f pos kw w) with u'
        | let t := fresh "t" in
          let w' := fresh "w" in
          let v := fresh "v" in
          let ex := fresh "ex" in
          let H := fresh "Hcall" in
          destruct (call e site f pos kw w) as [[t w'] [v|ex]] eqn:H ]
  end.

(** Both replies to the next call that reaches the platform. *)
Ltac next_reply :=
  match goal with
  | |- context [external ?e ?site ?f ?pos ?kw ?w] =>
      let v := fresh "v" in
      let cls := fresh "cls" in
      let w' := fresh "w" in
      let H := fresh "Hext" in
      rewrite (external_reply e site f pos kw w);
      destruct (e w f pos kw) as [[v|cls] w'] eqn:H
  end.

Ltac next_lookup :=
  match goal with
  | |- context [match ?env !! ?x with _ => _ end] =>
      let v := fresh "v" in
      let H := fresh "Hlook" in
      destruct (env !! x) as [v|] eqn:H
  end.

Ltac handles :=
  repeat match goal with
         | H : is_handle ?c = true |- context [get_attr ?c ?a] =>
             rewrite (get_attr_handle c a H)
         end.

Ltac next_handler :=
  match goal with
  | |- context [catches HBare ?e] => rewrite (catches_bare e)
  | |- context [catches (HExcept "Exception" ?x) ?e] =>
      rewrite (catches_Exception x e)
        by first [reflexivity | eapply call_raises; eassumption]
  end.

Ltac walk :=
  repeat (go; handles; go;
          try first [next_handler | next_lookup | next_reply | next_call]).

(** What is known of the calls that were taken with both outcomes. *)
Ltac call_facts_of S :=
  repeat match goal with
         | H : call _ ?site _ _ _ _ = (?t, _, _) |- _ =>
             lazymatch goal with
             | _ : existsb (calls_site S) t = false |- _ => fail
             | _ => idtac
             end;
             let Hn := fresh "Hno" in
             assert (Hn : existsb (calls_site S) t = false)
               by (apply (proj2 (proj2 (call_facts _ _ _ _ _ _ _ _ _ H)));
                   discriminate)
         end.

(** An event that is in a trace written out. *)
Ltac find_event :=
  first [ left; reflexivity
        | right; find_event
        | apply in_or_app; first [left; find_event | right; find_event] ].

Ltac has_event := cbn [trace_of fst]; find_event.

(** No call to [S] in a trace written out. *)
Ltac no_call_to S :=
  call_facts_of S;
  solve [ repeat (cbn; rewrite ?existsb_app;
                  repeat match goal with
                         | H : existsb _ ?t = false |- context [existsb _ ?t] =>
                             rewrite H
                         end);
          reflexivity ].

Ltac bound := cbn [env_of fst snd]; look; reflexivity.

Section Cells.

Context {W : Type}.
Variable ext : W -> value -> list value -> list (string * value) -> reply * W.
#[local] Arguments call : simpl never.
#[local] Arguments external : simpl never.
#[local] Arguments catches : simpl never.

(** X10: in the delete cell, with [ml_client] an SDK client, whenever
    begin_delete is called the cell has first called begin_disable for
    the same schedule name, that call has returned, and no call in
    between has failed. *)
Theorem schedule_is_deleted_only_after_it_is_disabled
    (fuel : nat) (env : gmap string value) (w : W) (c : value) :
  env !! "ml_client" = Some c -> is_handle c = true ->
  let tr := trace_of (run_cell ext fuel WorkingWithData.cell_delete_schedule env w) in
  existsb (calls_site "ml_client.schedules.begin_delete") tr = true ->
  exists n v t rp post,
    env !! "schedule_name" = Some n /\
    tr = EvCall "ml_client.schedules.begin_disable"
           (VProj (VProj c "schedules") "begin_disable") [] [("name", n)] (Ret v)
         :: t ++
         EvCall "ml_client.schedules.begin_delete"
           (VProj (VProj c "schedules") "begin_delete") [] [("name", n)] rp
         :: post /\
    all_returned t = true.
Proof.
  intros Hc Hh tr. subst tr.
  destruct (run_cell _ _ _ _ _) as [[[tr env'] p'] sg] eqn:Hrun.
  revert Hrun. unfold WorkingWithData.cell_delete_schedule.
  walk.
  all: intros [= <- <- <- <-].
  all: cbn [trace_of fst]; rewrite ?app_nil_r, <- ?app_assoc; cbn [app].
  all: call_facts_of "ml_client.schedules.begin_delete".
  all: try (cbn [existsb calls_site]; rewrite ?existsb_app;
            repeat match goal with H : existsb _ _ = false |- _ => rewrite H end;
            cbn; discriminate).
  all: intros _; eexists _, _, _, _, _; (split; [reflexivity|]);
    (split; [reflexivity|]);
    match goal with
    | H : call _ _ _ _ _ _ = (?t, _, inl _) |- all_returned ?t = true =>
        exact (proj1 (proj2 (call_facts _ _ _ _ _ _ _ _ _ H)) _ eq_refl)
    end.
Qed.

(** X11: when the connect cell of the fine-tuning notebook completes,
    the workspace client and the registry client were built from the
    same credential.  That credential is the DefaultAzureCredential,
    and then InteractiveBrowserCredential was not called and [ex] is
    untouched, or it is the InteractiveBrowserCredential of the
    handler, and then [ex] is unbound.  The workspace client is the
    result of MLClient.from_config, or, when that raised, of MLClient
    with the placeholder subscription, resource group and workspace. *)
Theorem connect_cell_clients_share_one_credential
    (fuel : nat) (env : gmap string value) (w : W) :
  let r := run_cell ext fuel FineTuning.cell_connect env w in
  signal_of r = Normal ->
  exists cred c reg,
    env_of r !! "credential" = Some cred /\
    env_of r !! "workspace_ml_client" = Some c /\
    env_of r !! "registry_ml_client" = Some reg /\
    In (EvCall "MLClient" (VExt "azure.ai.ml.MLClient") [cred]
          [("registry_name", VStr "azureml-meta")] (Ret reg)) (trace_of r) /\
    (In (EvCall "MLClient.from_config" (VExt "azure.ai.ml.MLClient.from_config")
           [] [("credential", cred)] (Ret c)) (trace_of r) \/
     (exists cls,
        In (EvCall "MLClient.from_config" (VExt "azure.ai.ml.MLClient.from_config")
              [] [("credential", cred)] (Raise cls)) (trace_of r)) /\
     In (EvCall "MLClient" (VExt "azure.ai.ml.MLClient") [cred]
           [ ("subscription_id", VStr "<SUBSCRIPTION_ID>");
             ("resource_group_name", VStr "<RESOURCE_GROUP>");
             ("workspace_name", VStr "<WORKSPACE_NAME>") ] (Ret c)) (trace_of r)) /\
    (In (EvCall "DefaultAzureCredential"
           (VExt "azure.identity.DefaultAzureCredential") [] [] (Ret cred))
        (trace_of r) /\
     existsb (calls_site "InteractiveBrowserCredential") (trace_of r) = false /\
     env_of r !! "ex" = env !! "ex"
     \/
     In (EvCall "InteractiveBrowserCredential"
           (VExt "azure.identity.InteractiveBrowserCredential") [] [] (Ret cred))
        (trace_of r) /\
     env_of r !! "ex" = None).
Proof.
  intros r. subst r.
  destruct (run_cell _ _ _ _ _) as [[[tr env'] p'] sg] eqn:Hrun.
  revert Hrun. unfold FineTuning.cell_connect.
  walk.
  all: intros [= <- <- <- <-].
  all: cbn [signal_of snd]; try discriminate.
  all: intros _; eexists _, _, _.
  all: split; [bound|]; split; [bound|]; split; [bound|].
  all: split; [has_event|].
  all: split; [first [left; has_event | right; split; [eexists; has_event | has_event]]|].
  all: first [ left; split; [has_event|];
               split; [no_call_to "InteractiveBrowserCredential" | bound]
             | right; split; [has_event | bound] ].
Qed.

End Cells.

(** ** The job specification, the endpoint and the deployment *)

Lemma substring_length_le n : forall s, String.length (String.substring 0 n s) <= n.
Proof.
  induction n as [|n IH]; intros [|c s]; cbn; try lia.
  specialize (IH s). lia.
Qed.

Lemma add_quiet {W : Type} (a b : value) (w : W) : exists r, add a b w = ([], w, r).
Proof.
  unfold add. destruct a, b; try (eexists; reflexivity);
    cbn; eexists; reflexivity.
Qed.

Lemma add_str {W : Type} (x y : string) (w : W) :
  add (VStr x) (VStr y) w = ([], w, inl (VStr (x +:+ y))).
Proof. reflexivity. Qed.

Lemma index_quiet {W : Type} (v k : value) (w : W) :
  exists r, index v k w = ([], w, r).
Proof.
  unfold index. destruct v, k; try (eexists; reflexivity).
  destruct (assoc _ _); eexists; reflexivity.
Qed.

Ltac next_op :=
  match goal with
  | |- context [add (VStr ?x) (VStr ?y) ?w] => rewrite (add_str x y w)
  | |- context [add ?a ?b ?w] =>
      let H := fresh "Hadd" in
      destruct (add_quiet a b w) as [[?|?] H]; rewrite H; clear H
  | |- context [index ?a ?b ?w] =>
      let H := fresh "Hidx" in
      destruct (index_quiet a b w) as [[?|?] H]; rewrite H; clear H
  end.

Lemma call_handle {W : Type}
    (ext : W -> value -> list value -> list (string * value) -> reply * W)
    site c m pos kw w :
  is_handle c = true ->
  call ext site (VProj c m) pos kw w = external ext site (VProj c m) pos kw w.
Proof. by destruct c as [| | | | | |cls [|]| | |]. Qed.

Ltac handles_calls :=
  repeat match goal with
         | H : is_handle ?c = true |- context [get_attr ?c ?a] =>
             rewrite (get_attr_handle c a H)
         | H : is_handle ?c = true |- context [call ?e ?s (VProj ?c ?m) ?pos ?kw ?w] =>
             rewrite (call_handle e s c m pos kw w H)
         end.

Ltac walk_ops :=
  repeat (go; handles_calls; go;
          try first [next_handler | next_op | next_lookup | next_reply | next_call]).

Lemma set_attr_nested cls fs a tcls tfs b v :
  assoc a fs = Some (VObj tcls tfs) ->
  set_attr (VObj cls fs) [a; b] v
    = VObj cls (assoc_set a (VObj tcls (assoc_set b v tfs)) fs).
Proof. intros H. cbn. by rewrite H. Qed.

Section JobSpec.
Context {W : Type}.
Variable ext : W -> value -> list value -> list (string * value) -> reply * W.
#[local] Arguments call : simpl never.
#[local] Arguments external : simpl never.
#[local] Arguments catches : simpl never.
#[local] Arguments String.substring : simpl never.
#[local] Arguments String.length : simpl never.
#[local] Arguments Nat.min : simpl never.

(** X12: the fine-tuning job is created with [name] and
    [output_model_name_prefix] both equal to finetuned-model- followed
    by the first eight characters (at most) of a fresh uuid, with a
    display name that ends in the same characters, and with the ids of
    the training and validation assets as its data. *)
Theorem job_names_share_the_guid
    (fuel : nat) (env : gmap string value) (w : W)
    (f : value) (pos : list value) (kw : list (string * value)) (r : reply) :
  env !! "str" = Some (VExt "str") ->
  let tr := trace_of (run_cell ext fuel FineTuning.cell_build_job env w) in
  In (EvCall "create_finetuning_job" f pos kw r) tr ->
  exists u g m t v,
    In (EvCall "uuid.uuid4" (VExt "uuid.uuid4") [] [] (Ret u)) tr /\
    g = String.substring 0 (Nat.min 8 (String.length (to_str u)) - 0) (to_str u) /\
    String.length g <= 8 /\
    env !! "model_name" = Some m /\
    env !! "train_data_asset" = Some t /\
    env !! "validation_data_asset" = Some v /\
    pos = [] /\
    assoc "name" kw = Some (VStr ("finetuned-model-" +:+ g)) /\
    assoc "output_model_name_prefix" kw = Some (VStr ("finetuned-model-" +:+ g)) /\
    assoc "display_name" kw = Some (VStr (to_str m +:+ "-display-name-" +:+ g)) /\
    assoc "training_data" kw = Some (get_attr t "id") /\
    assoc "validation_data" kw = Some (get_attr v "id").
Proof.
  intros Hstr tr. subst tr.
  destruct (run_cell _ _ _ _ _) as [[[tr env'] p'] sg] eqn:Hrun.
  revert Hrun. unfold FineTuning.cell_build_job.
  walk.
  all: intros [= <- <- <- <-].
  all: cbn [trace_of fst]; rewrite ?app_nil_r; cbn [app In].
  all: try (intros [H|[]]; discriminate H).
  all: try (intros [H|[H|[]]]; discriminate H).
  all: intros [H|[H|[]]]; [discriminate H|].
  all: injection H as <- <- <- <-.
  all: eexists _, _, _, _, _.
  all: split; [left; reflexivity|].
  all: split; [reflexivity|].
  all: split; [etransitivity; [apply substring_length_le|]; apply Nat.le_trans with (Nat.min 8 (String.length (to_str v))); [lia|apply Nat.le_min_l]|].
  all: split; [reflexivity|].
  all: split; [reflexivity|].
  all: split; [reflexivity|].
  all: repeat split; reflexivity.
Qed.
End JobSpec.

Section Deployment.
Context {W : Type}.
Variable ext : W -> value -> list value -> list (string * value) -> reply * W.
#[local] Arguments call : simpl never.
#[local] Arguments external : simpl never.
#[local] Arguments catches : simpl never.
#[local] Arguments add : simpl never.
#[local] Arguments index : simpl never.

(** X13: when the endpoint cell and the deployment cell complete, the
    endpoint was created under the sanitized model name followed by
    [short_guid] and without traffic, the deployment named demo was
    created for that endpoint name, and then the same endpoint was
    sent again with all traffic given to demo. *)
Theorem deployment_goes_to_the_endpoint_just_created
    (fuel : nat) (env : gmap string value) (w : W) (c : value) (g : string) :
  env !! "workspace_ml_client" = Some c ->
  is_handle c = true ->
  env !! "short_guid" = Some (VStr g) ->
  let r := run_cells ext true fuel
             [FineTuning.cell_endpoint; FineTuning.cell_inference_sku;
              FineTuning.cell_deployment] env w in
  signal_of r = Normal ->
  exists u efs dfs r1 r2 r3 t1 t2 t3 t4,
    trace_of r =
      t1 ++ EvCall "workspace_ml_client.begin_create_or_update"
              (VProj c "begin_create_or_update")
              [VObj "azure.ai.ml.entities.ManagedOnlineEndpoint" efs] [] (Ret r1)
         :: t2 ++ EvCall "workspace_ml_client.online_deployments.begin_create_or_update"
                    (VProj (VProj c "online_deployments") "begin_create_or_update")
                    [VObj "azure.ai.ml.entities.ManagedOnlineDeployment" dfs] []
                    (Ret r2)
         :: t3 ++ EvCall "workspace_ml_client.begin_create_or_update"
                    (VProj c "begin_create_or_update")
                    [VObj "azure.ai.ml.entities.ManagedOnlineEndpoint"
                       (assoc_set "traffic" (VDict [("demo", VInt 100)]) efs)]
                    [] (Ret r3)
         :: t4 /\
    (exists m, t1 = [EvCall "re.sub" (VExt "re.sub")
                       [VStr "[^a-zA-Z0-9-]"; VStr "-"; m] [] (Ret u)]) /\
    assoc "name" efs = Some (VStr (to_str u +:+ g)) /\
    assoc "traffic" efs = None /\
    assoc "endpoint_name" dfs = Some (VStr (to_str u +:+ g)) /\
    assoc "name" dfs = Some (VStr "demo").
Proof.
  intros Hc Hh Hg r. subst r.
  destruct (run_cells _ _ _ _ _ _) as [[[tr env'] p'] sg] eqn:Hrun.
  revert Hrun.
  unfold FineTuning.cell_endpoint, FineTuning.cell_inference_sku,
    FineTuning.cell_deployment.
  walk_ops.
  all: intros [= <- <- <- <-].
  all: cbn [signal_of snd]; try discriminate.
  all: intros _; cbn [trace_of fst].
  all: rewrite ?app_nil_r, <- ?app_assoc; cbn [app].
  all: lazymatch goal with
       | |- context [ ?a :: EvCall _ _ [VObj _ ?efs] [] (Ret ?r1)
                         :: ?t2 ++ EvCall _ _ [VObj _ ?dfs] [] (Ret ?r2)
                         :: ?t3 ++ EvCall _ _ _ [] (Ret ?r3) :: ?t4 ] =>
           lazymatch a with
           | EvCall _ _ _ _ (Ret ?u) =>
               exists u, efs, dfs, r1, r2, r3, [a], t2, t3, t4
           end
       end.
  all: split; [reflexivity|].
  all: split; [eexists; reflexivity|].
  all: repeat split; reflexivity.
Qed.
End Deployment.

Section EditedInPlace.
Context {W : Type}.
Variable ext : W -> value -> list value -> list (string * value) -> reply * W.
#[local] Arguments call : simpl never.
#[local] Arguments external : simpl never.
#[local] Arguments catches : simpl never.
#[local] Arguments set_attr : simpl never.

(** X14: the update cell sends the schedule it holds with the cron
    expression of its trigger set to 10 10 * * 1; every other field of
    the schedule and of the trigger is as before. *)
Theorem update_cell_changes_only_the_cron_expression
    (fuel : nat) (env : gmap string value) (w : W) (c : value)
    (cls tcls : string) (fs tfs : list (string * value)) :
  env !! "ml_client" = Some c ->
  is_handle c = true ->
  env !! "import_schedule" = Some (VObj cls fs) ->
  assoc "trigger" fs = Some (VObj tcls tfs) ->
  exists fs' tfs' r rest,
    trace_of (run_cell ext fuel WorkingWithData.cell_update_schedule env w)
      = EvCall "ml_client.schedules.begin_create_or_update"
          (VProj (VProj c "schedules") "begin_create_or_update")
          [] [("schedule", VObj cls fs')] r :: rest /\
    assoc "trigger" fs' = Some (VObj tcls tfs') /\
    assoc "expression" tfs' = Some (VStr "10 10 * * 1") /\
    (forall a, a <> "trigger" -> assoc a fs' = assoc a fs) /\
    (forall a, a <> "expression" -> assoc a tfs' = assoc a tfs).
Proof.
  intros Hc Hh Hs Ht.
  exists (assoc_set "trigger"
            (VObj tcls (assoc_set "expression" (VStr "10 10 * * 1") tfs)) fs),
         (assoc_set "expression" (VStr "10 10 * * 1") tfs).
  assert (Hfacts :
    forall P : Prop, P ->
      P /\
      assoc "trigger"
        (assoc_set "trigger"
           (VObj tcls (assoc_set "expression" (VStr "10 10 * * 1") tfs)) fs)
        = Some (VObj tcls (assoc_set "expression" (VStr "10 10 * * 1") tfs)) /\
      assoc "expression" (assoc_set "expression" (VStr "10 10 * * 1") tfs)
        = Some (VStr "10 10 * * 1") /\
      (forall a, a <> "trigger" ->
         assoc a (assoc_set "trigger"
                    (VObj tcls (assoc_set "expression" (VStr "10 10 * * 1") tfs))
                    fs) = assoc a fs) /\
      (forall a, a <> "expression" ->
         assoc a (assoc_set "expression" (VStr "10 10 * * 1") tfs) = assoc a tfs)).
  { intros P HP. split; [exact HP|]. split; [apply assoc_set_eq|].
    split; [apply assoc_set_eq|].
    split; intros a Ha; by apply assoc_set_ne. }
  destruct (run_cell _ _ _ _ _) as [[[tr env'] p'] sg] eqn:Hrun.
  revert Hrun. unfold WorkingWithData.cell_update_schedule.
  go. rewrite (set_attr_nested _ _ _ _ _ _ _ Ht).
  walk.
  all: intros [= <- <- <- <-]; cbn [trace_of fst].
  all: eexists _, _; apply Hfacts; reflexivity.
Qed.

(** X15: the cell that configures a job with the user's identity only
    builds it: its calls are to Input, UserIdentityConfiguration and
    command, and nothing is sent through [ml_client]. *)
Theorem user_identity_job_is_never_submitted
    (fuel : nat) (env : gmap string value) (w : W)
    (site : string) (f : value) (pos : list value) (kw : list (string * value))
    (r : reply) :
  In (EvCall site f pos kw r)
     (trace_of (run_cell ext fuel WorkingWithData.cell_user_identity_job env w)) ->
  In site ["Input"; "UserIdentityConfiguration"; "command"].
Proof.
  intros Hin.
  pose proof (run_cell_confined ext fuel WorkingWithData.cell_user_identity_job
                env w) as Hw.
  unfold within in Hw. rewrite List.Forall_forall in Hw.
  apply Hw in Hin. exact Hin.
Qed.
End EditedInPlace.

(** ** The properties above on a platform on which no call fails *)

Lemma finetuning_notebook_deletes_nothing_witness :
  let res := run_cells Platform.ext true 5 FineTuning.notebook fresh_env
               (Platform.quiet Poll.sample_status) in
  let f := VProj (VProj Platform.handle "jobs") "create_or_update" in
  In (EvCall "workspace_ml_client.jobs.create_or_update" f
        [Platform.handle] [] (Ret Platform.handle)) (trace_of res) /\
  In "workspace_ml_client.jobs.create_or_update"
     (notebook_sites FineTuning.notebook) /\
  mentions "delete" "workspace_ml_client.jobs.create_or_update" = false.
Proof.
  intros res f.
  assert (Hin : In (EvCall "workspace_ml_client.jobs.create_or_update" f
                      [Platform.handle] [] (Ret Platform.handle)) (trace_of res)).
  { vm_compute. repeat (first [left; reflexivity | right]). }
  split; [exact Hin|].
  exact (finetuning_notebook_deletes_nothing Platform.ext true 5 fresh_env
           (Platform.quiet Poll.sample_status) _ _ _ _ _ Hin).
Defined.

Lemma notebooks_read_no_unbound_name_witness :
  Bound.covers fresh_env Bound.builtins /\
  forall x,
    signal_of (run_cells Platform.ext true 5 WorkingWithData.notebook fresh_env
                 (Platform.quiet already_done)) <> Exc (NameError x).
Proof.
  assert (H : Bound.covers fresh_env Bound.builtins).
  { intros x [<-|[<-|[]]]; vm_compute; eexists; reflexivity. }
  split; [exact H|].
  apply (notebooks_read_no_unbound_name Platform.ext 5 fresh_env
           (Platform.quiet already_done) H).
  left; reflexivity.
Defined.

Lemma schedule_cells_manage_the_cron_schedule_witness :
  let res := run_cells Platform.ext true 5 WorkingWithData.notebook fresh_env
               (Platform.quiet already_done) in
  let ev := EvCall "ml_client.schedules.begin_delete"
              (VProj (VProj Platform.handle "schedules") "begin_delete")
              [] [("name", VStr Schedules.cron_name)] (Ret Platform.handle) in
  In "ml_client.schedules.begin_delete" Schedules.management_sites /\
  In ev (trace_of res) /\
  @nil value = [] /\
  [("name", VStr Schedules.cron_name)] = [("name", VStr Schedules.cron_name)].
Proof.
  intros res ev.
  assert (Hs : In "ml_client.schedules.begin_delete" Schedules.management_sites).
  { vm_compute. repeat (first [left; reflexivity | right]). }
  assert (Hin : In ev (trace_of res)).
  { vm_compute. repeat (first [left; reflexivity | right]). }
  split; [exact Hs|]. split; [exact Hin|].
  exact (schedule_cells_manage_the_cron_schedule Platform.ext 5 fresh_env
           (Platform.quiet already_done) _ _ _ _ _ Hs Hin).
Defined.

Lemma schedule_is_deleted_only_after_it_is_disabled_witness :
  let env := data_kernel 20 in
  let tr := trace_of (run_cell Platform.ext 0 WorkingWithData.cell_delete_schedule
                        env (Platform.quiet already_done)) in
  env !! "ml_client" = Some Platform.handle /\
  is_handle Platform.handle = true /\
  existsb (calls_site "ml_client.schedules.begin_delete") tr = true /\
  exists n v t rp post,
    env !! "schedule_name" = Some n /\
    tr = EvCall "ml_client.schedules.begin_disable"
           (VProj (VProj Platform.handle "schedules") "begin_disable") []
           [("name", n)] (Ret v)
         :: t ++
         EvCall "ml_client.schedules.begin_delete"
           (VProj (VProj Platform.handle "schedules") "begin_delete") []
           [("name", n)] rp
         :: post /\
    all_returned t = true.
Proof.
  intros env tr.
  assert (Hc : env !! "ml_client" = Some Platform.handle)
    by (vm_compute; reflexivity).
  assert (Hh : is_handle Platform.handle = true) by reflexivity.
  assert (Hd : existsb (calls_site "ml_client.schedules.begin_delete") tr = true)
    by (vm_compute; reflexivity).
  split; [exact Hc|]. split; [exact Hh|]. split; [exact Hd|].
  exact (schedule_is_deleted_only_after_it_is_disabled Platform.ext 0 env
           (Platform.quiet already_done) Platform.handle Hc Hh Hd).
Defined.

Lemma connect_cell_clients_share_one_credential_witness :
  let r := run_cell Platform.ext 0 FineTuning.cell_connect fresh_env
             (Platform.quiet already_done) in
  signal_of r = Normal /\
  exists cred c reg,
    env_of r !! "credential" = Some cred /\
    env_of r !! "workspace_ml_client" = Some c /\
    env_of r !! "registry_ml_client" = Some reg.
Proof.
  intros r.
  assert (Hn : signal_of r = Normal) by (vm_compute; reflexivity).
  split; [exact Hn|].
  destruct (connect_cell_clients_share_one_credential Platform.ext 0 fresh_env
              (Platform.quiet already_done) Hn)
    as (cred & c & reg & H1 & H2 & H3 & _).
  exists cred, c, reg. split; [exact H1|]. split; [exact H2|exact H3].
Defined.

Lemma job_names_share_the_guid_witness :
  let env := finetuning_kernel 8 in
  let tr := trace_of (run_cell Platform.ext 0 FineTuning.cell_build_job env
                        (Platform.quiet already_done)) in
  env !! "str" = Some (VExt "str") /\
  exists f kw r,
    In (EvCall "create_finetuning_job" f [] kw r) tr /\
    assoc "name" kw = assoc "output_model_name_prefix" kw.
Proof.
  intros env tr.
  assert (Hs : env !! "str" = Some (VExt "str")) by (vm_compute; reflexivity).
  split; [exact Hs|].
  assert (Hin : exists f kw r, In (EvCall "create_finetuning_job" f [] kw r) tr).
  { vm_compute. eexists _, _, _. right; left. reflexivity. }
  destruct Hin as (f & kw & r & Hin).
  exists f, kw, r. split; [exact Hin|].
  destruct (job_names_share_the_guid Platform.ext 0 env
              (Platform.quiet already_done) f [] kw r Hs Hin)
    as (u & g & m & t & v & _ & _ & _ & _ & _ & _ & _ & Hname & Hprefix & _).
  rewrite Hname, Hprefix. reflexivity.
Defined.

Lemma deployment_goes_to_the_endpoint_just_created_witness :
  let env := finetuning_kernel 15 in
  let r := run_cells Platform.ext true 0
             [FineTuning.cell_endpoint; FineTuning.cell_inference_sku;
              FineTuning.cell_deployment] env (Platform.quiet already_done) in
  env !! "workspace_ml_client" = Some Platform.handle /\
  is_handle Platform.handle = true /\
  env !! "short_guid" = Some (VStr "<object>") /\
  signal_of r = Normal /\
  exists efs dfs : list (string * value),
    assoc "name" efs = assoc "endpoint_name" dfs /\
    assoc "name" dfs = Some (VStr "demo").
Proof.
  intros env r.
  assert (Hc : env !! "workspace_ml_client" = Some Platform.handle)
    by (vm_compute; reflexivity).
  assert (Hh : is_handle Platform.handle = true) by reflexivity.
  assert (Hg : env !! "short_guid" = Some (VStr "<object>"))
    by (vm_compute; reflexivity).
  assert (Hn : signal_of r = Normal) by (vm_compute; reflexivity).
  split; [exact Hc|]. split; [exact Hh|]. split; [exact Hg|]. split; [exact Hn|].
  destruct (deployment_goes_to_the_endpoint_just_created Platform.ext 0 env
              (Platform.quiet already_done) Platform.handle "<object>"
              Hc Hh Hg Hn)
    as (u & efs & dfs & r1 & r2 & r3 & t1 & t2 & t3 & t4 & _ & _
        & He & _ & Hd & Hdemo).
  exists efs, dfs. split; [by rewrite He, Hd|exact Hdemo].
Defined.

Lemma update_cell_changes_only_the_cron_expression_witness :
  let env := data_kernel 15 in
  exists cls tcls fs tfs,
    env !! "ml_client" = Some Platform.handle /\
    is_handle Platform.handle = true /\
    env !! "import_schedule" = Some (VObj cls fs) /\
    assoc "trigger" fs = Some (VObj tcls tfs) /\
    exists fs' tfs' : list (string * value),
      assoc "trigger" fs' = Some (VObj tcls tfs') /\
      assoc "expression" tfs' = Some (VStr "10 10 * * 1") /\
      assoc "name" fs' = assoc "name" fs.
Proof.
  intros env.
  assert (Hc : env !! "ml_client" = Some Platform.handle)
    by (vm_compute; reflexivity).
  assert (Hh : is_handle Platform.handle = true) by reflexivity.
  assert (Hs : exists cls tcls fs tfs,
             env !! "import_schedule" = Some (VObj cls fs) /\
             assoc "trigger" fs = Some (VObj tcls tfs)).
  { vm_compute. eexists _, _, _, _. split; reflexivity. }
  destruct Hs as (cls & tcls & fs & tfs & Hs & Ht).
  exists cls, tcls, fs, tfs.
  split; [exact Hc|]. split; [exact Hh|]. split; [exact Hs|]. split; [exact Ht|].
  destruct (update_cell_changes_only_the_cron_expression Platform.ext 0 env
              (Platform.quiet already_done) Platform.handle cls tcls fs tfs
              Hc Hh Hs Ht)
    as (fs' & tfs' & r & rest & _ & H1 & H2 & H3 & _).
  exists fs', tfs'. split; [exact H1|]. split; [exact H2|].
  apply H3. discriminate.
Defined.

Lemma user_identity_job_is_never_submitted_witness :
  let tr := trace_of (run_cell Platform.ext 0
                        WorkingWithData.cell_user_identity_job (data_kernel 4)
                        (Platform.quiet already_done)) in
  let ev := EvCall "command" (VExt "azure.ai.ml.command") []
              [ ("code", VStr "./src");
                ("command",
                  VStr "python read_data.py --input_data ${{inputs.input_data}}");
                ("inputs", VDict [("input_data", Platform.handle)]);
                ("environment",
                  VStr "azureml://registries/azureml/environments/sklearn-1.5/labels/latest");
                ("compute", VStr "cpu-cluster");
                ("identity", Platform.handle) ]
              (Ret Platform.handle) in
  In ev tr /\ In "command" ["Input"; "UserIdentityConfiguration"; "command"].
Proof.
  intros tr ev.
  assert (Hin : In ev tr).
  { vm_compute. repeat (first [left; reflexivity | right]). }
  split; [exact Hin|].
  exact (user_identity_job_is_never_submitted Platform.ext 0 (data_kernel 4)
           (Platform.quiet already_done) _ _ _ _ _ Hin).
Defined.
